(** * bigmler.analyze.k_fold_cv: the search-and-score engine

    A shallow embedding of [bigmler/analyze/k_fold_cv.py]: the command
    ledger used to resume an interrupted analysis, the scorer, the
    best-first search over feature subsets and the node-threshold sweep.

    Numbers.  Python floats and ints are modelled by exact rationals [Q];
    the only non-finite value the code manufactures, [- float('inf')], is
    the constructor [NegInf] of [num].  Rounding is not modelled.

    Strings are [string]s of 8-bit characters. *)

From Stdlib Require Import Ascii String DecimalString QArith Lqa.
From stdpp Require Import gmap strings list.

Open Scope string_scope.

(** ** Python string helpers *)

Module PyStr.

(** [sub in s] for two strings. *)
Fixpoint contains (sub s : string) : bool :=
  String.prefix sub s ||
  match s with
  | EmptyString => false
  | String _ r => contains sub r
  end.

(** The class [\s] of [re] when the pattern is compiled without
    [re.UNICODE]: space, tab, newline, vertical tab, form feed, return. *)
Definition is_space (c : ascii) : bool :=
  let n := N_of_ascii c in
  ((9 <=? n) && (n <=? 13))%N || (n =? 32)%N.

(** [s] without its longest prefix of characters outside [\s]. *)
Fixpoint drop_nonspace (s : string) : string :=
  match s with
  | EmptyString => EmptyString
  | String c r => if is_space c then s else drop_nonspace r
  end.

(** [s] without the prefix [p], when [s] starts with [p]. *)
Fixpoint strip_prefix (p s : string) : option string :=
  match p, s with
  | EmptyString, _ => Some s
  | String a p', String b s' =>
      if Ascii.eqb a b then strip_prefix p' s' else None
  | String _ _, EmptyString => None
  end.

(** [u" ".join(args)] *)
Fixpoint join (sep : string) (args : list string) : string :=
  match args with
  | [] => ""
  | [a] => a
  | a :: rest => a ++ sep ++ join sep rest
  end.

(** [s.replace("\\", "\\\\")]: every backslash is doubled. *)
Fixpoint double_backslashes (s : string) : string :=
  match s with
  | EmptyString => EmptyString
  | String c r =>
      if Ascii.eqb c "\"%char
      then String c (String c (double_backslashes r))
      else String c (double_backslashes r)
  end.

(** [s.split(sep)] for a non-empty [sep], scanning left to right:
    [skip] counts the characters of a separator just found that are
    still to be passed over, [acc] is the piece being read. *)
Fixpoint split_go (sep : string) (skip : nat) (acc s : string) : list string :=
  match s with
  | EmptyString => [acc]
  | String c r =>
      match skip with
      | S k => split_go sep k acc r
      | O =>
          if String.prefix sep s
          then acc :: split_go sep (String.length sep - 1) "" r
          else split_go sep 0 (acc ++ String c "") r
      end
  end.

(** [s.split(sep)]; an empty separator raises [ValueError]. *)
Definition split (sep s : string) : option (list string) :=
  match sep with
  | EmptyString => None
  | _ => Some (split_go sep 0 "" s)
  end.

End PyStr.

(** ** The command ledger: comparing commands *)

Definition LF : string := String (ascii_of_nat 10) "".

(** [rebuild_command]: ["%s\n" % (u" ".join(args)).replace("\\", "\\\\")] *)
Definition rebuild_command (args : list string) : string :=
  PyStr.double_backslashes (PyStr.join " " args) ++ LF.

(** Whether [re.compile(r'name=Bigmler_[^\s]+')] matches at the start of
    [s]: the literal, then at least one character outside [\s]. *)
Definition name_pattern_matches (s : string) : bool :=
  match PyStr.strip_prefix "name=Bigmler_" s with
  | Some (String c _) => negb (PyStr.is_space c)
  | _ => false
  end.

(** [re.sub(pattern, "", s)] for [pattern = r'name=Bigmler_[^\s]+'].
    The scan goes left to right.  [inside] says that the scan is within
    a match: the pattern ends in a greedy [[^\s]+] and its literal part
    has no white space, so a match that starts at a position runs up to
    the next white-space character (or the end), and all of it is
    deleted.  Outside a match a character is kept unless a match starts
    there. *)
Fixpoint sub_name_pattern (inside : bool) (s : string) : string :=
  match s with
  | EmptyString => EmptyString
  | String c r =>
      if inside then
        if PyStr.is_space c then String c (sub_name_pattern false r)
        else sub_name_pattern true r
      else if name_pattern_matches s then sub_name_pattern true r
      else String c (sub_name_pattern false r)
  end.

Definition re_sub_name (s : string) : string := sub_name_pattern false s.

(** [different_command(next_command, command)] *)
Definition different_command (next_command command : string) : bool :=
  if String.eqb next_command command then false
  else if PyStr.contains "name=BigMLer_" command then
    (* the difference may be due to the timestamp of default name
       parameter *)
    String.eqb (re_sub_name next_command) (re_sub_name command)
  else false.

(** ** Numbers *)

(** A Python number of the search: a finite value or [- float('inf')]. *)
Inductive num : Type :=
| NegInf
| Fin (q : Q).

Definition Qgtb (a b : Q) : bool := negb (Qle_bool a b).

(** [a > b] *)
Definition num_gtb (a b : num) : bool :=
  match a, b with
  | NegInf, _ => false
  | Fin _, NegInf => true
  | Fin x, Fin y => Qgtb x y
  end.

(** [a == b] *)
Definition num_eqb (a b : num) : bool :=
  match a, b with
  | NegInf, NegInf => true
  | Fin x, Fin y => Qeq_bool x y
  | _, _ => false
  end.

(** [a - q] for a finite [q] *)
Definition num_minus (a : num) (q : Q) : num :=
  match a with
  | NegInf => NegInf
  | Fin x => Fin (x - q)
  end.

(** [a <= b], as a proposition. *)
Definition num_le (a b : num) : Prop :=
  match a, b with
  | NegInf, _ => True
  | Fin _, NegInf => False
  | Fin x, Fin y => (x <= y)%Q
  end.


(** ** Constants of the module *)

Definition AVG_PREFIX (metric : string) : string := "average_" ++ metric.
Definition R_SQUARED : string := "r_squared".
Definition DEFAULT_MIN_NODES : Z := 3.
Definition DEFAULT_NODES_STEP : Z := 100.
(** difference needed to become new best node *)
Definition EPSILON : Q := 1 # 1000.
(** per feature score penalty *)
Definition DEFAULT_PENALTY : Q := 1 # 1000.
(** per node score penalty *)
Definition DEFAULT_NODES_PENALTY : Q := 0.
Definition DEFAULT_STALENESS : Z := 5.

(** ** Evaluations

    The content of an [evaluation.json] file once parsed.  Under its
    ["model"] key it holds the averaged metrics and, for a
    classification, the list ["per_class_statistics"] of the metrics of
    each class.  The scorer only looks up keys of the form
    ["average_..."], so a dictionary is kept as the map of its numeric
    entries; the keys ["per_class_statistics"] and ["class_name"] are
    fields of the records. *)

Record class_evaluation : Type := {
  class_name : string;
  class_metrics : gmap string Q
}.

Record model_evaluation : Type := {
  metrics : gmap string Q;
  per_class_statistics : option (list class_evaluation)
}.

Record evaluation_json : Type := {
  model : option model_evaluation
}.

(** [extract_evaluation_info(evaluation, category)]: the evaluation
    metrics for the chosen category or the average.  [category] is
    [None] or a string, and is falsy when empty. *)
Definition extract_evaluation_info
    (evaluation : evaluation_json) (category : option string) : gmap string Q :=
  let evaluation :=
    default {| metrics := ∅; per_class_statistics := None |} (model evaluation) in
  match category, per_class_statistics evaluation with
  | Some (String c cs), Some classes =>
      match List.find (fun ce => String.eqb (String c cs) (class_name ce)) classes with
      | Some class_evaluation => class_metrics class_evaluation
      | None => metrics evaluation
      end
  | _, _ => metrics evaluation
  end.

(** ** Outcomes and the state of the run *)

(** What a call ends in: a value, [sys.exit(message)], an uncaught
    exception, or (for the loops, which take fuel) not yet a result. *)
Inductive outcome (A : Type) : Type :=
| Ok (a : A)
| Exit (message : string)
| Raise (exception : string)
| OutOfFuel.
Arguments Ok {A} a.
Arguments Exit {A} message.
Arguments Raise {A} exception.
Arguments OutOfFuel {A}.

(** The mutable state the module works on.  [env] is the outside world
    (the file system below the output directory and the remote service),
    which only [main_dispatcher] changes. *)
Record world (env : Type) : Type := World {
  (** the global [subcommand_list], in Python's order; popped from the end *)
  subcommand_list : list string;
  (** the lines of [subcommand_file], oldest first *)
  subcommand_log : list string;
  (** the argument lists [main_dispatcher] was called with, oldest first *)
  dispatched : list (list string);
  (** the evaluations read so far, with the path of their file *)
  evaluations_read : list (string * evaluation_json);
  outside : env
}.
Arguments World {env}.
Arguments subcommand_list {env}.
Arguments subcommand_log {env}.
Arguments dispatched {env}.
Arguments evaluations_read {env}.
Arguments outside {env}.

(** A computation over the state that may fail; the state reached is
    kept when it does. *)
Definition M (env A : Type) : Type := world env -> outcome A * world env.

Definition ret {env A} (a : A) : M env A := fun w => (Ok a, w).

Definition fail {env A} (o : outcome A) : M env A := fun w => (o, w).

Definition bind {env A B} (m : M env A) (k : A -> M env B) : M env B :=
  fun w =>
    match m w with
    | (Ok a, w') => k a w'
    | (Exit message, w') => (Exit message, w')
    | (Raise exception, w') => (Raise exception, w')
    | (OutOfFuel, w') => (OutOfFuel, w')
    end.

Notation "'let*' x := m 'in' k" := (bind m (fun x => k))
  (at level 10, x pattern, m at level 100, k at level 200).

(** [l.pop()]: the last element and the list without it; [None] stands
    for the [IndexError] of an empty list. *)
Fixpoint list_pop {A} (l : list A) : option (A * list A) :=
  match l with
  | [] => None
  | [x] => Some (x, [])
  | x :: rest =>
      match list_pop rest with
      | Some (y, rest') => Some (y, x :: rest')
      | None => None
      end
  end.

(** The options of the command line the engine reads or sets. *)
Record Args : Type := {
  output_dir : string;
  model_fields : string;
  objective_field : string;
  args_separator : string;
  optimize : string;
  optimize_category : option string;
  max_nodes : Z;
  min_nodes : option Z;
  nodes_step : option Z
}.

(** [args.output_dir = dir] *)
Definition with_output_dir (args : Args) (dir : string) : Args :=
  {| output_dir := dir;
     model_fields := model_fields args;
     objective_field := objective_field args;
     args_separator := args_separator args;
     optimize := optimize args;
     optimize_category := optimize_category args;
     max_nodes := max_nodes args;
     min_nodes := min_nodes args;
     nodes_step := nodes_step args |}.

(** [args.model_fields = fields] *)
Definition with_model_fields (args : Args) (fields : string) : Args :=
  {| output_dir := output_dir args;
     model_fields := fields;
     objective_field := objective_field args;
     args_separator := args_separator args;
     optimize := optimize args;
     optimize_category := optimize_category args;
     max_nodes := max_nodes args;
     min_nodes := min_nodes args;
     nodes_step := nodes_step args |}.


(** ** The collaborators

    What the module calls and does not define: the dispatcher, the
    file system, the constants and helpers of other modules of the
    package.  [env] is the outside world. *)

Class Collaborators (env : Type) : Type := {
  (** [bigmler.dispatcher.main_dispatcher(args=...)]: runs a BigMLer
      command, which trains, evaluates and writes its output files. *)
  main_dispatcher : list string -> env -> env;
  (** Opening the file at a path and parsing it with [json.loads];
      [None] when that raises [IOError] or [ValueError]. *)
  read_json : string -> env -> option evaluation_json;
  (** [bigmler.options.analyze.MINIMIZE_OPTIONS] *)
  MINIMIZE_OPTIONS : list string;
  (** [os.path.normpath(os.path.join(u.check_dir(datasets_file), "kfold"))] *)
  kfold_dir : string -> string;
  (** The output directory of the evaluation numbered [counter]
      ([create_kfold_evaluations], first statement). *)
  cv_output_dir : Args -> nat -> string;
  (** The argument list of the ["create_cv"] command
      ([create_kfold_evaluations], up to [command_args.extend]); it
      goes through [u.read_datasets] and [u.get_options_list]. *)
  cv_command_args : string -> Args -> nat -> list string;
  (** [os.path.normpath(os.path.join(args.output_dir, "node_th"))] *)
  node_th_dir : string -> string;
  (** The output directory of the evaluation for a node threshold
      ([create_node_th_evaluations], first statement). *)
  node_th_output_dir : Args -> Z -> string;
  (** The argument list of the ["node_threshold"] command
      ([create_node_th_evaluations], up to the ["--objective"] option). *)
  node_th_command_args : string -> Args -> Z -> list string;
  (** [os.path.normpath(os.path.join(output_dir, "evaluation.json"))] *)
  evaluation_path : string -> string;
  (** [fields.field_name(field_id)]; [None] when it raises [ValueError]. *)
  field_name : string -> option string
}.

(** ** The engine *)

Section Engine.

Context {env : Type} {collaborators : Collaborators env}.

Local Abbreviation M := (M env).
Local Abbreviation world := (world env).

(** *** Primitive steps *)

(** [u.sys_log_message(command, log_file=subcommand_file)] *)
Definition sys_log_message (command : string) : M unit :=
  fun w =>
    (Ok tt,
     World (subcommand_list w) (subcommand_log w ++ [command])
           (dispatched w) (evaluations_read w) (outside w)).

(** [main_dispatcher(args=command_args)] *)
Definition call_main_dispatcher (command_args : list string) : M unit :=
  fun w =>
    (Ok tt,
     World (subcommand_list w) (subcommand_log w)
           (dispatched w ++ [command_args]) (evaluations_read w)
           (main_dispatcher command_args (outside w))).

(** [subcommand_list.pop()] *)
Definition pop_subcommand : M string :=
  fun w =>
    match list_pop (subcommand_list w) with
    | Some (next_command, rest) =>
        (Ok next_command,
         World rest (subcommand_log w) (dispatched w) (evaluations_read w)
               (outside w))
    | None => (Raise "IndexError", w)
    end.

(** [not subcommand_list] *)
Definition subcommand_list_is_empty : M bool :=
  fun w =>
    (Ok match subcommand_list w with [] => true | _ => false end, w).


(** The [try] block that ends [create_kfold_evaluations] and
    [create_node_th_evaluations]. *)
Definition load_evaluation (evaluation_file : string) : M evaluation_json :=
  fun w =>
    match read_json evaluation_file (outside w) with
    | Some evaluation =>
        (Ok evaluation,
         World (subcommand_list w) (subcommand_log w) (dispatched w)
               (evaluations_read w ++ [(evaluation_file, evaluation)])
               (outside w))
    | None => (Exit "Failed to retrieve evaluation.", w)
    end.

(** *** The ledger around one command

    The [if resume: ... else: ...] statement that
    [create_kfold_evaluations] and [create_node_th_evaluations] both
    contain, word for word; the value is the new [resume]. *)
Definition issue_command
    (command : string) (command_args : list string) (resume : bool) : M bool :=
  if resume then
    let* next_command := pop_subcommand in
    if different_command next_command command then
      let resume := false in
      let* _ := sys_log_message command in
      let* _ := call_main_dispatcher command_args in
      ret resume
    else
      let* exhausted := subcommand_list_is_empty in
      if exhausted then
        let* _ := call_main_dispatcher ["main"; "--resume"] in
        ret false
      else ret resume
  else
    let* _ := sys_log_message command in
    let* _ := call_main_dispatcher command_args in
    ret resume.

(** [create_kfold_evaluations]: create k-fold cross-validation from a
    datasets file. *)
Definition create_kfold_evaluations
    (datasets_file : string) (args : Args) (resume : bool) (counter : nat)
  : M (evaluation_json * bool) :=
  let output_dir := cv_output_dir args counter in
  let command_args := cv_command_args datasets_file args counter in
  let command := rebuild_command command_args in
  let* resume := issue_command command command_args resume in
  let evaluation_file := evaluation_path output_dir in
  let* evaluation := load_evaluation evaluation_file in
  ret (evaluation, resume).

(** [create_node_th_evaluations]: create node_threshold evaluations. *)
Definition create_node_th_evaluations
    (datasets_file : string) (args : Args) (resume : bool) (node_threshold : Z)
  : M (evaluation_json * bool) :=
  let output_dir := node_th_output_dir args node_threshold in
  let command_args := node_th_command_args datasets_file args node_threshold in
  let command := rebuild_command command_args in
  let* resume := issue_command command command_args resume in
  let evaluation_file := evaluation_path output_dir in
  let* evaluation := load_evaluation evaluation_file in
  ret (evaluation, resume).

(** *** The scorer *)

(** The choice of the metric in [kfold_evaluate] and
    [node_threshold_evaluate]: the key to read and the name to report,
    or the [sys.exit] when neither key is in the evaluation. *)
Definition resolve_metric
    (evaluation : gmap string Q) (metric : string) : outcome (string * string) :=
  let avg_metric := AVG_PREFIX metric in
  let metric_literal := metric in
  match evaluation !! avg_metric with
  | Some _ => Ok (avg_metric, metric_literal)
  | None =>
      let avg_metric := AVG_PREFIX R_SQUARED in
      let metric_literal := R_SQUARED in
      match evaluation !! avg_metric with
      | Some _ => Ok (avg_metric, metric_literal)
      | None =>
          Exit ("Failed to find " ++ metric ++ " or r-squared in the evaluation")
      end
  end.

(** [evaluation[key]] *)
Definition getitem (evaluation : gmap string Q) (key : string) : outcome Q :=
  match evaluation !! key with
  | Some v => Ok v
  | None => Raise "KeyError"
  end.

(** [-1 if metric in MINIMIZE_OPTIONS else 1] *)
Definition invert_of (metric : string) : Q :=
  if existsb (String.eqb metric) MINIMIZE_OPTIONS then -1 else 1.

(** [kfold_evaluate]: scoring k-fold cross-validation using the given
    feature subset.  The value is
    [(score, metric_value, metric_literal, resume)]. *)
Definition kfold_evaluate
    (datasets_file : string) (args : Args) (counter : nat)
    (penalty : Q) (metric : string) (resume : bool)
  : M (Q * Q * string * bool) :=
  let args := with_output_dir args (kfold_dir datasets_file) in
  let* (evaluation, resume) :=
    create_kfold_evaluations datasets_file args resume counter in
  let evaluation := extract_evaluation_info evaluation (optimize_category args) in
  let* (avg_metric, metric_literal) := fail (resolve_metric evaluation metric) in
  let invert := invert_of metric in
  let* value := fail (getitem evaluation avg_metric) in
  match PyStr.split (args_separator args) (model_fields args) with
  | None => fail (Raise "ValueError")
  | Some pieces =>
      ret ((invert * (value - invert * penalty * inject_Z (Z.of_nat (length pieces))))%Q,
           value, metric_literal, resume)
  end.

(** [node_threshold_evaluate]: scoring node_threshold created models. *)
Definition node_threshold_evaluate
    (datasets_file : string) (args : Args) (node_threshold : Z)
    (penalty : Q) (metric : string) (resume : bool)
  : M (Q * Q * string * bool) :=
  let* (evaluation, resume) :=
    create_node_th_evaluations datasets_file args resume node_threshold in
  let evaluation := extract_evaluation_info evaluation (optimize_category args) in
  let* (avg_metric, metric_literal) := fail (resolve_metric evaluation metric) in
  let invert := invert_of metric in
  let* value := fail (getitem evaluation avg_metric) in
  ret ((invert * (value - invert * penalty * inject_Z node_threshold))%Q,
       value, metric_literal, resume).

(** *** Best-first search over the feature subsets *)

(** An element of [open_list] and [closed_list]:
    [(state, score, metric_value)]. *)
Definition scored_state : Type := list bool * num * num.

Definition state_of (s : scored_state) : list bool := fst (fst s).
Definition score_of (s : scored_state) : num := snd (fst s).
Definition metric_value_of (s : scored_state) : num := snd s.

(** [find_max_state(states_list)] *)
Definition find_max_state (states_list : list scored_state)
  : option (list bool) * num * num :=
  fold_left
    (fun acc elt =>
       let '(max_state, max_score, max_metric_value) := acc in
       let '(state, score, metric_value) := elt in
       if num_gtb score max_score
          || (match max_state with None => true | Some _ => false end
              && num_eqb max_score score)
       then (Some state, score, metric_value)
       else acc)
    states_list (None, NegInf, NegInf).

(** [expand_state(parent)]: get all connected states. *)
Definition expand_state (parent : list bool) : list (list bool) :=
  List.map (fun i => alter negb i parent) (seq 0 (length parent)).

(** [a == b] on the tuples of the lists. *)
Definition scored_state_eqb (a b : scored_state) : bool :=
  bool_decide (state_of a = state_of b)
  && num_eqb (score_of a) (score_of b)
  && num_eqb (metric_value_of a) (metric_value_of b).

(** [l.remove(x)]: [l] without its first element equal to [x]; [None]
    stands for the [ValueError] when there is none. *)
Fixpoint list_remove (x : scored_state) (l : list scored_state)
  : option (list scored_state) :=
  match l with
  | [] => None
  | y :: rest =>
      if scored_state_eqb y x then Some rest
      else match list_remove x rest with
           | Some rest' => Some (y :: rest')
           | None => None
           end
  end.

(** [child in [state for state, _, _ in states_list]] *)
Definition state_in (child : list bool) (states_list : list scored_state) : bool :=
  bool_decide (child ∈ List.map state_of states_list).

(** The names of the fields a state selects:
    [[fields.field_name(field_ids[i]) for (i, in_set) in enumerate(state)
      if in_set]].  A state is as long as [field_ids]. *)
Fixpoint selected_field_names
    (field_ids : list string) (state : list bool) : outcome (list string) :=
  match state, field_ids with
  | [], _ => Ok []
  | _ :: _, [] => Raise "IndexError"
  | in_set :: state', field_id :: field_ids' =>
      if in_set then
        match field_name field_id with
        | None => Exit "ValueError"
        | Some name =>
            match selected_field_names field_ids' state' with
            | Ok names => Ok (name :: names)
            | failure => failure
            end
        end
      else selected_field_names field_ids' state'
  end.

(** A row of [features_sets.csv]:
    [loop_counter, state, score, metric_value, best_score]. *)
Definition features_row : Type := nat * list bool * num * num * num.

(** The local variables of [best_first_search] that its loop changes. *)
Record search : Type := Search {
  open_list : list scored_state;
  closed_list : list scored_state;
  best_state : list bool;
  best_score : num;
  best_metric_value : num;
  best_unchanged_count : Z;
  metric : string;
  counter : nat;
  loop_counter : nat;
  features_rows : list features_row
}.

Section BestFirstSearch.

Variable datasets_file : string.
Variable args : Args.
Variable staleness : Z.
Variable penalty : Q.
Variable field_ids : list string.

(** The [for child in children] loop. *)
Fixpoint expand_children
    (children : list (list bool)) (st : search) (resume : bool)
  : M (search * bool) :=
  match children with
  | [] => ret (st, resume)
  | child :: children' =>
      if negb (state_in child (open_list st))
         && negb (state_in child (closed_list st))
      then
        let* input_fields := fail (selected_field_names field_ids child) in
        (* create models and evaluation with input_fields *)
        let args :=
          with_model_fields args (PyStr.join (args_separator args) input_fields) in
        let counter := S (counter st) in
        let* (score, metric_value, metric, resume) :=
          kfold_evaluate datasets_file args counter penalty (metric st) resume in
        expand_children children'
          (Search (open_list st ++ [(child, Fin score, Fin metric_value)])
                  (closed_list st) (best_state st) (best_score st)
                  (best_metric_value st) (best_unchanged_count st)
                  metric counter (loop_counter st) (features_rows st))
          resume
      else expand_children children' st resume
  end.

(** The test of the [while] loop. *)
Definition search_continues (st : search) : bool :=
  (best_unchanged_count st <? staleness)%Z
  && match open_list st with [] => false | _ => true end.

(** The statements of the [while] body up to the update of the best
    state: the best open state is closed and compared with the best
    state so far. *)
Definition close_best (st : search) : outcome (list bool * search) :=
  let loop_counter := S (loop_counter st) in
  let features_set := find_max_state (open_list st) in
  match features_set with
  | (None, _, _) => Raise "TypeError"
  | (Some state, score, metric_value) =>
      let rows : list features_row :=
        (features_rows st
         ++ [(loop_counter, state, score, metric_value, best_score st)])%list in
      match selected_field_names field_ids state with
      | Ok state_fields =>
          let features_set : scored_state := (state, score, metric_value) in
          let closed_list := (closed_list st ++ [features_set])%list in
          match list_remove features_set (open_list st) with
          | None => Raise "ValueError"
          | Some open_list =>
              if num_gtb (num_minus score EPSILON) (best_score st)
              then
                Ok (state,
                    Search open_list closed_list state score metric_value
                           0 (metric st) (counter st) loop_counter rows)
              else
                Ok (state,
                    Search open_list closed_list (best_state st)
                           (best_score st) (best_metric_value st)
                           (best_unchanged_count st + 1) (metric st)
                           (counter st) loop_counter rows)
          end
      | Exit message => Exit message
      | Raise exception => Raise exception
      | OutOfFuel => OutOfFuel
      end
  end.

(** One turn of the [while] loop. *)
Definition search_step (st : search) (resume : bool) : M (search * bool) :=
  let* (state, st) := fail (close_best st) in
  let children := expand_state state in
  expand_children children st resume.

(** The [while] loop; [fuel] bounds the number of turns. *)
Fixpoint search_loop (fuel : nat) (st : search) (resume : bool)
  : M (search * bool) :=
  if search_continues st then
    match fuel with
    | O => fail OutOfFuel
    | S fuel' =>
        let* (st, resume) := search_step st resume in
        search_loop fuel' st resume
    end
  else ret (st, resume).

(** The state before the loop. *)
Definition initial_search : search :=
  let initial_state := List.map (fun _ => false) field_ids in
  Search [(initial_state, NegInf, NegInf)] [] initial_state NegInf NegInf
         0 (optimize args) 0 0 [].

End BestFirstSearch.

(** What [best_first_search] reports when it ends: the best feature
    subset, the metric and its value, and the number of subsets
    evaluated out of how many. *)
Record features_report : Type := {
  best_features : list string;
  reported_metric : string;
  reported_value : num;
  evaluated_subsets : Z;
  all_subsets : Z
}.

(** [best_first_search], from the initial feature set on: selecting
    the fields to be used in the model construction. *)
Definition best_first_search
    (fuel : nat) (datasets_file : string) (args : Args)
    (staleness : option Z) (penalty : option Q) (field_ids : list string)
    (resume : bool) : M (features_report * bool) :=
  let staleness := default DEFAULT_STALENESS staleness in
  let penalty := default DEFAULT_PENALTY penalty in
  let* (st, resume) :=
    search_loop datasets_file args staleness penalty field_ids fuel
                (initial_search args field_ids) resume in
  let* best_features := fail (selected_field_names field_ids (best_state st)) in
  ret ({| best_features := best_features;
          reported_metric := metric st;
          reported_value := best_metric_value st;
          evaluated_subsets :=
            Z.of_nat (length (open_list st)) + Z.of_nat (length (closed_list st)) - 1;
          all_subsets := 2 ^ Z.of_nat (length field_ids) - 1 |},
       resume).

(** *** The sweep over the node thresholds *)

(** A row of [nodes_sets.csv]:
    [loop_counter, node_threshold, score, metric_value, best_score]. *)
Definition nodes_row : Type := nat * Z * Q * Q * num.

(** The local variables of [best_node_threshold] that its loop changes.
    [best_threshold] is [None] as long as the variable is unbound. *)
Record sweep : Type := Sweep {
  node_threshold : Z;
  best_threshold : option Z;
  sweep_best_score : num;
  sweep_unchanged_count : Z;
  sweep_metric : string;
  sweep_loop_counter : nat;
  nodes_rows : list nodes_row
}.

Section NodeThreshold.

Variable datasets_file : string.
Variable args : Args.
Variable staleness : Z.
Variable penalty : Q.
(** [max_nodes = args.max_nodes + 1] *)
Variable max_nodes_bound : Z.
(** [args.nodes_step], once defaulted *)
Variable step : Z.

(** The test of the [while] loop. *)
Definition sweep_continues (st : sweep) : bool :=
  (sweep_unchanged_count st <? staleness)%Z
  && (node_threshold st <? max_nodes_bound)%Z.

(** One turn of the [while] loop. *)
Definition sweep_step (st : sweep) (resume : bool) : M (sweep * bool) :=
  let loop_counter := S (sweep_loop_counter st) in
  let* (score, metric_value, metric, resume) :=
    node_threshold_evaluate datasets_file args (node_threshold st)
                            penalty (sweep_metric st) resume in
  let rows : list nodes_row :=
    (nodes_rows st
     ++ [(loop_counter, node_threshold st, score, metric_value,
          sweep_best_score st)])%list in
  if num_gtb (num_minus (Fin score) EPSILON) (sweep_best_score st)
  then
    ret (Sweep (node_threshold st + step) (Some (node_threshold st))
               (Fin score) 0 metric loop_counter rows,
         resume)
  else
    ret (Sweep (node_threshold st + step) (best_threshold st)
               (sweep_best_score st) (sweep_unchanged_count st + 1)
               metric loop_counter rows,
         resume).

(** The [while] loop; [fuel] bounds the number of turns. *)
Fixpoint sweep_loop (fuel : nat) (st : sweep) (resume : bool)
  : M (sweep * bool) :=
  if sweep_continues st then
    match fuel with
    | O => fail OutOfFuel
    | S fuel' =>
        let* (st, resume) := sweep_step st resume in
        sweep_loop fuel' st resume
    end
  else ret (st, resume).

End NodeThreshold.

(** What [best_node_threshold] reports when it ends: the best node
    threshold, then the name of the metric with a value. *)
Record nodes_report : Type := {
  reported_threshold : Z;
  nodes_reported_metric : string;
  nodes_reported_value : num
}.

(** [best_node_threshold]: selecting the node_limit to be used in the
    model construction. *)
Definition best_node_threshold
    (fuel : nat) (datasets_file : string) (args : Args)
    (staleness : option Z) (penalty : option Q) (resume : bool)
  : M (nodes_report * bool) :=
  let min_nodes := default DEFAULT_MIN_NODES (min_nodes args) in
  let nodes_step := default DEFAULT_NODES_STEP (nodes_step args) in
  let args :=
    {| output_dir := node_th_dir (output_dir args);
       model_fields := model_fields args;
       objective_field := objective_field args;
       args_separator := args_separator args;
       optimize := optimize args;
       optimize_category := optimize_category args;
       max_nodes := max_nodes args;
       min_nodes := Some min_nodes;
       nodes_step := Some nodes_step |} in
  let max_nodes := (max_nodes args + 1)%Z in
  let node_threshold := min_nodes in
  let staleness := default DEFAULT_STALENESS staleness in
  let penalty := default DEFAULT_NODES_PENALTY penalty in
  let best_score := NegInf in
  let* (st, resume) :=
    sweep_loop datasets_file args staleness penalty max_nodes nodes_step fuel
               (Sweep node_threshold None best_score 0 (optimize args) 0 [])
               resume in
  match best_threshold st with
  | None => fail (Raise "UnboundLocalError")
  | Some best_threshold =>
      ret ({| reported_threshold := best_threshold;
              nodes_reported_metric := sweep_metric st;
              nodes_reported_value := sweep_best_score st |},
           resume)
  end.

End Engine.

(** ** Running again on the ledger of a run *)

Section Replay.

Context {env : Type} {collaborators : Collaborators env}.

(** The command of the branch [elif not subcommand_list]. *)
Definition catch_up : list string := ["main"; "--resume"].

(** The evaluations [reads] are what their files hold in the outside
    world [e], and still after [main --resume] has run in it. *)
Definition still_there
    (reads : list (string * evaluation_json)) (e : env) : Prop :=
  Forall
    (fun read =>
       read_json (fst read) e = Some (snd read)
       /\ read_json (fst read) (main_dispatcher catch_up e) = Some (snd read))
    reads.

(** The value of [resume] once the entries before [later] have been
    popped from the ledger. *)
Definition resume_after (later : list string) : bool :=
  match later with
  | [] => false
  | _ => true
  end.

(** The state [wr'] reached from [wr] by popping the entries before
    [later]: nothing is logged, and nothing is run but [main --resume]
    when the ledger gets empty. *)
Definition replayed (later : list string) (wr wr' : world env) : Prop :=
  subcommand_list wr' = rev later
  /\ subcommand_log wr' = subcommand_log wr
  /\ match later with
     | [] =>
         dispatched wr' = (dispatched wr ++ [catch_up])%list
         /\ outside wr' = main_dispatcher catch_up (outside wr)
     | _ => dispatched wr' = dispatched wr /\ outside wr' = outside wr
     end.

(** A function of [resume] can be run again on its own ledger: when,
    not resuming, it returns [a] after logging the commands [new] and
    reading the evaluations [reads], then
    - if it has logged nothing, it returns [a] in every state, without
      changing the state nor [resume];
    - otherwise, resuming on a ledger whose next entries are [new],
      followed by [later], with the evaluations still there, it returns
      [a] again. *)
Definition replays {A} (f : bool -> M env (A * bool)) : Prop :=
  forall w a b w',
    f false w = (Ok (a, b), w') ->
    b = false
    /\ exists new reads,
        subcommand_log w' = (subcommand_log w ++ new)%list
        /\ evaluations_read w' = (evaluations_read w ++ reads)%list
        /\ (new = [] ->
            reads = [] /\ forall b0 w0, f b0 w0 = (Ok (a, b0), w0))
        /\ (new <> [] ->
            forall later wr,
              subcommand_list wr = (rev later ++ rev new)%list ->
              still_there reads (outside wr) ->
              exists wr',
                f true wr = (Ok (a, resume_after later), wr')
                /\ replayed later wr wr').

(** [f], then [g] on its value, with [resume] passed along. *)
Definition thread {A B}
    (f : bool -> M env (A * bool)) (g : A -> bool -> M env (B * bool))
  : bool -> M env (B * bool) :=
  fun resume => let* (a, resume) := f resume in g a resume.

(** Replaying the ledger of a completed run, as the specification has
    it: when a run that does not resume returns [report] after logging
    [new] and reading [reads], and these evaluations are still there,
    then the run that resumes on the ledger [new] returns [report]
    too, logs no command, and runs no command other than, possibly,
    [main --resume]. *)
Definition replay_reproduces {A} (f : bool -> M env (A * bool)) : Prop :=
  forall w report b w1 new reads,
    f false w = (Ok (report, b), w1) ->
    subcommand_log w1 = (subcommand_log w ++ new)%list ->
    evaluations_read w1 = (evaluations_read w ++ reads)%list ->
    still_there reads (outside w1) ->
    forall wr,
      subcommand_list wr = rev new ->
      outside wr = outside w1 ->
      exists b' wr',
        f true wr = (Ok (report, b'), wr')
        /\ subcommand_log wr' = subcommand_log wr
        /\ (dispatched wr' = dispatched wr
            \/ dispatched wr' = (dispatched wr ++ [catch_up])%list).

End Replay.

(** ** What the specification says, for comparison *)

(** "score exceeds the previous best by more than EPSILON" *)
Definition exceeds_by (score best : num) (margin : Q) : Prop :=
  match score, best with
  | NegInf, _ => False
  | Fin _, NegInf => True
  | Fin s, Fin b => (b + margin < s)%Q
  end.

(** [score = invert * (rawMetricValue - invert * penalty * complexity)] *)
Definition score_formula (invert raw_metric_value penalty complexity : Q) : Q :=
  (invert * (raw_metric_value - invert * penalty * complexity))%Q.


(** The metric resolution of the scorer, on the keys of an evaluation:
    the averaged requested metric when it is there; otherwise the
    averaged R-squared, reported as [r_squared]; a fatal exit exactly
    when neither is there.  [o] is what the scorer ends in. *)
Definition resolves_metric
    (info : gmap string Q) (metric : string)
    (o : outcome (Q * Q * string * bool)) : Prop :=
  (forall v, info !! AVG_PREFIX metric = Some v ->
             exists score resume, o = Ok (score, v, metric, resume))
  /\ (forall v, info !! AVG_PREFIX metric = None ->
                info !! AVG_PREFIX R_SQUARED = Some v ->
                exists score resume, o = Ok (score, v, R_SQUARED, resume))
  /\ ((exists message, o = Exit message) <->
      info !! AVG_PREFIX metric = None /\ info !! AVG_PREFIX R_SQUARED = None).

(** The node threshold of a row of [nodes_sets.csv]. *)
Definition row_threshold (row : nodes_row) : Z :=
  let '(_, node_threshold, _, _, _) := row in node_threshold.

(** The invariant on the open and closed lists: no state twice. *)
Definition no_duplicate_states (st : search) : Prop :=
  NoDup (List.map state_of (open_list st ++ closed_list st)).

(** ** A small instance

    An outside world made of the evaluation files only, and a dispatcher
    that looks the quality of a configuration up in a table.  A command
    is [main <output directory> <configuration>]; running it writes, in
    its output directory, the evaluation of its configuration, whose only
    metric is [metric_key]. *)

Module Sample.

Definition files : Type := gmap string evaluation_json.

Definition evaluation_with (key : string) (value : Q) : evaluation_json :=
  {| model := Some {| metrics := {[ key := value ]};
                      per_class_statistics := None |} |}.

Fixpoint assoc (key : string) (table : list (string * Q)) : option Q :=
  match table with
  | [] => None
  | (k, v) :: rest => if String.eqb key k then Some v else assoc key rest
  end.

Definition dispatcher
    (metric_key : string) (table : list (string * Q))
    (command_args : list string) (fs : files) : files :=
  match command_args with
  | [_; dir; configuration] =>
      match assoc configuration table with
      | Some value => <[ dir := evaluation_with metric_key value ]> fs
      | None => fs
      end
  | _ => fs
  end.

Definition decimal (n : Z) : string :=
  NilEmpty.string_of_int (Z.to_int n).

Definition collaborators
    (metric_key : string) (table : list (string * Q)) (minimize : list string)
  : Collaborators files :=
  {| main_dispatcher := dispatcher metric_key table;
     read_json := fun path fs => fs !! path;
     MINIMIZE_OPTIONS := minimize;
     kfold_dir := fun datasets_file => "kfold";
     cv_output_dir := fun args counter =>
       output_dir args ++ decimal (Z.of_nat counter);
     cv_command_args := fun datasets_file args counter =>
       ["main"; output_dir args ++ decimal (Z.of_nat counter); model_fields args];
     node_th_dir := fun dir => "node_th";
     node_th_output_dir := fun args node_threshold =>
       output_dir args ++ decimal node_threshold;
     node_th_command_args := fun datasets_file args node_threshold =>
       ["main"; output_dir args ++ decimal node_threshold; decimal node_threshold];
     evaluation_path := fun dir => dir;
     field_name := fun field_id => Some field_id |}.

Definition args (metric : string) (max_nodes : Z) (min_nodes nodes_step : option Z)
  : Args :=
  {| output_dir := "out";
     model_fields := "";
     objective_field := "y";
     args_separator := ",";
     optimize := metric;
     optimize_category := None;
     max_nodes := max_nodes;
     min_nodes := min_nodes;
     nodes_step := nodes_step |}.

(** The state when the process starts: nothing logged, nothing read. *)
Definition start (fs : files) : world files := World [] [] [] [] fs.

(** The state when the process starts again on the log of a run that
    ended in [w], once [retrieve_subcommands] has read the log. *)
Definition restart (w : world files) : world files :=
  World (rev (subcommand_log w)) (subcommand_log w) [] [] (outside w).

End Sample.

(** ** Properties of every function of [resume] of the engine *)

Section Steps.

Context {env : Type} {collaborators : Collaborators env}.

(** A property [P] of the functions of [resume] that holds of the
    ledger block followed by the reading of the evaluation, of the
    functions that return or fail without touching the state, and of a
    function followed by another. *)
Record kept_by_the_steps
    (P : forall A : Type, (bool -> M env (A * bool)) -> Prop) : Prop := {
  step_ext : forall A (f f' : bool -> M env (A * bool)),
    (forall b w, f b w = f' b w) -> P A f -> P A f';
  step_ret : forall A (a : A), P A (fun resume => ret (a, resume));
  step_fail : forall A (o : outcome (A * bool)),
    (forall x, o <> Ok x) -> P A (fun _ => fail o);
  step_thread : forall A B (f : bool -> M env (A * bool))
                       (g : A -> bool -> M env (B * bool)),
    P A f -> (forall a, P B (g a)) -> P B (thread f g);
  step_issue : forall command_args evaluation_file,
    P evaluation_json
      (fun resume =>
         let* resume :=
           issue_command (rebuild_command command_args) command_args resume in
         let* evaluation := load_evaluation evaluation_file in
         ret (evaluation, resume))
}.

(** Not resuming, [f] logs the commands it runs, in the order it runs
    them, reads one evaluation for each, leaves the list of the
    commands to resume on alone, and returns [resume] as [False]. *)
Definition logs_what_it_runs (A : Type) (f : bool -> M env (A * bool)) : Prop :=
  forall w a b w',
    f false w = (Ok (a, b), w') ->
    b = false
    /\ subcommand_list w' = subcommand_list w
    /\ exists commands reads,
        subcommand_log w'
        = (subcommand_log w ++ List.map rebuild_command commands)%list
        /\ dispatched w' = (dispatched w ++ commands)%list
        /\ evaluations_read w' = (evaluations_read w ++ reads)%list
        /\ length reads = length commands.

End Steps.

(** ** What the searches keep, for comparison *)

(** The score of a row of [nodes_sets.csv]. *)
Definition row_score (row : nodes_row) : Q :=
  let '(_, _, score, _, _) := row in score.

(** The number of a row of [nodes_sets.csv]. *)
Definition row_number (row : nodes_row) : nat :=
  let '(loop_counter, _, _, _, _) := row in loop_counter.

(** What the sweep keeps, from the threshold [first] on: the rows are
    numbered from 1 and are those of the thresholds [first],
    [first + step], ... below [bound], the next threshold follows; no
    row has a score that exceeds the best score by more than EPSILON;
    and the best threshold, once bound, is that of a row whose score is
    the best score. *)
Definition sweep_invariant (first step bound : Z) (st : sweep) : Prop :=
  let rows := nodes_rows st in
  node_threshold st = (first + Z.of_nat (length rows) * step)%Z
  /\ sweep_loop_counter st = length rows
  /\ List.map row_threshold rows
     = List.map (fun i => (first + Z.of_nat i * step)%Z) (seq 0 (length rows))
  /\ List.map row_number rows = seq 1 (length rows)
  /\ Forall (fun row => (row_threshold row < bound)%Z) rows
  /\ Forall (fun row =>
               ~ exceeds_by (Fin (row_score row)) (sweep_best_score st) EPSILON)
            rows
  /\ match best_threshold st with
     | None => rows = [] /\ sweep_best_score st = NegInf
     | Some threshold =>
         exists row,
           row ∈ rows
           /\ row_threshold row = threshold
           /\ sweep_best_score st = Fin (row_score row)
     end.

(** All the states over [n] fields. *)
Fixpoint all_states (n : nat) : list (list bool) :=
  match n with
  | O => [[]]
  | S n' =>
      (List.map (cons true) (all_states n')
       ++ List.map (cons false) (all_states n'))%list
  end.

(** What the best-first search keeps, over [n] fields: the states of
    the two lists are over [n] fields; no closed state has a score that
    exceeds the best score by more than EPSILON; and the best state,
    with its score and metric value, is a closed state, or the only
    open state as long as none has been closed. *)
Definition search_invariant (n : nat) (st : search) : Prop :=
  Forall (fun x => length (state_of x) = n) (open_list st ++ closed_list st)
  /\ Forall (fun x => ~ exceeds_by (score_of x) (best_score st) EPSILON)
            (closed_list st)
  /\ ((best_state st, best_score st, best_metric_value st) ∈ closed_list st
      \/ (closed_list st = []
          /\ open_list st
             = [(best_state st, best_score st, best_metric_value st)])).

(** The counters of the best-first search: one evaluation for each
    state of the two lists but the initial one, one turn and one row of
    [features_sets.csv] for each closed state. *)
Definition search_counts (st : search) : Prop :=
  S (counter st) = length (open_list st ++ closed_list st)
  /\ loop_counter st = length (closed_list st)
  /\ length (features_rows st) = length (closed_list st).

(** ** Preparing the datasets

    What [create_kfold_datasets_file] calls before the search starts:
    the name of the k-fold field, the files that select the folds, and
    the commands that create the datasets. *)

(** The names of the fields of a fields structure, which maps the field
    ids to the fields ([fields.fields], read through [field['name']]). *)
Definition field_names (fields : gmap string string) : list string :=
  List.map snd (map_to_list fields).

(** [avoid_duplicates]: checks if a field name already exists in a
    fields structure.  [depth] bounds the depth of the recursion. *)
Fixpoint avoid_duplicates
    (depth : nat) (field_name : string) (fields : gmap string string)
    (affix : string) : outcome string :=
  match depth with
  | O => OutOfFuel
  | S depth =>
      if existsb (fun name => String.eqb name field_name) (field_names fields)
      then avoid_duplicates depth (affix ++ field_name ++ affix)%string fields affix
      else Ok field_name
  end.

(** [field_name] between [k] affixes on each side. *)
Fixpoint wrapped (affix : string) (k : nat) (field_name : string) : string :=
  match k with
  | O => field_name
  | S k => wrapped affix k (affix ++ field_name ++ affix)%string
  end.

(** The options of the command line that configure models or
    ensembles.  An option that is not given is falsy: [false], the
    empty string or zero. *)
Record ModelArgs : Type := {
  balance : bool;
  missing_splits : bool;
  pruning : string;
  weight_field : string;
  objective_weights : string;
  tlp : Z;
  model_attributes : string;
  number_of_models : Z;
  sample_rate : Q;
  replacement : bool;
  randomize : bool;
  ensemble_attributes : string
}.

(** The truth value of a string: it is not empty. *)
Definition truthy (s : string) : bool :=
  match s with
  | EmptyString => false
  | String _ _ => true
  end.

(** [str(n)] for an integer. *)
Definition str_int (n : Z) : string := NilEmpty.string_of_int (Z.to_int n).

(** [add_model_options]: adds the command options used to configure
    models or ensembles.  [str_float] is [str] on the floats. *)
Definition add_model_options
    (str_float : Q -> string) (command_args : list string) (args : ModelArgs)
  : list string :=
  let command_args :=
    if balance args then (command_args ++ ["--balance"])%list else command_args in
  let command_args :=
    if missing_splits args then (command_args ++ ["--missing-splits"])%list
    else command_args in
  let command_args :=
    if truthy (pruning args)
    then ((command_args ++ ["--pruning"]) ++ [pruning args])%list
    else command_args in
  let command_args :=
    if truthy (weight_field args)
    then ((command_args ++ ["--weight-field"]) ++ [weight_field args])%list
    else command_args in
  let command_args :=
    if truthy (objective_weights args)
    then ((command_args ++ ["--objective-weights"]) ++ [objective_weights args])%list
    else command_args in
  let command_args :=
    if negb (tlp args =? 0)%Z
    then ((command_args ++ ["--tlp"]) ++ [str_int (tlp args)])%list
    else command_args in
  let command_args :=
    if truthy (model_attributes args)
    then ((command_args ++ ["--model-attributes"]) ++ [model_attributes args])%list
    else command_args in
  if (1 <? number_of_models args)%Z then
    let command_args :=
      ((command_args ++ ["--number-of-models"])
         ++ [str_int (number_of_models args)])%list in
    let command_args :=
      if Qgtb 1 (sample_rate args)
      then ((command_args ++ ["--sample-rate"])
              ++ [str_float (sample_rate args)])%list
      else command_args in
    let command_args :=
      if replacement args then (command_args ++ ["--replacement"])%list
      else command_args in
    let command_args :=
      if randomize args then (command_args ++ ["--randomize"])%list
      else command_args in
    let command_args :=
      if truthy (ensemble_attributes args)
      then ((command_args ++ ["--ensemble-attributes"])
              ++ [ensemble_attributes args])%list
      else command_args in
    command_args
  else command_args.

(** [DEFAULT_KFOLDS] *)
Definition DEFAULT_KFOLDS : Z := 5.

(** The file system as [create_kfold_json] uses it, and the two
    templates it fills in.  [fs] is the state of the file system. *)
Class FileSystem (fs : Type) : Type := {
  (** [os.path.isfile(path)] *)
  isfile : string -> fs -> bool;
  (** [with open(path, "w") as file: file.write(text)]: whether it has
      succeeded ([false] stands for [IOError]), and the state it leaves. *)
  write_file : string -> string -> fs -> bool * fs;
  (** [os.path.normpath(os.path.join(output_dir, TEST_DATASET % index))] *)
  selecting_path : string -> nat -> string;
  (** [NEW_FIELD % (index, k, kfold_field, index, objective_field)] *)
  new_field : nat -> Z -> string -> string -> string
}.

Section SelectingFiles.

Context {fs : Type} {file_system : FileSystem fs}.

(** [args.k_folds if args.k_folds else DEFAULT_KFOLDS] *)
Definition folds_of (k_folds : option Z) : Z :=
  match k_folds with
  | Some k => if (k =? 0)%Z then DEFAULT_KFOLDS else k
  | None => DEFAULT_KFOLDS
  end.

(** The loop of [create_kfold_json], over the indexes that are left. *)
Fixpoint create_kfold_json_loop
    (output_dir : string) (k : Z) (kfold_field objective_field : string)
    (indexes : list nat) (selecting_file_list : list string) (resume : bool)
    (disk : fs) : outcome (list string * bool) * fs :=
  match indexes with
  | [] => (Ok (selecting_file_list, resume), disk)
  | index :: indexes =>
      let new_field := new_field index k kfold_field objective_field in
      let selecting_file := selecting_path output_dir index in
      let selecting_file_list :=
        (selecting_file_list ++ [selecting_file])%list in
      if negb resume || negb (isfile selecting_file disk) then
        let resume := false in
        match write_file selecting_file new_field disk with
        | (true, disk) =>
            create_kfold_json_loop output_dir k kfold_field objective_field
              indexes selecting_file_list resume disk
        | (false, disk) =>
            (Exit "Could not create the necessary files.", disk)
        end
      else
        create_kfold_json_loop output_dir k kfold_field objective_field
          indexes selecting_file_list resume disk
  end.

(** [create_kfold_json]: create the files to generate a new field with
    a random integer from 0 to k-1, and a filter file for each of these
    indexes.  [k_folds] is [args.k_folds]. *)
Definition create_kfold_json
    (args : Args) (k_folds : option Z) (kfold_field objective_field : string)
    (resume : bool) (disk : fs) : outcome (list string * bool) * fs :=
  let output_dir := output_dir args in
  let k := folds_of k_folds in
  create_kfold_json_loop output_dir k kfold_field objective_field
    (seq 0 (Z.to_nat k)) [] resume disk.

(** The selecting files of [k] folds, with what is written in them. *)
Definition selecting_files
    (output_dir : string) (k : Z) (kfold_field objective_field : string)
  : list (string * string) :=
  List.map
    (fun index =>
       (selecting_path output_dir index,
        new_field index k kfold_field objective_field))
    (seq 0 (Z.to_nat k)).

(** Writing files one after the other, up to the first failure. *)
Fixpoint written_in_order (files : list (string * string)) (disk : fs)
  : bool * fs :=
  match files with
  | [] => (true, disk)
  | (path, text) :: files =>
      match write_file path text disk with
      | (true, disk) => written_in_order files disk
      | (false, disk) => (false, disk)
      end
  end.

End SelectingFiles.

(** What [create_kfold_datasets] calls and does not define. *)
Class DatasetCollaborators : Type := {
  (** [os.path.normpath(os.path.join(args.output_dir, "test"))] *)
  test_dir : string -> string;
  (** The argument list of the ["selection"] command for a dataset and
      a selecting file ([create_kfold_datasets], up to
      [command_args.extend]); it goes through [u.get_options_list]. *)
  selection_command_args : string -> string -> Args -> list string;
  (** [os.path.normpath(os.path.join(output_dir, "dataset_gen"))] *)
  dataset_gen : string -> string
}.

Section Datasets.

Context {env : Type} {collaborators : Collaborators env}
        {dataset_collaborators : DatasetCollaborators}.

(** The loop of [create_kfold_datasets], over the selecting files that
    are left: the ledger around the command of each. *)
Fixpoint create_selecting_datasets
    (dataset : string) (args : Args) (selecting_file_list : list string)
    (resume : bool) : M env (unit * bool) :=
  match selecting_file_list with
  | [] => ret (tt, resume)
  | selecting_file :: selecting_file_list =>
      let command_args := selection_command_args dataset selecting_file args in
      let command := rebuild_command command_args in
      let* resume := issue_command command command_args resume in
      create_selecting_datasets dataset args selecting_file_list resume
  end.

(** [create_kfold_datasets]: calling the bigmler procedure to create
    the k-fold datasets.  The value is the datasets file, [args] with
    the output directory the function has set in it, and [resume]. *)
Definition create_kfold_datasets
    (dataset : string) (args : Args) (selecting_file_list : list string)
    (resume : bool) : M env (string * Args * bool) :=
  let args := with_output_dir args (test_dir (output_dir args)) in
  let output_dir := output_dir args in
  let* (_, resume) :=
    create_selecting_datasets dataset args selecting_file_list resume in
  let datasets_file := dataset_gen output_dir in
  ret (datasets_file, args, resume).

(** The commands of [create_kfold_datasets], in order. *)
Definition selection_commands
    (dataset : string) (args : Args) (selecting_file_list : list string)
  : list (list string) :=
  List.map
    (fun selecting_file =>
       selection_command_args dataset selecting_file
         (with_output_dir args (test_dir (output_dir args))))
    selecting_file_list.

(** The outside world once the commands have run, in order. *)
Definition run_in_order (commands : list (list string)) (e : env) : env :=
  fold_left (fun e command_args => main_dispatcher command_args e) commands e.

End Datasets.

(** [args.objective_field = objective_name] *)
Definition with_objective_field (args : Args) (objective_name : string) : Args :=
  {| output_dir := output_dir args;
     model_fields := model_fields args;
     objective_field := objective_name;
     args_separator := args_separator args;
     optimize := optimize args;
     optimize_category := optimize_category args;
     max_nodes := max_nodes args;
     min_nodes := min_nodes args;
     nodes_step := nodes_step args |}.

(** ** A small instance of the preparation

    A file system that maps the paths to the texts of the files, where
    every write succeeds, and selection commands of three words. *)

Module SamplePreparation.

Definition disk : Type := gmap string string.

Definition file_system : FileSystem disk :=
  {| isfile := fun path d => bool_decide (is_Some (d !! path));
     write_file := fun path text d => (true, <[ path := text ]> d);
     selecting_path := fun dir index =>
       (dir ++ "/test" ++ Sample.decimal (Z.of_nat index))%string;
     new_field := fun index k kfold_field objective_field =>
       (kfold_field ++ Sample.decimal (Z.of_nat index))%string |}.

Definition dataset_collaborators : DatasetCollaborators :=
  {| test_dir := fun dir => (dir ++ "/test")%string;
     selection_command_args := fun dataset file args =>
       ["main"; output_dir args; file];
     dataset_gen := fun dir => (dir ++ "/dataset_gen")%string |}.

End SamplePreparation.

(** ** What a run never does *)

Section Appends.

Context {env : Type} {collaborators : Collaborators env}.

(** Whatever it ends in, and resuming or not, [f] only adds to the
    ledger file, to the commands run and to the evaluations read, and
    only pops from the commands to resume on; the commands it logs are
    commands it runs, in the same order; and the outside world is the
    one the commands it runs have left. *)
Definition only_appends (A : Type) (f : bool -> M env (A * bool)) : Prop :=
  forall resume w,
    let w' := snd (f resume w) in
    exists commands logged reads popped,
      dispatched w' = (dispatched w ++ commands)%list
      /\ subcommand_log w'
         = (subcommand_log w ++ List.map rebuild_command logged)%list
      /\ sublist logged commands
      /\ evaluations_read w' = (evaluations_read w ++ reads)%list
      /\ subcommand_list w = (subcommand_list w' ++ popped)%list
      /\ outside w' = run_in_order commands (outside w).

End Appends.

(** * Properties *)

Open Scope list_scope.

(** ** Comparing commands *)

Section CommandComparison.

Lemma strip_prefix_head a p c r rest :
  PyStr.strip_prefix (String a p) (String c r) = Some rest -> a = c.
Proof.
  simpl. destruct (Ascii.eqb_spec a c); [trivial|discriminate].
Qed.

Lemma name_pattern_matches_nonspace c r :
  name_pattern_matches (String c r) = true -> PyStr.is_space c = false.
Proof.
  unfold name_pattern_matches.
  destruct (PyStr.strip_prefix _ _) as [rest|] eqn:H; [|discriminate].
  apply strip_prefix_head in H. subst c. reflexivity.
Qed.

(** Within a match, the scan deletes up to the next white space. *)
Lemma sub_name_pattern_inside s :
  sub_name_pattern true s = re_sub_name (PyStr.drop_nonspace s).
Proof.
  unfold re_sub_name.
  induction s as [|c r IH]; [reflexivity|].
  cbn [sub_name_pattern PyStr.drop_nonspace].
  destruct (PyStr.is_space c) eqn:Hc; [|exact IH].
  cbn [sub_name_pattern].
  destruct (name_pattern_matches (String c r)) eqn:Hm; [|reflexivity].
  apply name_pattern_matches_nonspace in Hm. congruence.
Qed.

(** The equations of [re.sub(pattern, "", s)]: where the pattern
    matches, the match (which ends at the next white space) is dropped;
    elsewhere the character is kept. *)
Lemma re_sub_name_unfold c r :
  re_sub_name (String c r) =
  if name_pattern_matches (String c r)
  then re_sub_name (PyStr.drop_nonspace (String c r))
  else String c (re_sub_name r).
Proof.
  unfold re_sub_name at 1. cbn [sub_name_pattern].
  destruct (name_pattern_matches (String c r)) eqn:Hm; [|reflexivity].
  rewrite sub_name_pattern_inside. cbn [PyStr.drop_nonspace].
  now rewrite (name_pattern_matches_nonspace _ _ Hm).
Qed.

(** When [different_command] answers [True]. *)
Lemma different_command_true next_command command :
  different_command next_command command = true <->
  next_command <> command
  /\ PyStr.contains "name=BigMLer_" command = true
  /\ re_sub_name next_command = re_sub_name command.
Proof.
  unfold different_command.
  destruct (String.eqb_spec next_command command) as [->|Hne].
  - split; [discriminate|]. intros [H _]. contradiction.
  - destruct (PyStr.contains "name=BigMLer_" command).
    + rewrite String.eqb_eq. tauto.
    + split; [discriminate|]. intros (_ & H & _). discriminate.
Qed.

Lemma different_command_same command :
  different_command command command = false.
Proof. unfold different_command. now rewrite String.eqb_refl. Qed.

(** C2 (the code departs from the claim): two commands that differ in
    the node threshold, and have no generated name at all, are not
    classified as different: [different_command] answers [False]. *)
Theorem different_command_misses_plain_difference :
  rebuild_command ["main"; "--node-threshold"; "3"]
    <> rebuild_command ["main"; "--node-threshold"; "103"]
  /\ re_sub_name (rebuild_command ["main"; "--node-threshold"; "3"])
       <> re_sub_name (rebuild_command ["main"; "--node-threshold"; "103"])
  /\ different_command
       (rebuild_command ["main"; "--node-threshold"; "3"])
       (rebuild_command ["main"; "--node-threshold"; "103"]) = false.
Proof. repeat split; vm_compute; congruence. Qed.

End CommandComparison.

(** ** The state monad *)

Section MonadLaws.

Context {env : Type}.

Lemma bind_ok_inv {A B} (m : M env A) (k : A -> M env B) w b w' :
  bind m k w = (Ok b, w') ->
  exists a w1, m w = (Ok a, w1) /\ k a w1 = (Ok b, w').
Proof.
  unfold bind. destruct (m w) as [[a| | |] w1]; try discriminate. eauto.
Qed.

Lemma bind_ok {A B} (m : M env A) (k : A -> M env B) w a w1 :
  m w = (Ok a, w1) -> bind m k w = k a w1.
Proof. unfold bind. now intros ->. Qed.

Lemma fail_ok_inv {A} (o : outcome A) (w : world env) a w' :
  fail o w = (Ok a, w') -> o = Ok a /\ w' = w.
Proof. unfold fail. intros [= -> ->]. auto. Qed.

Lemma ret_ok_inv {A} (x : A) (w : world env) a w' :
  ret x w = (Ok a, w') -> a = x /\ w' = w.
Proof. unfold ret. intros [= -> ->]. auto. Qed.

End MonadLaws.

(** Takes a successful run apart, step by step. *)
Tactic Notation "ok_inv" ident(H) :=
  cbv beta zeta in H;
  lazymatch type of H with
  | bind _ _ _ = (Ok _, _) =>
      let a := fresh "a" in
      let w := fresh "w" in
      let H1 := fresh "Hrun" in
      apply bind_ok_inv in H; destruct H as (a & w & H1 & H);
      cbv beta zeta in H
  | fail _ _ = (Ok _, _) =>
      apply fail_ok_inv in H; destruct H as [H ?]; subst
  | ret _ _ = (Ok _, _) =>
      apply ret_ok_inv in H; destruct H as [H ?]; simplify_eq
  | (match ?a with _ => _ end) _ = (Ok _, _) =>
      destruct a; cbv beta iota zeta in H
  end.

(** ** The ledger *)

Section Ledger.

Context {env : Type} {collaborators : Collaborators env}.

Lemma list_pop_snoc {A} (l : list A) (x : A) :
  list_pop (l ++ [x]) = Some (x, l).
Proof.
  induction l as [|y l IH]; [reflexivity|].
  change ((y :: l) ++ [x]) with (y :: (l ++ [x])).
  cbn [list_pop]. rewrite IH.
  destruct (l ++ [x]) eqn:E; [|reflexivity].
  now destruct l.
Qed.

(** Not resuming: the command is logged and run, and [resume] stays
    [False]. *)
Lemma issue_command_fresh command command_args (w : world env) :
  issue_command command command_args false w =
  (Ok false,
   World (subcommand_list w) (subcommand_log w ++ [command])
         (dispatched w ++ [command_args]) (evaluations_read w)
         (main_dispatcher command_args (outside w))).
Proof. reflexivity. Qed.

(** Resuming on the command that is next in the ledger: nothing is
    logged; the command is not run; when that was the last entry,
    [main --resume] is run and [resume] becomes [False]. *)
Lemma issue_command_replay command command_args (w : world env) rest :
  subcommand_list w = rest ++ [command] ->
  issue_command command command_args true w =
  match rest with
  | [] =>
      (Ok false,
       World [] (subcommand_log w) (dispatched w ++ [["main"; "--resume"]])
             (evaluations_read w)
             (main_dispatcher ["main"; "--resume"] (outside w)))
  | _ =>
      (Ok true,
       World rest (subcommand_log w) (dispatched w) (evaluations_read w)
             (outside w))
  end.
Proof.
  intros Hl. unfold issue_command, bind, pop_subcommand.
  rewrite Hl, list_pop_snoc, different_command_same.
  unfold subcommand_list_is_empty. cbn [subcommand_list].
  destruct rest; reflexivity.
Qed.

End Ledger.

(** ** Resuming on a ledger that does not match *)

Section ResumeDivergence.

Let table : list (string * Q) := [("3", 9 # 10); ("103", 95 # 100)]%Q.
Let sample : Collaborators Sample.files :=
  Sample.collaborators "average_accuracy" table [].
Let first_run : world Sample.files :=
  snd (best_node_threshold (collaborators := sample) 10 "datasets"
         (Sample.args "accuracy" 103 None None) None None false
         (Sample.start ∅)).

(** C1 (the code departs from the claim): a sweep from 3 to 103 has
    left a ledger of two commands; the process is started again to
    resume, now with a minimum of 5 nodes.  The command about to be
    issued is not the next entry of the ledger, yet [resume] stays
    [True], the command is neither logged nor run, and the sweep ends
    on the evaluation file that was never written. *)
Theorem resume_divergence_goes_unnoticed :
  let command_args := ["main"; "node_th5"; "5"]%string in
  let command := rebuild_command command_args in
  subcommand_list (Sample.restart first_run)
    = [rebuild_command ["main"; "node_th103"; "103"];
       rebuild_command ["main"; "node_th3"; "3"]]%string
  /\ rebuild_command ["main"; "node_th3"; "3"]%string <> command
  /\ issue_command (collaborators := sample) command command_args true
        (Sample.restart first_run)
      = (Ok true,
         World [rebuild_command ["main"; "node_th103"; "103"]]%string
               (subcommand_log first_run) [] [] (outside first_run))
  /\ fst (best_node_threshold (collaborators := sample) 10 "datasets"
             (Sample.args "accuracy" 103 (Some 5%Z) None) None None true
             (Sample.restart first_run))
      = Exit "Failed to retrieve evaluation.".
Proof. repeat split; vm_compute; congruence. Qed.

End ResumeDivergence.

(** ** The scorer *)

Section Scorer.

Context {env : Type} {collaborators : Collaborators env}.


(** What [resolve_metric] answers, by the keys of the evaluation. *)
Lemma resolve_metric_requested (info : gmap string Q) metric v :
  info !! AVG_PREFIX metric = Some v ->
  resolve_metric info metric = Ok (AVG_PREFIX metric, metric).
Proof. unfold resolve_metric. now intros ->. Qed.

Lemma resolve_metric_fallback (info : gmap string Q) metric v :
  info !! AVG_PREFIX metric = None ->
  info !! AVG_PREFIX R_SQUARED = Some v ->
  resolve_metric info metric = Ok (AVG_PREFIX R_SQUARED, R_SQUARED).
Proof. unfold resolve_metric. now intros -> ->. Qed.

Lemma resolve_metric_neither (info : gmap string Q) metric :
  info !! AVG_PREFIX metric = None ->
  info !! AVG_PREFIX R_SQUARED = None ->
  resolve_metric info metric =
  Exit ("Failed to find " ++ metric ++ " or r-squared in the evaluation")%string.
Proof. unfold resolve_metric. now intros -> ->. Qed.

Lemma resolve_metric_ok_inv (info : gmap string Q) metric avg_metric metric_literal :
  resolve_metric info metric = Ok (avg_metric, metric_literal) ->
  exists v, info !! avg_metric = Some v.
Proof.
  unfold resolve_metric.
  destruct (info !! AVG_PREFIX metric) eqn:E1.
  - intros [= <- <-]. eauto.
  - destruct (info !! AVG_PREFIX R_SQUARED) eqn:E2; [|discriminate].
    intros [= <- <-]. eauto.
Qed.

(** [node_threshold_evaluate] once the evaluation is there. *)
Lemma node_threshold_evaluate_scores
    datasets_file args node_threshold penalty metric resume (w : world env)
    evaluation resume' w' :
  create_node_th_evaluations datasets_file args resume node_threshold w
    = (Ok (evaluation, resume'), w') ->
  node_threshold_evaluate datasets_file args node_threshold penalty metric resume w
  = let info := extract_evaluation_info evaluation (optimize_category args) in
    match resolve_metric info metric with
    | Ok (avg_metric, metric_literal) =>
        match info !! avg_metric with
        | Some value =>
            (Ok (score_formula (invert_of metric) value penalty
                               (inject_Z node_threshold),
                 value, metric_literal, resume'), w')
        | None => (Raise "KeyError", w')
        end
    | Exit message => (Exit message, w')
    | Raise exception => (Raise exception, w')
    | OutOfFuel => (OutOfFuel, w')
    end.
Proof.
  intros Hrun. unfold node_threshold_evaluate.
  rewrite (bind_ok _ _ _ _ _ Hrun). cbv zeta.
  destruct (resolve_metric _ metric) as [[avg lit]| | |]; try reflexivity.
  unfold bind at 1, fail at 1.
  unfold bind, fail, getitem.
  destruct (_ !! avg); reflexivity.
Qed.

(** [kfold_evaluate] once the evaluation is there. *)
Lemma kfold_evaluate_scores
    datasets_file args counter penalty metric resume (w : world env)
    evaluation resume' w' :
  create_kfold_evaluations datasets_file
    (with_output_dir args (kfold_dir datasets_file)) resume counter w
    = (Ok (evaluation, resume'), w') ->
  kfold_evaluate datasets_file args counter penalty metric resume w
  = let info := extract_evaluation_info evaluation (optimize_category args) in
    match resolve_metric info metric with
    | Ok (avg_metric, metric_literal) =>
        match info !! avg_metric with
        | Some value =>
            match PyStr.split (args_separator args) (model_fields args) with
            | Some pieces =>
                (Ok (score_formula (invert_of metric) value penalty
                                   (inject_Z (Z.of_nat (length pieces))),
                     value, metric_literal, resume'), w')
            | None => (Raise "ValueError", w')
            end
        | None => (Raise "KeyError", w')
        end
    | Exit message => (Exit message, w')
    | Raise exception => (Raise exception, w')
    | OutOfFuel => (OutOfFuel, w')
    end.
Proof.
  intros Hrun. unfold kfold_evaluate.
  rewrite (bind_ok _ _ _ _ _ Hrun). cbv zeta.
  cbn [with_output_dir optimize_category args_separator model_fields].
  destruct (resolve_metric _ metric) as [[avg lit]| | |]; try reflexivity.
  unfold bind at 1, fail at 1.
  unfold bind, fail, getitem.
  destruct (_ !! avg); [|reflexivity].
  destruct (PyStr.split _ _); reflexivity.
Qed.

Lemma resolve_metric_no_raise (info : gmap string Q) metric exc :
  resolve_metric info metric <> Raise exc.
Proof.
  unfold resolve_metric.
  destruct (info !! AVG_PREFIX metric); [discriminate|].
  destruct (info !! AVG_PREFIX R_SQUARED); discriminate.
Qed.

Lemma resolve_metric_fuel (info : gmap string Q) metric :
  resolve_metric info metric <> OutOfFuel.
Proof.
  unfold resolve_metric.
  destruct (info !! AVG_PREFIX metric); [discriminate|].
  destruct (info !! AVG_PREFIX R_SQUARED); discriminate.
Qed.

(** The scorer resolves the metric as the specification says as soon
    as it ends the way [resolve_metric] decides. *)
Lemma resolves_metric_intro (info : gmap string Q) metric
    (r : outcome (Q * Q * string * bool) * world env) :
  match resolve_metric info metric with
  | Ok (avg_metric, metric_literal) =>
      exists v score resume,
        info !! avg_metric = Some v
        /\ fst r = Ok (score, v, metric_literal, resume)
  | other => exists message, other = Exit message /\ fst r = Exit message
  end ->
  resolves_metric info metric (fst r).
Proof.
  unfold resolves_metric, resolve_metric.
  destruct (info !! AVG_PREFIX metric) as [v1|] eqn:E1.
  - intros (v & score & res & Hv & ->).
    assert (v = v1) as -> by congruence.
    split; [|split; [|split]].
    + intros ? [= <-]. eauto.
    + discriminate.
    + intros [? [=]].
    + intros [[=] _].
  - destruct (info !! AVG_PREFIX R_SQUARED) as [v2|] eqn:E2.
    + intros (v & score & res & Hv & ->).
      assert (v = v2) as -> by congruence.
      split; [|split; [|split]].
      * discriminate.
      * intros ? _ [= <-]. eauto.
      * intros [? [=]].
      * intros [_ [=]].
    + intros (message & _ & ->).
      split; [|split; [|split]]; try discriminate; eauto.
Qed.

(** C4: on every evaluation the scorer reads the averaged requested
    metric; when that key is absent it reads the averaged R-squared and
    reports [r_squared]; and it exits fatally exactly when both keys
    are absent.  For both scorers; [kfold_evaluate] is taken with the
    non-empty separator that splitting the field list needs. *)
Theorem scorer_resolves_metric
    datasets_file args penalty metric resume (w : world env)
    evaluation resume' w' :
  let info := extract_evaluation_info evaluation (optimize_category args) in
  (forall node_threshold,
     create_node_th_evaluations datasets_file args resume node_threshold w
       = (Ok (evaluation, resume'), w') ->
     resolves_metric info metric
       (fst (node_threshold_evaluate datasets_file args node_threshold
               penalty metric resume w)))
  /\ (forall counter,
       args_separator args <> ""%string ->
       create_kfold_evaluations datasets_file
         (with_output_dir args (kfold_dir datasets_file)) resume counter w
         = (Ok (evaluation, resume'), w') ->
       resolves_metric info metric
         (fst (kfold_evaluate datasets_file args counter penalty metric resume w))).
Proof.
  intros info. split.
  - intros node_threshold Hrun.
    rewrite (node_threshold_evaluate_scores _ _ _ _ _ _ _ _ _ _ Hrun).
    cbv zeta. fold info. apply resolves_metric_intro.
    destruct (resolve_metric info metric) as [[avg lit]|message|exc|] eqn:Hres.
    + destruct (resolve_metric_ok_inv _ _ _ _ Hres) as [v Hv].
      rewrite Hv. do 3 eexists. split; reflexivity.
    + eexists. split; reflexivity.
    + now apply resolve_metric_no_raise in Hres.
    + now apply resolve_metric_fuel in Hres.
  - intros counter Hsep Hrun.
    rewrite (kfold_evaluate_scores _ _ _ _ _ _ _ _ _ _ Hrun).
    cbv zeta. fold info. apply resolves_metric_intro.
    assert (exists pieces,
      PyStr.split (args_separator args) (model_fields args) = Some pieces)
      as [pieces ->].
    { unfold PyStr.split. destruct (args_separator args); [congruence|eauto]. }
    destruct (resolve_metric info metric) as [[avg lit]|message|exc|] eqn:Hres.
    + destruct (resolve_metric_ok_inv _ _ _ _ Hres) as [v Hv].
      rewrite Hv. do 3 eexists. split; reflexivity.
    + eexists. split; reflexivity.
    + now apply resolve_metric_no_raise in Hres.
    + now apply resolve_metric_fuel in Hres.
Qed.


End Scorer.

(** ** The scorer on the small instance *)

Section ScorerExamples.

Let by_r_squared : Collaborators Sample.files :=
  Sample.collaborators "average_r_squared"
    [("3", 1 # 2); ("a,b", 1 # 2)]%Q ["mean_squared_error"]%string.
Let error_args : Args :=
  with_model_fields (Sample.args "mean_squared_error" 103 None None) "a,b".

Let r_squared_only : evaluation_json :=
  Sample.evaluation_with "average_r_squared" (1 # 2).

Lemma scorer_resolves_metric_witness :
  resolves_metric (extract_evaluation_info r_squared_only None)
    "mean_squared_error"
    (fst (node_threshold_evaluate (collaborators := by_r_squared) "datasets"
            error_args 3 (1 # 100) "mean_squared_error" false (Sample.start ∅)))
  /\ resolves_metric (extract_evaluation_info r_squared_only None)
       "mean_squared_error"
       (fst (kfold_evaluate (collaborators := by_r_squared) "datasets"
               error_args 1 (1 # 100) "mean_squared_error" false (Sample.start ∅))).
Proof.
  split.
  - apply (proj1
      (scorer_resolves_metric (collaborators := by_r_squared) "datasets"
         error_args (1 # 100) "mean_squared_error" false (Sample.start ∅)
         r_squared_only false
         (snd (create_node_th_evaluations (collaborators := by_r_squared)
                 "datasets" error_args false 3 (Sample.start ∅)))) 3%Z).
    vm_compute. reflexivity.
  - apply (proj2
      (scorer_resolves_metric (collaborators := by_r_squared) "datasets"
         error_args (1 # 100) "mean_squared_error" false (Sample.start ∅)
         r_squared_only false
         (snd (create_kfold_evaluations (collaborators := by_r_squared)
                 "datasets" (with_output_dir error_args "kfold") false 1
                 (Sample.start ∅)))) 1%nat).
    + discriminate.
    + vm_compute. reflexivity.
Defined.



End ScorerExamples.

(** ** Runs of the primitive steps *)

(** Case analysis on every [match] of the goal, for the runs of the
    primitive steps. *)
Ltac run_cases :=
  repeat (cbv beta iota zeta;
          match goal with
          | |- context [match ?x with _ => _ end] =>
              lazymatch x with
              | context [match _ with _ => _ end] => fail
              | _ => destruct x eqn:?
              end
          end);
  cbv beta iota zeta.

Section Runs.

Context {env : Type} {collaborators : Collaborators env}.

Lemma issue_command_no_fuel command command_args resume (w : world env) :
  fst (issue_command command command_args resume w) <> OutOfFuel.
Proof.
  unfold issue_command, bind, pop_subcommand, sys_log_message,
    call_main_dispatcher, subcommand_list_is_empty, ret.
  destruct resume; run_cases; cbn; discriminate.
Qed.

(** [issue_command] leaves the evaluations read so far alone. *)
Lemma issue_command_reads command command_args resume (w : world env) o w' :
  issue_command command command_args resume w = (o, w') ->
  evaluations_read w' = evaluations_read w.
Proof.
  unfold issue_command, bind, pop_subcommand, sys_log_message,
    call_main_dispatcher, subcommand_list_is_empty, ret.
  destruct resume; run_cases; intros [= <- <-]; reflexivity.
Qed.

Lemma load_evaluation_ok_inv evaluation_file (w : world env) evaluation w' :
  load_evaluation evaluation_file w = (Ok evaluation, w') ->
  read_json evaluation_file (outside w) = Some evaluation
  /\ w' = World (subcommand_list w) (subcommand_log w) (dispatched w)
                (evaluations_read w ++ [(evaluation_file, evaluation)])
                (outside w).
Proof.
  unfold load_evaluation.
  destruct (read_json _ _); [|discriminate]. intros [= <- <-]. auto.
Qed.

Lemma load_evaluation_no_fuel evaluation_file (w : world env) :
  fst (load_evaluation evaluation_file w) <> OutOfFuel.
Proof.
  unfold load_evaluation. destruct (read_json _ _); cbn; discriminate.
Qed.

End Runs.

(** ** The sweep over the node thresholds *)

Section SweepRuns.

Context {env : Type} {collaborators : Collaborators env}.

Lemma bind_no_fuel {A B} (m : M env A) (k : A -> M env B) w :
  fst (m w) <> OutOfFuel ->
  (forall a w1, m w = (Ok a, w1) -> fst (k a w1) <> OutOfFuel) ->
  fst (bind m k w) <> OutOfFuel.
Proof.
  unfold bind. destruct (m w) as [[a| | |] w1]; cbn; intros H1 H2;
    solve [discriminate | congruence | now apply H2].
Qed.

Lemma create_node_th_evaluations_ok_inv
    datasets_file args resume node_threshold (w : world env)
    evaluation resume' w' :
  create_node_th_evaluations datasets_file args resume node_threshold w
    = (Ok (evaluation, resume'), w') ->
  evaluations_read w' =
  evaluations_read w
  ++ [(evaluation_path (node_th_output_dir args node_threshold), evaluation)].
Proof.
  unfold create_node_th_evaluations. intros H.
  ok_inv H. ok_inv H. ok_inv H.
  apply load_evaluation_ok_inv in Hrun0 as [_ ->].
  apply issue_command_reads in Hrun. cbn. now rewrite Hrun.
Qed.

Lemma create_node_th_evaluations_no_fuel
    datasets_file args resume node_threshold (w : world env) :
  fst (create_node_th_evaluations datasets_file args resume node_threshold w)
  <> OutOfFuel.
Proof.
  unfold create_node_th_evaluations.
  apply bind_no_fuel; [apply issue_command_no_fuel|]. intros r w1 _.
  apply bind_no_fuel; [apply load_evaluation_no_fuel|]. intros e w2 _.
  cbn. discriminate.
Qed.

Lemma node_threshold_evaluate_no_fuel
    datasets_file args node_threshold penalty metric resume (w : world env) :
  fst (node_threshold_evaluate datasets_file args node_threshold penalty
         metric resume w) <> OutOfFuel.
Proof.
  destruct (create_node_th_evaluations datasets_file args resume
              node_threshold w) as [o w1] eqn:Hrun.
  destruct o as [[evaluation resume']| | |].
  - rewrite (node_threshold_evaluate_scores _ _ _ _ _ _ _ _ _ _ Hrun).
    cbv zeta.
    destruct (resolve_metric _ metric) as [[avg lit]| | |] eqn:Hres;
      cbn; try discriminate.
    + destruct (_ !! avg); cbn; discriminate.
    + now apply resolve_metric_fuel in Hres.
  - unfold node_threshold_evaluate, bind. rewrite Hrun. cbn. discriminate.
  - unfold node_threshold_evaluate, bind. rewrite Hrun. cbn. discriminate.
  - pose proof (create_node_th_evaluations_no_fuel datasets_file args resume
                  node_threshold w) as H.
    rewrite Hrun in H. now contradiction H.
Qed.

Lemma node_threshold_evaluate_ok_inv
    datasets_file args node_threshold penalty metric resume (w : world env)
    score value metric_literal resume' w' :
  node_threshold_evaluate datasets_file args node_threshold penalty
    metric resume w = (Ok (score, value, metric_literal, resume'), w') ->
  exists evaluation,
    create_node_th_evaluations datasets_file args resume node_threshold w
    = (Ok (evaluation, resume'), w').
Proof.
  intros H.
  destruct (create_node_th_evaluations datasets_file args resume
              node_threshold w) as [[[evaluation resume1]| | |] w1] eqn:Hrun;
    try (unfold node_threshold_evaluate, bind in H; rewrite Hrun in H;
         discriminate H).
  rewrite (node_threshold_evaluate_scores _ _ _ _ _ _ _ _ _ _ Hrun) in H.
  cbv zeta in H.
  destruct (resolve_metric _ metric) as [[avg lit]| | |]; try discriminate H.
  destruct (_ !! avg); [|discriminate H].
  injection H as <- <- <- <- <-. eauto.
Qed.

Lemma node_threshold_evaluate_reads
    datasets_file args node_threshold penalty metric resume (w : world env)
    score value metric_literal resume' w' :
  node_threshold_evaluate datasets_file args node_threshold penalty
    metric resume w = (Ok (score, value, metric_literal, resume'), w') ->
  exists evaluation,
    evaluations_read w' =
    evaluations_read w
    ++ [(evaluation_path (node_th_output_dir args node_threshold), evaluation)].
Proof.
  intros H. apply node_threshold_evaluate_ok_inv in H as [evaluation H].
  exists evaluation. now apply create_node_th_evaluations_ok_inv in H.
Qed.

Section Loop.

Variable datasets_file : string.
Variable args : Args.
Variable staleness : Z.
Variable penalty : Q.
Variable bound : Z.
Variable step : Z.

Local Abbreviation sweep_step' :=
  (sweep_step datasets_file args penalty step).
Local Abbreviation sweep_loop' :=
  (sweep_loop datasets_file args staleness penalty bound step).
Local Abbreviation sweep_continues' :=
  (sweep_continues staleness bound).

(** What a turn of the loop that succeeds has done. *)
Lemma sweep_step_ok_inv st resume (w : world env) st' resume' w' :
  sweep_step' st resume w = (Ok (st', resume'), w') ->
  exists score metric_value metric,
    node_threshold_evaluate datasets_file args (node_threshold st) penalty
      (sweep_metric st) resume w
    = (Ok (score, metric_value, metric, resume'), w')
    /\ node_threshold st' = (node_threshold st + step)%Z
    /\ nodes_rows st' =
       nodes_rows st
       ++ [(S (sweep_loop_counter st), node_threshold st, score, metric_value,
            sweep_best_score st)]
    /\ if num_gtb (num_minus (Fin score) EPSILON) (sweep_best_score st)
       then best_threshold st' = Some (node_threshold st)
            /\ sweep_best_score st' = Fin score
            /\ sweep_unchanged_count st' = 0%Z
       else best_threshold st' = best_threshold st
            /\ sweep_best_score st' = sweep_best_score st
            /\ sweep_unchanged_count st' = (sweep_unchanged_count st + 1)%Z.
Proof.
  unfold sweep_step. intros H. ok_inv H.
  destruct a as [[[score metric_value] metric] resume1].
  exists score, metric_value, metric.
  destruct (num_gtb _ _); ok_inv H; cbn; auto 10.
Qed.

Lemma sweep_step_no_fuel st resume (w : world env) :
  fst (sweep_step' st resume w) <> OutOfFuel.
Proof.
  unfold sweep_step.
  apply bind_no_fuel; [apply node_threshold_evaluate_no_fuel|].
  intros [[[score metric_value] metric] resume1] w1 _.
  destruct (num_gtb _ _); cbn; discriminate.
Qed.

Lemma sweep_loop_halted fuel st resume (w : world env) :
  sweep_continues' st = false ->
  sweep_loop' fuel st resume w = (Ok (st, resume), w).
Proof. intros H. destruct fuel; cbn; rewrite H; reflexivity. Qed.

Lemma sweep_loop_turn fuel st resume (w : world env) :
  sweep_continues' st = true ->
  sweep_loop' (S fuel) st resume w =
  bind (sweep_step' st resume)
       (fun r => sweep_loop' fuel (fst r) (snd r)) w.
Proof.
  intros H. cbn [sweep_loop]. rewrite H.
  unfold bind. destruct (sweep_step' st resume w) as [[[st1 r1]| | |] w1];
    reflexivity.
Qed.

Lemma sweep_continues_false st :
  sweep_continues' st = false <->
  (staleness <= sweep_unchanged_count st)%Z \/ (bound <= node_threshold st)%Z.
Proof.
  unfold sweep_continues.
  rewrite andb_false_iff, !Z.ltb_ge. reflexivity.
Qed.

(** With a positive step the loop ends: the turns left are at most the
    thresholds left below the bound. *)
Lemma sweep_loop_no_fuel fuel :
  (0 < step)%Z ->
  forall st resume (w : world env),
    (Z.to_nat ((bound - node_threshold st + step - 1) / step) <= fuel)%nat ->
    fst (sweep_loop' fuel st resume w) <> OutOfFuel.
Proof.
  intros Hstep. induction fuel as [|fuel IH]; intros st resume w Hfuel.
  - destruct (sweep_continues' st) eqn:Hc.
    + exfalso. unfold sweep_continues in Hc.
      apply andb_true_iff in Hc as [_ Hc]. apply Z.ltb_lt in Hc.
      assert (1 <= (bound - node_threshold st + step - 1) / step)%Z.
      { apply Z.div_le_lower_bound; lia. }
      lia.
    + rewrite sweep_loop_halted by assumption. cbn. discriminate.
  - destruct (sweep_continues' st) eqn:Hc.
    + rewrite sweep_loop_turn by assumption.
      apply bind_no_fuel; [apply sweep_step_no_fuel|].
      intros [st1 r1] w1 Hrun. cbn [fst snd].
      apply sweep_step_ok_inv in Hrun as (? & ? & ? & _ & Hth & _).
      apply IH. rewrite Hth.
      replace (bound - (node_threshold st + step) + step - 1)%Z
        with ((bound - node_threshold st + step - 1) + (-1) * step)%Z by lia.
      rewrite Z.div_add by lia. lia.
    + rewrite sweep_loop_halted by assumption. cbn. discriminate.
Qed.

End Loop.

End SweepRuns.

(** ** The sweep: when it stops and what it reports *)

Section SweepClaims.

Context {env : Type} {collaborators : Collaborators env}.

(** C10: when [max_nodes + 1 <= min_nodes] the loop takes no turn, no
    evaluation is made (the state of the run is unchanged), the
    variable [best_threshold] is never bound, and the report fails. *)
Theorem sweep_without_range_fails
    fuel datasets_file args staleness penalty resume (w : world env) :
  (max_nodes args + 1 <= default DEFAULT_MIN_NODES (min_nodes args))%Z ->
  best_node_threshold fuel datasets_file args staleness penalty resume w
  = (Raise "UnboundLocalError", w).
Proof.
  intros Hrange. unfold best_node_threshold. cbv zeta.
  unfold bind. rewrite sweep_loop_halted; [reflexivity|].
  apply sweep_continues_false. right. cbn. exact Hrange.
Qed.

(** C8: the loop goes on exactly as long as the count of turns without
    improvement is below the staleness and the threshold is not above
    the maximum: when either fails it returns at once, otherwise it
    takes a turn; with a positive step it ends within the number of
    thresholds left.  And from 3 to 103 by steps of 100 with a
    staleness of 5, a sweep that ends has made two evaluations, for
    the thresholds 3 and 103. *)
Theorem sweep_halts_on_staleness_or_range
    datasets_file args staleness penalty maximum step :
  let bound := (maximum + 1)%Z in
  (forall st,
     sweep_continues staleness bound st = false <->
     (staleness <= sweep_unchanged_count st)%Z \/ (maximum < node_threshold st)%Z)
  /\ (forall fuel st resume (w : world env),
       sweep_continues staleness bound st = false ->
       sweep_loop datasets_file args staleness penalty bound step fuel st resume w
       = (Ok (st, resume), w))
  /\ (forall fuel st resume (w : world env),
       sweep_continues staleness bound st = true ->
       sweep_loop datasets_file args staleness penalty bound step (S fuel)
                  st resume w
       = bind (sweep_step datasets_file args penalty step st resume)
              (fun r =>
                 sweep_loop datasets_file args staleness penalty bound step
                            fuel (fst r) (snd r)) w)
  /\ ((0 < step)%Z ->
      forall fuel st resume (w : world env),
        (Z.to_nat ((bound - node_threshold st + step - 1) / step) <= fuel)%nat ->
        fst (sweep_loop datasets_file args staleness penalty bound step
                        fuel st resume w) <> OutOfFuel)
  /\ (forall fuel metric resume (w : world env) st' resume' w',
       sweep_loop datasets_file args 5 penalty (103 + 1) 100 fuel
                  (Sweep 3 None NegInf 0 metric 0 []) resume w
       = (Ok (st', resume'), w') ->
       List.map row_threshold (nodes_rows st') = [3; 103]%Z
       /\ exists e1 e2,
           evaluations_read w' =
           evaluations_read w
           ++ [(evaluation_path (node_th_output_dir args 3), e1);
               (evaluation_path (node_th_output_dir args 103), e2)]).
Proof.
  intros bound. split; [|split; [|split; [|split]]].
  - intros st. rewrite sweep_continues_false. unfold bound. lia.
  - intros. now apply sweep_loop_halted.
  - intros. now apply sweep_loop_turn.
  - intros. now apply sweep_loop_no_fuel.
  - intros fuel metric resume w st' resume' w' H.
    destruct fuel as [|fuel]; [discriminate H|].
    rewrite sweep_loop_turn in H by reflexivity.
    ok_inv H. destruct a as [st1 r1]. cbn [fst snd] in H.
    apply sweep_step_ok_inv in Hrun
      as (s1 & v1 & m1 & Hev1 & Hth1 & Hrows1 & Hbest1).
    cbn in Hth1, Hrows1, Hbest1. destruct Hbest1 as (_ & _ & Hcount1).
    apply node_threshold_evaluate_reads in Hev1 as [e1 Hread1].
    assert (sweep_continues 5 (103 + 1) st1 = true) as Hc1
      by (unfold sweep_continues; rewrite Hth1, Hcount1; reflexivity).
    destruct fuel as [|fuel];
      [cbn in H; rewrite Hc1 in H; discriminate H|].
    rewrite sweep_loop_turn in H by exact Hc1.
    ok_inv H. destruct a as [st2 r2]. cbn [fst snd] in H.
    apply sweep_step_ok_inv in Hrun
      as (s2 & v2 & m2 & Hev2 & Hth2 & Hrows2 & _).
    rewrite Hth1 in Hev2.
    apply node_threshold_evaluate_reads in Hev2 as [e2 Hread2].
    rewrite sweep_loop_halted in H
      by (apply sweep_continues_false; right; rewrite Hth2, Hth1; lia).
    injection H as <- <- <-. split.
    + rewrite Hrows2, Hrows1, Hth1. reflexivity.
    + exists e1, e2. rewrite Hread2, Hread1, <- app_assoc. reflexivity.
Qed.

End SweepClaims.

(** ** The sweep on the small instance *)

Section SweepExamples.

Let sample : Collaborators Sample.files :=
  Sample.collaborators "average_accuracy"
    [("3", 9 # 10); ("103", 95 # 100)]%Q [].

Lemma sweep_without_range_fails_witness :
  (max_nodes (Sample.args "accuracy" 2 None None) + 1
   <= default DEFAULT_MIN_NODES (min_nodes (Sample.args "accuracy" 2 None None)))%Z
  /\ best_node_threshold (collaborators := sample) 10 "datasets"
       (Sample.args "accuracy" 2 None None) None None false (Sample.start ∅)
     = (Raise "UnboundLocalError", Sample.start ∅).
Proof.
  split; [vm_compute; discriminate|].
  apply (sweep_without_range_fails (collaborators := sample)).
  vm_compute. discriminate.
Defined.

Lemma sweep_halts_on_staleness_or_range_witness :
  (0 < 100)%Z
  /\ fst (sweep_loop (collaborators := sample) "datasets"
            (Sample.args "accuracy" 103 None None) 5 0 (103 + 1) 100 2
            (Sweep 3 None NegInf 0 "accuracy" 0 []) false (Sample.start ∅))
     <> OutOfFuel
  /\ exists st' resume' w',
       sweep_loop (collaborators := sample) "datasets"
         (Sample.args "accuracy" 103 None None) 5 0 (103 + 1) 100 2
         (Sweep 3 None NegInf 0 "accuracy" 0 []) false (Sample.start ∅)
       = (Ok (st', resume'), w')
       /\ List.map row_threshold (nodes_rows st') = [3; 103]%Z
       /\ dispatched w' = [["main"; "out3"; "3"]; ["main"; "out103"; "103"]]%string.
Proof.
  pose proof
    (sweep_halts_on_staleness_or_range (collaborators := sample) "datasets"
       (Sample.args "accuracy" 103 None None) 5 0 103 100)
    as (_ & _ & _ & Hends & Htwo).
  split; [reflexivity|]. split.
  - apply Hends; [reflexivity|]. vm_compute. lia.
  - destruct (sweep_loop (collaborators := sample) "datasets"
                (Sample.args "accuracy" 103 None None) 5 0 (103 + 1) 100 2
                (Sweep 3 None NegInf 0 "accuracy" 0 []) false (Sample.start ∅))
      as [[[st' resume']| | |] w'] eqn:Hrun; try (vm_compute in Hrun; discriminate Hrun).
    exists st', resume', w'. split; [reflexivity|]. split.
    + exact (proj1 (Htwo _ _ _ _ _ _ _ Hrun)).
    + vm_compute in Hrun. injection Hrun as <- <- <-. reflexivity.
Defined.

(** C9 (the code departs from the claim): with a penalty of 1/100 per
    node and a single threshold, 3, whose averaged accuracy is 9/10,
    the sweep reports the threshold with 87/100, the penalised score,
    not with the metric value 9/10. *)
Theorem sweep_reports_penalised_score :
  let args := Sample.args "accuracy" 3 None None in
  exists score,
    fst (node_threshold_evaluate (collaborators := sample) "datasets"
           (with_output_dir args "node_th") 3 (1 # 100) "accuracy" false
           (Sample.start ∅))
    = Ok (score, (9 # 10)%Q, "accuracy"%string, false)
    /\ fst (best_node_threshold (collaborators := sample) 10 "datasets"
              args None (Some (1 # 100)%Q) false (Sample.start ∅))
       = Ok ({| reported_threshold := 3;
                nodes_reported_metric := "accuracy";
                nodes_reported_value := Fin score |}, false)
    /\ (score == 87 # 100)%Q
    /\ ~ (score == 9 # 10)%Q.
Proof.
  eexists. split; [vm_compute; reflexivity|].
  split; [vm_compute; reflexivity|].
  split; vm_compute; congruence.
Qed.

End SweepExamples.

(** ** Comparing scores *)

Section Scores.

Lemma Qgtb_lt a b : Qgtb a b = true <-> (b < a)%Q.
Proof.
  unfold Qgtb. rewrite negb_true_iff.
  destruct (Qle_bool a b) eqn:E.
  - apply Qle_bool_iff in E. split; [discriminate|]. intros H. lra.
  - split; [intros _|reflexivity].
    apply Qnot_le_lt. intros H. apply Qle_bool_iff in H. congruence.
Qed.

(** The test of the code, [(score - EPSILON) > best_score], is
    "[score] exceeds [best_score] by more than [EPSILON]". *)
Lemma improvement_test score best :
  num_gtb (num_minus score EPSILON) best = true <->
  exceeds_by score best EPSILON.
Proof.
  destruct score as [|s], best as [|b]; cbn; try tauto.
  - split; [discriminate|contradiction].
  - split; [discriminate|contradiction].
  - rewrite Qgtb_lt. split; intros H; lra.
Qed.

Lemma num_le_refl a : num_le a a.
Proof. destruct a; cbn; [trivial|apply Qle_refl]. Qed.

Lemma num_le_trans a b c : num_le a b -> num_le b c -> num_le a c.
Proof.
  destruct a, b, c; cbn; try tauto. apply Qle_trans.
Qed.

Lemma exceeds_by_le score best :
  exceeds_by score best EPSILON -> num_le best score.
Proof.
  destruct score as [|s], best as [|b]; cbn; try tauto.
  unfold EPSILON. intros H. lra.
Qed.


End Scores.

(** ** Best-first search: the turns of the loop *)

Section SearchRuns.

Context {env : Type} {collaborators : Collaborators env}.

Lemma list_remove_perm x l l' :
  list_remove x l = Some l' ->
  exists y, state_of y = state_of x /\ l ≡ₚ y :: l'.
Proof.
  revert l'. induction l as [|z l IH]; intros l'; [discriminate|].
  cbn [list_remove]. destruct (scored_state_eqb z x) eqn:E.
  - intros [= <-]. exists z. split; [|reflexivity].
    unfold scored_state_eqb in E.
    apply andb_true_iff in E as [E _]. apply andb_true_iff in E as [E _].
    now apply bool_decide_eq_true_1 in E.
  - destruct (list_remove x l) as [rest|]; [|discriminate].
    intros [= <-]. destruct (IH _ eq_refl) as (y & Hy & Hp).
    exists y. split; [exact Hy|]. rewrite Hp. apply Permutation_swap.
Qed.

Variable datasets_file : string.
Variable args : Args.
Variable staleness : Z.
Variable penalty : Q.
Variable field_ids : list string.

Local Abbreviation expand_children' :=
  (expand_children datasets_file args penalty field_ids).
Local Abbreviation search_step' :=
  (search_step datasets_file args penalty field_ids).
Local Abbreviation search_loop' :=
  (search_loop datasets_file args staleness penalty field_ids).

(** What closing the best open state does. *)
Lemma close_best_ok_inv st state st1 :
  close_best field_ids st = Ok (state, st1) ->
  exists score metric_value open',
    find_max_state (open_list st) = (Some state, score, metric_value)
    /\ list_remove (state, score, metric_value) (open_list st) = Some open'
    /\ open_list st1 = open'
    /\ closed_list st1 = closed_list st ++ [(state, score, metric_value)]
    /\ metric st1 = metric st
    /\ counter st1 = counter st
    /\ if num_gtb (num_minus score EPSILON) (best_score st)
       then best_state st1 = state
            /\ best_score st1 = score
            /\ best_metric_value st1 = metric_value
            /\ best_unchanged_count st1 = 0%Z
       else best_state st1 = best_state st
            /\ best_score st1 = best_score st
            /\ best_metric_value st1 = best_metric_value st
            /\ best_unchanged_count st1 = (best_unchanged_count st + 1)%Z.
Proof.
  unfold close_best.
  destruct (find_max_state (open_list st)) as [[[state0|] score] metric_value];
    [|discriminate].
  destruct (selected_field_names field_ids state0); try discriminate.
  destruct (list_remove _ (open_list st)) as [open'|] eqn:Hrem; [|discriminate].
  destruct (num_gtb _ _) eqn:E; intros [= <- <-];
    exists score, metric_value, open'; rewrite ?E; cbn;
    repeat split; auto.
Qed.

(** What the loop over the children leaves alone, and what it keeps. *)
Lemma expand_children_inv children :
  forall st resume (w : world env) st' resume' w',
    expand_children' children st resume w = (Ok (st', resume'), w') ->
    closed_list st' = closed_list st
    /\ best_state st' = best_state st
    /\ best_score st' = best_score st
    /\ best_metric_value st' = best_metric_value st
    /\ best_unchanged_count st' = best_unchanged_count st
    /\ (no_duplicate_states st -> no_duplicate_states st').
Proof.
  induction children as [|child children IH]; intros st resume w st' resume' w' H.
  - cbn in H. ok_inv H. auto 10.
  - cbn [expand_children] in H.
    destruct (negb (state_in child (open_list st))
              && negb (state_in child (closed_list st))) eqn:Hnew.
    + apply bind_ok_inv in H as (names & w1 & _ & H).
      apply bind_ok_inv in H as ([[[score mv] m] r] & w2 & _ & H).
      apply IH in H. cbn in H.
      destruct H as (-> & -> & -> & -> & -> & Hdup).
      repeat (split; [reflexivity|]).
      intros Hnd. apply Hdup. unfold no_duplicate_states in *. cbn.
      apply andb_true_iff in Hnew as [Ho Hc].
      apply negb_true_iff, bool_decide_eq_false_1 in Ho.
      apply negb_true_iff, bool_decide_eq_false_1 in Hc.
      rewrite <- app_assoc, map_app. cbn [List.map app].
      rewrite map_app in Hnd.
      apply NoDup_app in Hnd as (Hn1 & Hn2 & Hn3).
      apply NoDup_app. split; [exact Hn1|]. split.
      * intros x Hx. rewrite elem_of_cons. intros [->|Hx']; [contradiction|].
        now apply (Hn2 x).
      * apply NoDup_cons. split; [exact Hc|exact Hn3].
    + now apply IH in H.
Qed.

(** A child that is already in a list is passed over: no command is
    issued for it. *)
Lemma expand_children_skips child children st resume :
  state_in child (open_list st) || state_in child (closed_list st) = true ->
  expand_children' (child :: children) st resume =
  expand_children' children st resume.
Proof.
  intros H. cbn [expand_children].
  rewrite <- negb_orb, H. reflexivity.
Qed.

(** The states in between: the loop over a list of children is the loop
    over its first part followed by the loop over the rest. *)
Lemma expand_children_app children1 children2 :
  forall st resume (w : world env),
    expand_children' (children1 ++ children2) st resume w =
    bind (expand_children' children1 st resume)
         (fun r => expand_children' children2 (fst r) (snd r)) w.
Proof.
  induction children1 as [|child children1 IH]; intros st resume w.
  - reflexivity.
  - cbn [app expand_children].
    destruct (negb _ && negb _); [|apply IH].
    unfold bind, fail.
    destruct (selected_field_names field_ids child) as [names| | |];
      try reflexivity.
    destruct (kfold_evaluate _ _ _ _ _ _ w)
      as [[[[[score mv] m] r]| | |] w2]; try reflexivity.
    rewrite IH. reflexivity.
Qed.

End SearchRuns.

(** ** Best-first search: the best state and the two lists *)

Section SearchClaims.

Context {env : Type} {collaborators : Collaborators env}.

Variable datasets_file : string.
Variable args : Args.
Variable staleness : Z.
Variable penalty : Q.
Variable field_ids : list string.

Local Abbreviation expand_children' :=
  (expand_children datasets_file args penalty field_ids).
Local Abbreviation search_step' :=
  (search_step datasets_file args penalty field_ids).
Local Abbreviation search_loop' :=
  (search_loop datasets_file args staleness penalty field_ids).

Lemma search_step_ok_inv st resume (w : world env) st' resume' w' :
  search_step' st resume w = (Ok (st', resume'), w') ->
  exists state st1,
    close_best field_ids st = Ok (state, st1)
    /\ expand_children' (expand_state state) st1 resume w
       = (Ok (st', resume'), w').
Proof.
  unfold search_step. intros H.
  apply bind_ok_inv in H as ([state st1] & w1 & Hclose & H).
  apply fail_ok_inv in Hclose as [Hclose ->]. eauto.
Qed.

Lemma close_best_no_duplicates st state st1 :
  no_duplicate_states st ->
  close_best field_ids st = Ok (state, st1) ->
  no_duplicate_states st1.
Proof.
  intros Hnd H.
  apply close_best_ok_inv in H
    as (score & mv & open' & _ & Hrem & Ho & Hc & _).
  apply list_remove_perm in Hrem as (y & Hy & Hperm).
  unfold no_duplicate_states in *. rewrite Ho, Hc.
  rewrite Hperm in Hnd. cbn in Hnd. rewrite Hy in Hnd. cbn in Hnd.
  rewrite app_assoc, map_app. cbn [List.map].
  cbn [state_of fst]. rewrite <- Permutation_cons_append. exact Hnd.
Qed.

Lemma search_loop_turn fuel st resume (w : world env) :
  search_continues staleness st = true ->
  search_loop' (S fuel) st resume w =
  bind (search_step' st resume)
       (fun r => search_loop' fuel (fst r) (snd r)) w.
Proof.
  intros H. cbn [search_loop]. rewrite H.
  unfold bind. destruct (search_step' st resume w) as [[[st1 r1]| | |] w1];
    reflexivity.
Qed.

Lemma search_loop_halted fuel st resume (w : world env) :
  search_continues staleness st = false ->
  search_loop' fuel st resume w = (Ok (st, resume), w).
Proof. intros H. destruct fuel; cbn; rewrite H; reflexivity. Qed.

(** An induction principle for the runs of the loop that succeed. *)
Lemma search_loop_ind (P : search -> Prop) :
  (forall st resume (w : world env) st' resume' w',
     search_step' st resume w = (Ok (st', resume'), w') -> P st -> P st') ->
  forall fuel st resume (w : world env) st' resume' w',
    search_loop' fuel st resume w = (Ok (st', resume'), w') -> P st -> P st'.
Proof.
  intros Hstep. induction fuel as [|fuel IH];
    intros st resume w st' resume' w' H HP.
  - cbn in H. destruct (search_continues staleness st); [discriminate H|].
    now injection H as <- <- <-.
  - destruct (search_continues staleness st) eqn:Hc.
    + rewrite search_loop_turn in H by exact Hc.
      apply bind_ok_inv in H as ([st1 r1] & w1 & Hrun & H). cbn [fst snd] in H.
      eapply IH; [exact H|]. eapply Hstep; eassumption.
    + rewrite search_loop_halted in H by exact Hc.
      now injection H as <- <- <-.
Qed.


(** C6: no state is twice in the open and closed lists together.  It
    holds before the loop; closing the best open state keeps it; the
    loop over the children keeps it, also after each child; a turn of
    the loop and the whole loop keep it; and a child that is in one of
    the lists is passed over without any command. *)
Theorem open_and_closed_states_are_distinct :
  no_duplicate_states (initial_search args field_ids)
  /\ (forall st state st1,
        no_duplicate_states st ->
        close_best field_ids st = Ok (state, st1) ->
        no_duplicate_states st1)
  /\ (forall children st resume (w : world env) st' resume' w',
        no_duplicate_states st ->
        expand_children' children st resume w = (Ok (st', resume'), w') ->
        no_duplicate_states st')
  /\ (forall children1 children2 st resume (w : world env),
        expand_children' (children1 ++ children2) st resume w =
        bind (expand_children' children1 st resume)
             (fun r => expand_children' children2 (fst r) (snd r)) w)
  /\ (forall fuel st resume (w : world env) st' resume' w',
        no_duplicate_states st ->
        search_loop' fuel st resume w = (Ok (st', resume'), w') ->
        no_duplicate_states st')
  /\ (forall child children st resume,
        state_in child (open_list st) || state_in child (closed_list st) = true ->
        expand_children' (child :: children) st resume =
        expand_children' children st resume).
Proof.
  split; [|split; [|split; [|split; [|split]]]].
  - unfold no_duplicate_states. cbn. apply NoDup_singleton.
  - apply close_best_no_duplicates.
  - intros children st resume w st' resume' w' Hnd H.
    apply expand_children_inv in H as (_ & _ & _ & _ & _ & H). auto.
  - intros. apply expand_children_app.
  - intros fuel st resume w st' resume' w' Hnd H.
    eapply (search_loop_ind no_duplicate_states); [|exact H|exact Hnd].
    intros s r w0 s' r' w0' Hrun Hs.
    apply search_step_ok_inv in Hrun as (state & st1 & Hclose & Hexp).
    apply expand_children_inv in Hexp as (_ & _ & _ & _ & _ & Hexp).
    apply Hexp. eapply close_best_no_duplicates; eassumption.
  - intros. now apply expand_children_skips.
Qed.

End SearchClaims.

(** ** Best-first search on the small instance *)

Section SearchExamples.

Let sample : Collaborators Sample.files :=
  Sample.collaborators "average_accuracy"
    [("a", 8 # 10); ("b", 7 # 10); ("a,b", 9 # 10)]%Q [].
Let args : Args := Sample.args "accuracy" 0 None None.
Let fields : list string := ["a"; "b"]%string.
Let run (fuel : nat) :=
  search_loop (collaborators := sample) "datasets" args 5 DEFAULT_PENALTY
    fields fuel (initial_search args fields) false (Sample.start ∅).


Lemma open_and_closed_states_are_distinct_witness :
  exists st' resume' w',
    run 10 = (Ok (st', resume'), w')
    /\ no_duplicate_states st'
    /\ length (open_list st' ++ closed_list st') = 4%nat.
Proof.
  destruct (run 10) as [[[st' resume']| | |] w'] eqn:Hrun;
    try (vm_compute in Hrun; discriminate Hrun).
  exists st', resume', w'. split; [reflexivity|].
  pose proof (open_and_closed_states_are_distinct (collaborators := sample)
                "datasets" args 5 DEFAULT_PENALTY fields)
    as (Hinit & _ & _ & _ & Hloop & _).
  split.
  - exact (Hloop 10%nat _ _ _ _ _ _ Hinit Hrun).
  - vm_compute in Hrun. injection Hrun as <- <- <-. reflexivity.
Defined.

End SearchExamples.

(** ** Running again on the ledger of a run *)

Section ReplayLaws.

Context {env : Type} {collaborators : Collaborators env}.

Lemma replays_ext {A} (f f' : bool -> M env (A * bool)) :
  (forall b w, f b w = f' b w) -> replays f -> replays f'.
Proof.
  intros Heq Hf w a b w' Hrun. rewrite <- Heq in Hrun.
  destruct (Hf _ _ _ _ Hrun) as (Hb & new & reads & Hlog & Hreads & Hpure & Hre).
  split; [exact Hb|]. exists new, reads. repeat split; try assumption.
  - now apply Hpure.
  - intros b0 w0. rewrite <- Heq. now apply Hpure.
  - intros Hnew later wr Hl Hs. rewrite <- Heq. now apply Hre.
Qed.

Lemma replays_ret {A} (a : A) :
  replays (fun resume : bool => ret (env := env) (a, resume)).
Proof.
  intros w a' b w' [= <- <- <-]. split; [reflexivity|].
  exists [], []. rewrite !app_nil_r. repeat split; congruence.
Qed.

Lemma replays_fail {A} (o : outcome (A * bool)) :
  (forall x, o <> Ok x) ->
  replays (fun _ : bool => fail (env := env) o).
Proof. intros Ho w a b w' [= H _]. now apply Ho in H. Qed.

(** A step that cannot change the state, then a function that can be
    run again. *)
Lemma replays_after {A X} (o : outcome X) (k : X -> bool -> M env (A * bool)) :
  (forall x, replays (k x)) ->
  replays (fun resume => let* x := fail o in k x resume).
Proof.
  intros Hk. destruct o as [x| | |].
  - eapply replays_ext; [|apply (Hk x)]. reflexivity.
  - intros w a b w' [=].
  - intros w a b w' [=].
  - intros w a b w' [=].
Qed.

Lemma replays_thread {A B}
    (f : bool -> M env (A * bool)) (g : A -> bool -> M env (B * bool)) :
  replays f -> (forall a, replays (g a)) -> replays (thread f g).
Proof.
  intros Hf Hg w c b w' Hrun. unfold thread in Hrun.
  apply bind_ok_inv in Hrun as ([a b1] & w1 & Hrun1 & Hrun2).
  destruct (Hf _ _ _ _ Hrun1)
    as (-> & new1 & reads1 & Hlog1 & Hreads1 & Hpure1 & Hre1).
  destruct (Hg a _ _ _ _ Hrun2)
    as (-> & new2 & reads2 & Hlog2 & Hreads2 & Hpure2 & Hre2).
  split; [reflexivity|]. exists (new1 ++ new2), (reads1 ++ reads2).
  split; [now rewrite Hlog2, Hlog1, app_assoc|].
  split; [now rewrite Hreads2, Hreads1, app_assoc|]. split.
  - intros Hnil. apply app_eq_nil in Hnil as [-> ->].
    destruct (Hpure1 eq_refl) as [-> Hp1].
    destruct (Hpure2 eq_refl) as [-> Hp2].
    split; [reflexivity|]. intros b0 w0. unfold thread, bind.
    rewrite Hp1. apply Hp2.
  - intros Hnew later wr Hlist Hstill.
    apply Forall_app in Hstill as [Hstill1 Hstill2].
    destruct new1 as [|n1 new1].
    + destruct (Hpure1 eq_refl) as [_ Hp1]. cbn [app] in Hnew, Hlist.
      destruct (Hre2 Hnew later wr Hlist Hstill2) as (wr' & Hg' & Hrep).
      exists wr'. split; [|exact Hrep].
      unfold thread, bind. rewrite Hp1. exact Hg'.
    + destruct new2 as [|n2 new2].
      * destruct (Hpure2 eq_refl) as [_ Hp2]. rewrite app_nil_r in Hlist.
        destruct (Hre1 ltac:(discriminate) later wr Hlist Hstill1)
          as (wr' & Hf' & Hrep).
        exists wr'. split; [|exact Hrep].
        unfold thread, bind. rewrite Hf'. apply Hp2.
      * assert (subcommand_list wr
                = rev ((n2 :: new2) ++ later) ++ rev (n1 :: new1)) as Hlist1.
        { rewrite Hlist, !rev_app_distr, app_assoc. reflexivity. }
        destruct (Hre1 ltac:(discriminate) _ wr Hlist1 Hstill1)
          as (wr1 & Hf' & Hl1 & Hlog & Hd1 & Ho1).
        cbn [app resume_after] in Hf', Hd1, Ho1.
        assert (subcommand_list wr1 = rev later ++ rev (n2 :: new2)) as Hlist2.
        { rewrite Hl1, rev_app_distr. reflexivity. }
        rewrite <- Ho1 in Hstill2.
        destruct (Hre2 ltac:(discriminate) later wr1 Hlist2 Hstill2)
          as (wr2 & Hg' & Hl2 & Hlog' & Hrest).
        exists wr2. split.
        -- unfold thread, bind. rewrite Hf'. exact Hg'.
        -- split; [exact Hl2|]. split; [congruence|].
           destruct later; rewrite <- Hd1, <- Ho1; exact Hrest.
Qed.

(** The ledger around one command, then the evaluation it has left:
    the body of [create_kfold_evaluations] and of
    [create_node_th_evaluations]. *)
Lemma replays_issue_command command command_args evaluation_file :
  replays (fun resume =>
             let* resume := issue_command command command_args resume in
             let* evaluation := load_evaluation evaluation_file in
             ret (evaluation, resume)).
Proof.
  intros w evaluation b w' Hrun.
  apply bind_ok_inv in Hrun as (b1 & w1 & Hissue & Hrun).
  apply bind_ok_inv in Hrun as (e & w2 & Hload & Hrun).
  apply ret_ok_inv in Hrun as [[= <- <-] ->].
  rewrite issue_command_fresh in Hissue. injection Hissue as <- <-.
  apply load_evaluation_ok_inv in Hload as [Hread ->]. cbn in Hread.
  split; [reflexivity|]. exists [command], [(evaluation_file, evaluation)].
  split; [reflexivity|]. split; [reflexivity|]. split; [discriminate|].
  intros _ later wr Hlist Hstill.
  apply Forall_cons in Hstill as [[Hnow Hthen] _]. cbn [fst snd] in Hnow, Hthen.
  cbn [rev app] in Hlist.
  pose proof (issue_command_replay command command_args wr _ Hlist) as Hi.
  cbv beta.
  destruct later as [|l later].
  - cbn [rev] in Hi. rewrite (bind_ok _ _ _ _ _ Hi).
    unfold bind, load_evaluation. cbn [outside].
    fold catch_up. rewrite Hthen.
    eexists. split; [reflexivity|]. repeat split.
  - destruct (rev (l :: later)) as [|x rest] eqn:Hrev.
    { apply (f_equal (@length _)) in Hrev. rewrite length_rev in Hrev.
      discriminate Hrev. }
    rewrite (bind_ok _ _ _ _ _ Hi).
    unfold bind, load_evaluation. cbn [outside]. rewrite Hnow.
    eexists. split; [reflexivity|]. repeat split.
    cbn [subcommand_list]. now rewrite Hrev.
Qed.

(** A function that can be run again reproduces its result on its
    ledger. *)
Lemma replays_reproduces {A} (f : bool -> M env (A * bool)) :
  replays f -> replay_reproduces f.
Proof.
  intros Hf w report b w1 new reads Hrun Hlog Hreads Hstill wr Hlist Hout.
  destruct (Hf _ _ _ _ Hrun)
    as (-> & new0 & reads0 & Hlog0 & Hreads0 & Hpure & Hre).
  assert (new0 = new) as -> by (rewrite Hlog in Hlog0; now apply app_inv_head in Hlog0).
  assert (reads0 = reads) as ->
    by (rewrite Hreads in Hreads0; now apply app_inv_head in Hreads0).
  destruct new as [|n new].
  - destruct (Hpure eq_refl) as [_ Hp].
    exists true, wr. rewrite Hp. auto.
  - rewrite <- Hout in Hstill.
    destruct (Hre ltac:(discriminate) [] wr Hlist Hstill)
      as (wr' & Hrun' & _ & Hlog' & Hd & _).
    exists false, wr'. auto.
Qed.

End ReplayLaws.

(** ** The searches can be run again on their ledger *)

Section ReplaySearches.

Context {env : Type} {collaborators : Collaborators env}.

Lemma replays_create_node_th_evaluations datasets_file args node_threshold :
  replays (fun resume =>
             create_node_th_evaluations datasets_file args resume node_threshold).
Proof. apply replays_issue_command. Qed.

Lemma replays_create_kfold_evaluations datasets_file args counter :
  replays (fun resume =>
             create_kfold_evaluations datasets_file args resume counter).
Proof. apply replays_issue_command. Qed.

Lemma replays_node_threshold_evaluate
    datasets_file args node_threshold penalty metric :
  replays (node_threshold_evaluate datasets_file args node_threshold
             penalty metric).
Proof.
  eapply replays_ext;
    [|apply (replays_thread
               (fun resume =>
                  create_node_th_evaluations datasets_file args resume
                    node_threshold)
               (fun evaluation resume =>
                  let evaluation :=
                    extract_evaluation_info evaluation (optimize_category args) in
                  let* (avg_metric, metric_literal) :=
                    fail (resolve_metric evaluation metric) in
                  let* value := fail (getitem evaluation avg_metric) in
                  ret ((invert_of metric
                        * (value - invert_of metric * penalty
                                   * inject_Z node_threshold))%Q,
                       value, metric_literal, resume)))].
  - reflexivity.
  - apply replays_create_node_th_evaluations.
  - intros evaluation. cbv zeta.
    apply replays_after. intros [avg_metric metric_literal].
    apply replays_after. intros value.
    apply replays_ret.
Qed.

Lemma replays_kfold_evaluate datasets_file args counter penalty metric :
  replays (kfold_evaluate datasets_file args counter penalty metric).
Proof.
  eapply replays_ext;
    [|apply (replays_thread
               (fun resume =>
                  create_kfold_evaluations datasets_file
                    (with_output_dir args (kfold_dir datasets_file))
                    resume counter)
               (fun evaluation resume =>
                  let evaluation :=
                    extract_evaluation_info evaluation (optimize_category args) in
                  let* (avg_metric, metric_literal) :=
                    fail (resolve_metric evaluation metric) in
                  let* value := fail (getitem evaluation avg_metric) in
                  match PyStr.split (args_separator args) (model_fields args) with
                  | None => fail (Raise "ValueError")
                  | Some pieces =>
                      ret ((invert_of metric
                            * (value - invert_of metric * penalty
                                       * inject_Z (Z.of_nat (length pieces))))%Q,
                           value, metric_literal, resume)
                  end))].
  - reflexivity.
  - apply replays_create_kfold_evaluations.
  - intros evaluation. cbv zeta.
    apply replays_after. intros [avg_metric metric_literal].
    apply replays_after. intros value.
    destruct (PyStr.split _ _).
    + apply replays_ret.
    + apply replays_fail. discriminate.
Qed.

Lemma replays_sweep_step datasets_file args penalty step st :
  replays (sweep_step datasets_file args penalty step st).
Proof.
  eapply replays_ext;
    [|apply (replays_thread
               (node_threshold_evaluate datasets_file args (node_threshold st)
                  penalty (sweep_metric st))
               (fun r resume =>
                  let '(score, metric_value, metric) := r in
                  let rows : list nodes_row :=
                    nodes_rows st
                    ++ [(S (sweep_loop_counter st), node_threshold st, score,
                         metric_value, sweep_best_score st)] in
                  if num_gtb (num_minus (Fin score) EPSILON) (sweep_best_score st)
                  then
                    ret (Sweep (node_threshold st + step) (Some (node_threshold st))
                               (Fin score) 0 metric (S (sweep_loop_counter st)) rows,
                         resume)
                  else
                    ret (Sweep (node_threshold st + step) (best_threshold st)
                               (sweep_best_score st) (sweep_unchanged_count st + 1)
                               metric (S (sweep_loop_counter st)) rows,
                         resume)))].
  - reflexivity.
  - apply replays_node_threshold_evaluate.
  - intros [[score metric_value] metric]. cbv zeta.
    destruct (num_gtb _ _); apply replays_ret.
Qed.

Lemma replays_sweep_loop datasets_file args staleness penalty bound step fuel :
  forall st,
    replays (sweep_loop datasets_file args staleness penalty bound step fuel st).
Proof.
  induction fuel as [|fuel IH]; intros st.
  - cbn [sweep_loop]. destruct (sweep_continues staleness bound st).
    + apply replays_fail. discriminate.
    + apply replays_ret.
  - destruct (sweep_continues staleness bound st) eqn:Hc.
    + eapply replays_ext;
        [|apply (replays_thread
                   (sweep_step datasets_file args penalty step st)
                   (sweep_loop datasets_file args staleness penalty bound step
                               fuel))].
      * intros b w. cbn [sweep_loop]. rewrite Hc. reflexivity.
      * apply replays_sweep_step.
      * exact IH.
    + eapply replays_ext; [|apply (replays_ret st)].
      intros b w. cbn [sweep_loop]. rewrite Hc. reflexivity.
Qed.

Lemma replays_best_node_threshold fuel datasets_file args staleness penalty :
  replays (best_node_threshold fuel datasets_file args staleness penalty).
Proof.
  unfold best_node_threshold. cbv zeta.
  match goal with
  | |- replays (fun resume => bind (?loop resume) _) =>
      eapply replays_ext;
        [|apply (replays_thread loop
                   (fun st resume =>
                      match best_threshold st with
                      | None => fail (Raise "UnboundLocalError")
                      | Some best_threshold =>
                          ret ({| reported_threshold := best_threshold;
                                  nodes_reported_metric := sweep_metric st;
                                  nodes_reported_value := sweep_best_score st |},
                               resume)
                      end))]
  end.
  - reflexivity.
  - apply replays_sweep_loop.
  - intros st. destruct (best_threshold st).
    + apply replays_ret.
    + apply replays_fail. discriminate.
Qed.

Lemma replays_expand_children datasets_file args penalty field_ids children :
  forall st,
    replays (expand_children datasets_file args penalty field_ids children st).
Proof.
  induction children as [|child children IH]; intros st.
  - apply replays_ret.
  - cbn [expand_children].
    destruct (negb (state_in child (open_list st))
              && negb (state_in child (closed_list st))); [|apply IH].
    apply (replays_after (selected_field_names field_ids child)
             (fun input_fields resume =>
                let* (score, metric_value, metric, resume) :=
                  kfold_evaluate datasets_file
                    (with_model_fields args
                       (PyStr.join (args_separator args) input_fields))
                    (S (counter st)) penalty (metric st) resume in
                expand_children datasets_file args penalty field_ids children
                  (Search (open_list st ++ [(child, Fin score, Fin metric_value)])
                          (closed_list st) (best_state st) (best_score st)
                          (best_metric_value st) (best_unchanged_count st)
                          metric (S (counter st)) (loop_counter st)
                          (features_rows st))
                  resume)).
    intros input_fields.
    eapply replays_ext;
      [|apply (replays_thread
                 (kfold_evaluate datasets_file
                    (with_model_fields args
                       (PyStr.join (args_separator args) input_fields))
                    (S (counter st)) penalty (metric st))
                 (fun r resume =>
                    let '(score, metric_value, metric) := r in
                    expand_children datasets_file args penalty field_ids children
                      (Search (open_list st ++ [(child, Fin score, Fin metric_value)])
                              (closed_list st) (best_state st) (best_score st)
                              (best_metric_value st) (best_unchanged_count st)
                              metric (S (counter st)) (loop_counter st)
                              (features_rows st))
                      resume))].
    + reflexivity.
    + apply replays_kfold_evaluate.
    + intros [[score metric_value] metric]. apply IH.
Qed.

Lemma replays_search_step datasets_file args penalty field_ids st :
  replays (search_step datasets_file args penalty field_ids st).
Proof.
  unfold search_step.
  apply (replays_after (close_best field_ids st)
           (fun r resume =>
              let '(state, st) := r in
              expand_children datasets_file args penalty field_ids
                (expand_state state) st resume)).
  intros [state st1]. apply replays_expand_children.
Qed.

Lemma replays_search_loop datasets_file args staleness penalty field_ids fuel :
  forall st,
    replays (search_loop datasets_file args staleness penalty field_ids fuel st).
Proof.
  induction fuel as [|fuel IH]; intros st.
  - cbn [search_loop]. destruct (search_continues staleness st).
    + apply replays_fail. discriminate.
    + apply replays_ret.
  - destruct (search_continues staleness st) eqn:Hc.
    + eapply replays_ext;
        [|apply (replays_thread
                   (search_step datasets_file args penalty field_ids st)
                   (search_loop datasets_file args staleness penalty field_ids
                                fuel))].
      * intros b w. cbn [search_loop]. rewrite Hc. reflexivity.
      * apply replays_search_step.
      * exact IH.
    + eapply replays_ext; [|apply (replays_ret st)].
      intros b w. cbn [search_loop]. rewrite Hc. reflexivity.
Qed.

Lemma replays_best_first_search
    fuel datasets_file args staleness penalty field_ids :
  replays (best_first_search fuel datasets_file args staleness penalty field_ids).
Proof.
  unfold best_first_search. cbv zeta.
  match goal with
  | |- replays (fun resume => bind (?loop resume) _) =>
      eapply replays_ext;
        [|apply (replays_thread loop
                   (fun st resume =>
                      let* best_features :=
                        fail (selected_field_names field_ids (best_state st)) in
                      ret ({| best_features := best_features;
                              reported_metric := metric st;
                              reported_value := best_metric_value st;
                              evaluated_subsets :=
                                Z.of_nat (length (open_list st))
                                + Z.of_nat (length (closed_list st)) - 1;
                              all_subsets :=
                                2 ^ Z.of_nat (length field_ids) - 1 |},
                           resume)))]
  end.
  - reflexivity.
  - apply replays_search_loop.
  - intros st. apply replays_after. intros best_features. apply replays_ret.
Qed.

(** X1 (the property of C7): a feature search, or a threshold sweep,
    that has completed without resuming is run again with [resume] on
    the ledger it has written, with the same arguments, the evaluations
    it has read being still in their files (also once [main --resume]
    has run).  The run ends with the same report: the same best
    features, or the same best threshold.  It logs no command and runs
    none of them; the dispatcher is called at most once, with
    [main --resume], when the last entry of the ledger has been
    popped. *)
Theorem replay_of_a_completed_run
    fuel datasets_file args staleness penalty :
  (forall field_ids,
     replay_reproduces
       (best_first_search fuel datasets_file args staleness penalty field_ids))
  /\ replay_reproduces
       (best_node_threshold fuel datasets_file args staleness penalty).
Proof.
  split.
  - intros field_ids. apply replays_reproduces, replays_best_first_search.
  - apply replays_reproduces, replays_best_node_threshold.
Qed.

End ReplaySearches.

(** ** More on the ledger *)

Section LedgerFacts.

Context {env : Type} {collaborators : Collaborators env}.

(** X2: [different_command] answers [True] in one case only: the two
    strings differ, the command contains [name=BigMLer_], and the
    strings are equal once the matches of [name=Bigmler_[^\s]+] are
    removed.  In particular it answers [False] for every command
    without [name=BigMLer_]. *)
Theorem different_command_answers next_command command :
  (different_command next_command command = true <->
   next_command <> command
   /\ PyStr.contains "name=BigMLer_" command = true
   /\ re_sub_name next_command = re_sub_name command)
  /\ (PyStr.contains "name=BigMLer_" command = false ->
      different_command next_command command = false).
Proof.
  split; [apply different_command_true|].
  intros H. destruct (different_command next_command command) eqn:E;
    [|reflexivity].
  apply different_command_true in E as (_ & E & _). congruence.
Qed.

Lemma different_command_answers_witness :
  different_command "main --a 1" "main --b 2" = false.
Proof.
  apply (proj2 (different_command_answers "main --a 1" "main --b 2")).
  reflexivity.
Defined.

(** X3: Resuming on an empty ledger: [subcommand_list.pop()] raises
    [IndexError], before anything is logged, run or read. *)
Theorem resume_on_empty_ledger_raises
    datasets_file args counter node_threshold (w : world env) :
  subcommand_list w = [] ->
  create_kfold_evaluations datasets_file args true counter w
    = (Raise "IndexError", w)
  /\ create_node_th_evaluations datasets_file args true node_threshold w
     = (Raise "IndexError", w).
Proof.
  intros H.
  unfold create_kfold_evaluations, create_node_th_evaluations, issue_command,
    bind, pop_subcommand.
  rewrite H. split; reflexivity.
Qed.

(** X4: Not resuming, a command is appended to the ledger and run, and
    the evaluation returned is the one the command has left in its
    file; when the file cannot be read, the call exits, with the
    command logged and run all the same.  [resume] stays [False]. *)
Theorem fresh_command_is_logged_and_run
    datasets_file args counter (w : world env) :
  let command_args := cv_command_args datasets_file args counter in
  let file := evaluation_path (cv_output_dir args counter) in
  let after :=
    World (subcommand_list w)
          (subcommand_log w ++ [rebuild_command command_args])
          (dispatched w ++ [command_args]) (evaluations_read w)
          (main_dispatcher command_args (outside w)) in
  create_kfold_evaluations datasets_file args false counter w =
  match read_json file (outside after) with
  | Some evaluation =>
      (Ok (evaluation, false),
       World (subcommand_list w)
             (subcommand_log w ++ [rebuild_command command_args])
             (dispatched w ++ [command_args])
             (evaluations_read w ++ [(file, evaluation)])
             (main_dispatcher command_args (outside w)))
  | None => (Exit "Failed to retrieve evaluation.", after)
  end.
Proof.
  cbv zeta. unfold create_kfold_evaluations.
  unfold bind at 1. rewrite issue_command_fresh.
  unfold bind, load_evaluation. cbn [outside subcommand_list subcommand_log
    dispatched evaluations_read].
  destruct (read_json _ _); reflexivity.
Qed.

(** X5: Resuming on the very command that is next in the ledger: the
    command is not logged and not run; the evaluation is read from the
    file as it is.  When the entry was the last one, [main --resume] is
    run first and [resume] becomes [False]; otherwise [resume] stays
    [True]. *)
Theorem resumed_command_is_not_run
    datasets_file args node_threshold (w : world env) rest :
  let command_args := node_th_command_args datasets_file args node_threshold in
  let file := evaluation_path (node_th_output_dir args node_threshold) in
  subcommand_list w = rest ++ [rebuild_command command_args] ->
  forall evaluation resume' w',
    create_node_th_evaluations datasets_file args true node_threshold w
      = (Ok (evaluation, resume'), w') ->
    subcommand_list w' = rest
    /\ subcommand_log w' = subcommand_log w
    /\ resume' = resume_after rest
    /\ match rest with
       | [] =>
           dispatched w' = dispatched w ++ [catch_up]
           /\ read_json file (main_dispatcher catch_up (outside w))
              = Some evaluation
       | _ =>
           dispatched w' = dispatched w
           /\ outside w' = outside w
           /\ read_json file (outside w) = Some evaluation
       end.
Proof.
  cbv zeta. intros Hlist evaluation resume' w' Hrun.
  unfold create_node_th_evaluations in Hrun.
  apply bind_ok_inv in Hrun as (r & w1 & Hissue & Hrun).
  apply bind_ok_inv in Hrun as (e & w2 & Hload & Hrun).
  apply ret_ok_inv in Hrun as [[= -> ->] ->].
  rewrite (issue_command_replay _ _ _ _ Hlist) in Hissue.
  apply load_evaluation_ok_inv in Hload as [Hread ->].
  destruct rest as [|x rest]; injection Hissue as <- <-;
    cbn in Hread |- *; auto 10.
Qed.

End LedgerFacts.

(** ** What holds of every function of [resume] of the engine *)

Section StepsLaws.

Context {env : Type} {collaborators : Collaborators env}.
Variable P : forall A : Type, (bool -> M env (A * bool)) -> Prop.
Hypothesis HP : kept_by_the_steps P.

Lemma step_after {A X} (o : outcome X) (k : X -> bool -> M env (A * bool)) :
  (forall x, P A (k x)) ->
  P A (fun resume => let* x := fail o in k x resume).
Proof.
  intros Hk. destruct o as [x|message|exception|].
  - eapply (step_ext P HP); [|apply (Hk x)]. reflexivity.
  - eapply (step_ext P HP); [|apply (step_fail P HP A (Exit message))];
      [reflexivity|discriminate].
  - eapply (step_ext P HP); [|apply (step_fail P HP A (Raise exception))];
      [reflexivity|discriminate].
  - eapply (step_ext P HP); [|apply (step_fail P HP A OutOfFuel)];
      [reflexivity|discriminate].
Qed.

Lemma step_node_threshold_evaluate
    datasets_file args node_threshold penalty metric :
  P _ (node_threshold_evaluate datasets_file args node_threshold penalty metric).
Proof.
  eapply (step_ext P HP);
    [|apply (step_thread P HP _ _
               (fun resume =>
                  create_node_th_evaluations datasets_file args resume
                    node_threshold)
               (fun evaluation resume =>
                  let evaluation :=
                    extract_evaluation_info evaluation (optimize_category args) in
                  let* (avg_metric, metric_literal) :=
                    fail (resolve_metric evaluation metric) in
                  let* value := fail (getitem evaluation avg_metric) in
                  ret ((invert_of metric
                        * (value - invert_of metric * penalty
                                   * inject_Z node_threshold))%Q,
                       value, metric_literal, resume)))].
  - reflexivity.
  - apply (step_issue P HP).
  - intros evaluation. cbv zeta.
    apply step_after. intros [avg_metric metric_literal].
    apply step_after. intros value.
    apply (step_ret P HP).
Qed.

Lemma step_kfold_evaluate datasets_file args counter penalty metric :
  P _ (kfold_evaluate datasets_file args counter penalty metric).
Proof.
  eapply (step_ext P HP);
    [|apply (step_thread P HP _ _
               (fun resume =>
                  create_kfold_evaluations datasets_file
                    (with_output_dir args (kfold_dir datasets_file))
                    resume counter)
               (fun evaluation resume =>
                  let evaluation :=
                    extract_evaluation_info evaluation (optimize_category args) in
                  let* (avg_metric, metric_literal) :=
                    fail (resolve_metric evaluation metric) in
                  let* value := fail (getitem evaluation avg_metric) in
                  match PyStr.split (args_separator args) (model_fields args) with
                  | None => fail (Raise "ValueError")
                  | Some pieces =>
                      ret ((invert_of metric
                            * (value - invert_of metric * penalty
                                       * inject_Z (Z.of_nat (length pieces))))%Q,
                           value, metric_literal, resume)
                  end))].
  - reflexivity.
  - apply (step_issue P HP).
  - intros evaluation. cbv zeta.
    apply step_after. intros [avg_metric metric_literal].
    apply step_after. intros value.
    destruct (PyStr.split _ _).
    + apply (step_ret P HP).
    + apply (step_fail P HP). discriminate.
Qed.

Lemma step_sweep_step datasets_file args penalty step st :
  P _ (sweep_step datasets_file args penalty step st).
Proof.
  eapply (step_ext P HP);
    [|apply (step_thread P HP _ _
               (node_threshold_evaluate datasets_file args (node_threshold st)
                  penalty (sweep_metric st))
               (fun r resume =>
                  let '(score, metric_value, metric) := r in
                  let rows : list nodes_row :=
                    nodes_rows st
                    ++ [(S (sweep_loop_counter st), node_threshold st, score,
                         metric_value, sweep_best_score st)] in
                  if num_gtb (num_minus (Fin score) EPSILON) (sweep_best_score st)
                  then
                    ret (Sweep (node_threshold st + step) (Some (node_threshold st))
                               (Fin score) 0 metric (S (sweep_loop_counter st)) rows,
                         resume)
                  else
                    ret (Sweep (node_threshold st + step) (best_threshold st)
                               (sweep_best_score st) (sweep_unchanged_count st + 1)
                               metric (S (sweep_loop_counter st)) rows,
                         resume)))].
  - reflexivity.
  - apply step_node_threshold_evaluate.
  - intros [[score metric_value] metric]. cbv zeta.
    destruct (num_gtb _ _); apply (step_ret P HP).
Qed.

Lemma step_sweep_loop datasets_file args staleness penalty bound step fuel :
  forall st,
    P _ (sweep_loop datasets_file args staleness penalty bound step fuel st).
Proof.
  induction fuel as [|fuel IH]; intros st.
  - cbn [sweep_loop]. destruct (sweep_continues staleness bound st).
    + apply (step_fail P HP). discriminate.
    + apply (step_ret P HP).
  - destruct (sweep_continues staleness bound st) eqn:Hc.
    + eapply (step_ext P HP);
        [|apply (step_thread P HP _ _
                   (sweep_step datasets_file args penalty step st)
                   (sweep_loop datasets_file args staleness penalty bound step
                               fuel))].
      * intros b w. cbn [sweep_loop]. rewrite Hc. reflexivity.
      * apply step_sweep_step.
      * exact IH.
    + eapply (step_ext P HP); [|apply (step_ret P HP _ st)].
      intros b w. cbn [sweep_loop]. rewrite Hc. reflexivity.
Qed.

Lemma step_best_node_threshold fuel datasets_file args staleness penalty :
  P _ (best_node_threshold fuel datasets_file args staleness penalty).
Proof.
  unfold best_node_threshold. cbv zeta.
  match goal with
  | |- P _ (fun resume => bind (?loop resume) _) =>
      eapply (step_ext P HP);
        [|apply (step_thread P HP _ _ loop
                   (fun st resume =>
                      match best_threshold st with
                      | None => fail (Raise "UnboundLocalError")
                      | Some best_threshold =>
                          ret ({| reported_threshold := best_threshold;
                                  nodes_reported_metric := sweep_metric st;
                                  nodes_reported_value := sweep_best_score st |},
                               resume)
                      end))]
  end.
  - reflexivity.
  - apply step_sweep_loop.
  - intros st. destruct (best_threshold st).
    + apply (step_ret P HP).
    + apply (step_fail P HP). discriminate.
Qed.

Lemma step_expand_children datasets_file args penalty field_ids children :
  forall st,
    P _ (expand_children datasets_file args penalty field_ids children st).
Proof.
  induction children as [|child children IH]; intros st.
  - apply (step_ret P HP).
  - cbn [expand_children].
    destruct (negb (state_in child (open_list st))
              && negb (state_in child (closed_list st))); [|apply IH].
    apply (step_after (selected_field_names field_ids child)
             (fun input_fields resume =>
                let* (score, metric_value, metric, resume) :=
                  kfold_evaluate datasets_file
                    (with_model_fields args
                       (PyStr.join (args_separator args) input_fields))
                    (S (counter st)) penalty (metric st) resume in
                expand_children datasets_file args penalty field_ids children
                  (Search (open_list st ++ [(child, Fin score, Fin metric_value)])
                          (closed_list st) (best_state st) (best_score st)
                          (best_metric_value st) (best_unchanged_count st)
                          metric (S (counter st)) (loop_counter st)
                          (features_rows st))
                  resume)).
    intros input_fields.
    eapply (step_ext P HP);
      [|apply (step_thread P HP _ _
                 (kfold_evaluate datasets_file
                    (with_model_fields args
                       (PyStr.join (args_separator args) input_fields))
                    (S (counter st)) penalty (metric st))
                 (fun r resume =>
                    let '(score, metric_value, metric) := r in
                    expand_children datasets_file args penalty field_ids children
                      (Search (open_list st ++ [(child, Fin score, Fin metric_value)])
                              (closed_list st) (best_state st) (best_score st)
                              (best_metric_value st) (best_unchanged_count st)
                              metric (S (counter st)) (loop_counter st)
                              (features_rows st))
                      resume))].
    + reflexivity.
    + apply step_kfold_evaluate.
    + intros [[score metric_value] metric]. apply IH.
Qed.

Lemma step_search_step datasets_file args penalty field_ids st :
  P _ (search_step datasets_file args penalty field_ids st).
Proof.
  unfold search_step.
  apply (step_after (close_best field_ids st)
           (fun r resume =>
              let '(state, st) := r in
              expand_children datasets_file args penalty field_ids
                (expand_state state) st resume)).
  intros [state st1]. apply step_expand_children.
Qed.

Lemma step_search_loop datasets_file args staleness penalty field_ids fuel :
  forall st,
    P _ (search_loop datasets_file args staleness penalty field_ids fuel st).
Proof.
  induction fuel as [|fuel IH]; intros st.
  - cbn [search_loop]. destruct (search_continues staleness st).
    + apply (step_fail P HP). discriminate.
    + apply (step_ret P HP).
  - destruct (search_continues staleness st) eqn:Hc.
    + eapply (step_ext P HP);
        [|apply (step_thread P HP _ _
                   (search_step datasets_file args penalty field_ids st)
                   (search_loop datasets_file args staleness penalty field_ids
                                fuel))].
      * intros b w. cbn [search_loop]. rewrite Hc. reflexivity.
      * apply step_search_step.
      * exact IH.
    + eapply (step_ext P HP); [|apply (step_ret P HP _ st)].
      intros b w. cbn [search_loop]. rewrite Hc. reflexivity.
Qed.

Lemma step_best_first_search
    fuel datasets_file args staleness penalty field_ids :
  P _ (best_first_search fuel datasets_file args staleness penalty field_ids).
Proof.
  unfold best_first_search. cbv zeta.
  match goal with
  | |- P _ (fun resume => bind (?loop resume) _) =>
      eapply (step_ext P HP);
        [|apply (step_thread P HP _ _ loop
                   (fun st resume =>
                      let* best_features :=
                        fail (selected_field_names field_ids (best_state st)) in
                      ret ({| best_features := best_features;
                              reported_metric := metric st;
                              reported_value := best_metric_value st;
                              evaluated_subsets :=
                                Z.of_nat (length (open_list st))
                                + Z.of_nat (length (closed_list st)) - 1;
                              all_subsets :=
                                2 ^ Z.of_nat (length field_ids) - 1 |},
                           resume)))]
  end.
  - reflexivity.
  - apply step_search_loop.
  - intros st. apply step_after. intros best_features. apply (step_ret P HP).
Qed.

End StepsLaws.

Section FreshRuns.

Context {env : Type} {collaborators : Collaborators env}.

Lemma logs_what_it_runs_kept : kept_by_the_steps (@logs_what_it_runs env).
Proof.
  split.
  - intros A f f' Heq Hf w a b w' Hrun. rewrite <- Heq in Hrun.
    exact (Hf _ _ _ _ Hrun).
  - intros A a w a' b w' [= <- <- <-]. split; [reflexivity|].
    split; [reflexivity|]. exists [], []. cbn. rewrite !app_nil_r. auto.
  - intros A o Ho w a b w' [= H _]. now apply Ho in H.
  - intros A B f g Hf Hg w c b w' Hrun. unfold thread in Hrun.
    apply bind_ok_inv in Hrun as ([a b1] & w1 & Hrun1 & Hrun2).
    destruct (Hf _ _ _ _ Hrun1)
      as (-> & Hl1 & c1 & r1 & Hlog1 & Hd1 & Hr1 & Hn1).
    destruct (Hg a _ _ _ _ Hrun2)
      as (-> & Hl2 & c2 & r2 & Hlog2 & Hd2 & Hr2 & Hn2).
    split; [reflexivity|]. split; [congruence|].
    exists (c1 ++ c2), (r1 ++ r2).
    rewrite Hlog2, Hlog1, Hd2, Hd1, Hr2, Hr1, map_app, !app_assoc,
      !length_app.
    auto.
  - intros command_args evaluation_file w evaluation b w' Hrun.
    apply bind_ok_inv in Hrun as (b1 & w1 & Hissue & Hrun).
    apply bind_ok_inv in Hrun as (e & w2 & Hload & Hrun).
    apply ret_ok_inv in Hrun as [[= <- <-] ->].
    rewrite issue_command_fresh in Hissue. injection Hissue as <- <-.
    apply load_evaluation_ok_inv in Hload as [Hread ->].
    split; [reflexivity|]. split; [reflexivity|].
    exists [command_args], [(evaluation_file, evaluation)]. auto.
Qed.

(** X6: Not resuming, a search that completes has logged the commands it
    has run, in the order it has run them, and has read one evaluation
    for each; [resume] is still [False] at the end. *)
Theorem fresh_search_logs_what_it_runs
    fuel datasets_file args staleness penalty :
  (forall field_ids,
     logs_what_it_runs _
       (best_first_search fuel datasets_file args staleness penalty field_ids))
  /\ logs_what_it_runs _
       (best_node_threshold fuel datasets_file args staleness penalty).
Proof.
  split.
  - intros field_ids. apply step_best_first_search, logs_what_it_runs_kept.
  - apply step_best_node_threshold, logs_what_it_runs_kept.
Qed.

End FreshRuns.

(** ** The best open state and the neighbours of a state *)

Section States.

Lemma num_gtb_false a b : num_gtb a b = false <-> num_le a b.
Proof.
  destruct a as [|x], b as [|y]; cbn; try tauto.
  - split; [discriminate|contradiction].
  - unfold Qgtb. rewrite negb_false_iff. apply Qle_bool_iff.
Qed.

Lemma num_gtb_le a b : num_gtb a b = true -> num_le b a.
Proof.
  destruct a as [|x], b as [|y]; cbn; try tauto; try discriminate.
  rewrite Qgtb_lt. apply Qlt_le_weak.
Qed.

(** What the loop of [find_max_state] keeps: once an element has been
    chosen, it is one of those seen, and none of them scores more. *)
Lemma find_max_state_fold l :
  forall seen (acc : option (list bool) * num * num),
    match acc with
    | (None, score, _) => seen = [] /\ score = NegInf
    | (Some state, score, metric_value) =>
        (state, score, metric_value) ∈ seen
        /\ forall x, x ∈ seen -> num_le (score_of x) score
    end ->
    match
      fold_left
        (fun acc elt =>
           let '(max_state, max_score, max_metric_value) := acc in
           let '(state, score, metric_value) := elt in
           if num_gtb score max_score
              || (match max_state with None => true | Some _ => false end
                  && num_eqb max_score score)
           then (Some state, score, metric_value)
           else acc)
        l acc
    with
    | (None, score, _) => seen ++ l = [] /\ score = NegInf
    | (Some state, score, metric_value) =>
        (state, score, metric_value) ∈ seen ++ l
        /\ forall x, x ∈ seen ++ l -> num_le (score_of x) score
    end.
Proof.
  induction l as [|[[state score] metric_value] l IH]; intros seen acc Hacc.
  - cbn [fold_left]. rewrite app_nil_r. exact Hacc.
  - cbn [fold_left].
    replace (seen ++ (state, score, metric_value) :: l)
      with ((seen ++ [(state, score, metric_value)]) ++ l)
      by (now rewrite <- app_assoc).
    apply IH. destruct acc as [[[max_state|] max_score] max_metric_value].
    + cbn [andb orb]. rewrite orb_false_r.
      destruct Hacc as [Hin Hmax].
      destruct (num_gtb score max_score) eqn:E.
      * split; [apply elem_of_app; right; left|].
        intros x Hx. apply elem_of_app in Hx as [Hx|Hx].
        -- eapply num_le_trans; [apply Hmax, Hx|now apply num_gtb_le].
        -- apply list_elem_of_singleton in Hx as ->. apply num_le_refl.
      * split; [apply elem_of_app; now left|].
        intros x Hx. apply elem_of_app in Hx as [Hx|Hx].
        -- now apply Hmax.
        -- apply list_elem_of_singleton in Hx as ->.
           now apply num_gtb_false.
    + destruct Hacc as [-> ->].
      assert (num_gtb score NegInf || (true && num_eqb NegInf score) = true)
        as -> by (destruct score; reflexivity).
      split; [left|].
      intros x Hx. apply list_elem_of_singleton in Hx as ->. apply num_le_refl.
Qed.

Lemma find_max_state_spec (states_list : list scored_state) :
  match find_max_state states_list with
  | (None, score, metric_value) =>
      states_list = [] /\ score = NegInf /\ metric_value = NegInf
  | (Some state, score, metric_value) =>
      (state, score, metric_value) ∈ states_list
      /\ forall x, x ∈ states_list -> num_le (score_of x) score
  end.
Proof.
  destruct states_list as [|x l].
  - cbn. auto.
  - pose proof (find_max_state_fold (x :: l) [] (None, NegInf, NegInf)
                  (conj eq_refl eq_refl)) as H.
    unfold find_max_state. cbn [app] in H. revert H.
    match goal with
    | |- context [fold_left ?f ?l ?a] =>
        destruct (fold_left f l a) as [[[state|] score] metric_value]
    end.
    + trivial.
    + intros [H _]. discriminate H.
Qed.

(** X7: [find_max_state]: on the empty list it returns
    [(None, -inf, -inf)]; otherwise it returns an element of the list,
    and no element of the list has a greater score. *)
Theorem find_max_state_is_a_maximum (states_list : list scored_state) :
  match find_max_state states_list with
  | (None, score, metric_value) =>
      states_list = [] /\ score = NegInf /\ metric_value = NegInf
  | (Some state, score, metric_value) =>
      (state, score, metric_value) ∈ states_list
      /\ forall x, x ∈ states_list -> num_le (score_of x) score
  end.
Proof. apply find_max_state_spec. Qed.

Lemma expand_state_spec (parent : list bool) :
  length (expand_state parent) = length parent
  /\ (forall i child,
        expand_state parent !! i = Some child <->
        exists b, parent !! i = Some b /\ child = <[i := negb b]> parent)
  /\ (forall child, child ∈ expand_state parent ->
        length child = length parent /\ child <> parent)
  /\ NoDup (expand_state parent).
Proof.
  assert (forall i child,
        expand_state parent !! i = Some child <->
        exists b, parent !! i = Some b /\ child = <[i := negb b]> parent)
    as Hlookup.
  { intros i child. unfold expand_state.
    rewrite list_lookup_fmap. split.
    - intros H. destruct (seq 0 (length parent) !! i) as [j|] eqn:Hj;
        [|discriminate H].
      apply lookup_seq in Hj as [-> Hlt]. cbn in H. injection H as <-.
      destruct (lookup_lt_is_Some_2 parent i Hlt) as [b Hb].
      exists b. split; [exact Hb|].
      apply list_eq. intros k. rewrite list_lookup_alter.
      destruct (decide (i = k)) as [<-|Hne].
      + rewrite list_lookup_insert_eq by exact Hlt. now rewrite Hb.
      + now rewrite list_lookup_insert_ne by exact Hne.
    - intros (b & Hb & ->).
      assert (i < length parent) as Hlt by (eapply lookup_lt_Some; eassumption).
      rewrite (proj2 (lookup_seq 0 (length parent) i i) (conj eq_refl Hlt)).
      cbn. f_equal.
      apply list_eq. intros k. rewrite list_lookup_alter.
      destruct (decide (i = k)) as [<-|Hne].
      + rewrite list_lookup_insert_eq by exact Hlt. now rewrite Hb.
      + now rewrite list_lookup_insert_ne by exact Hne. }
  split; [unfold expand_state; now rewrite length_map, length_seq|].
  split; [exact Hlookup|]. split.
  - intros child Hin. apply list_elem_of_lookup in Hin as [i Hi].
    apply Hlookup in Hi as (b & Hb & ->).
    split; [apply length_insert|].
    intros Heq. apply (f_equal (fun l => l !! i)) in Heq.
    rewrite list_lookup_insert_eq in Heq
      by (eapply lookup_lt_Some; eassumption).
    rewrite Hb in Heq. destruct b; discriminate Heq.
  - apply NoDup_alt. intros i j child Hi Hj.
    apply Hlookup in Hi as (b & Hb & ->).
    apply Hlookup in Hj as (c & Hc & Heq).
    destruct (decide (i = j)) as [|Hne]; [assumption|exfalso].
    apply (f_equal (fun l => l !! i)) in Heq.
    rewrite list_lookup_insert_eq in Heq
      by (eapply lookup_lt_Some; eassumption).
    rewrite list_lookup_insert_ne in Heq by auto.
    rewrite Hb in Heq. destruct b; discriminate Heq.
Qed.

(** X8: [expand_state]: the children of a state are the states obtained by
    negating one of its entries, one child for each entry, in order;
    they have the length of the parent, differ from it and from each
    other. *)
Theorem expand_state_toggles_one_entry (parent : list bool) :
  length (expand_state parent) = length parent
  /\ (forall i child,
        expand_state parent !! i = Some child <->
        exists b, parent !! i = Some b /\ child = <[i := negb b]> parent)
  /\ (forall child, child ∈ expand_state parent ->
        length child = length parent /\ child <> parent)
  /\ NoDup (expand_state parent).
Proof. apply expand_state_spec. Qed.

End States.

Section ReplayExamples.

Let by_features : Collaborators Sample.files :=
  Sample.collaborators "average_accuracy"
    [("a", 8 # 10); ("b", 7 # 10); ("a,b", 9 # 10)]%Q [].
Let by_nodes : Collaborators Sample.files :=
  Sample.collaborators "average_accuracy"
    [("3", 9 # 10); ("103", 95 # 100)]%Q [].
Let feature_args : Args := Sample.args "accuracy" 0 None None.
Let node_args : Args := Sample.args "accuracy" 103 None None.
Let fields : list string := ["a"; "b"]%string.

Let search (resume : bool) :=
  best_first_search (collaborators := by_features) 10 "datasets" feature_args
    None None fields resume.
Let sweep (resume : bool) :=
  best_node_threshold (collaborators := by_nodes) 10 "datasets" node_args
    None None resume.
Let searched : world Sample.files := snd (search false (Sample.start ∅)).
Let swept : world Sample.files := snd (sweep false (Sample.start ∅)).

Lemma replay_of_a_completed_run_witness :
  (exists report b' wr',
     fst (search false (Sample.start ∅)) = Ok (report, false)
     /\ search true (Sample.restart searched) = (Ok (report, b'), wr')
     /\ subcommand_log wr' = subcommand_log (Sample.restart searched)
     /\ (dispatched wr' = dispatched (Sample.restart searched)
         \/ dispatched wr' = dispatched (Sample.restart searched) ++ [catch_up]))
  /\ (exists report b' wr',
        fst (sweep false (Sample.start ∅)) = Ok (report, false)
        /\ sweep true (Sample.restart swept) = (Ok (report, b'), wr')
        /\ subcommand_log wr' = subcommand_log (Sample.restart swept)
        /\ (dispatched wr' = dispatched (Sample.restart swept)
            \/ dispatched wr' = dispatched (Sample.restart swept) ++ [catch_up])).
Proof.
  split.
  - pose (report := match fst (search false (Sample.start ∅)) with
                    | Ok (r, _) => r
                    | _ => Build_features_report [] "" NegInf 0 0
                    end).
    assert (search false (Sample.start ∅) = (Ok (report, false), searched))
      as Hrun by (vm_compute; reflexivity).
    destruct (proj1 (replay_of_a_completed_run (collaborators := by_features)
                       10 "datasets" feature_args None None) fields
                (Sample.start ∅) report false searched
                (subcommand_log searched) (evaluations_read searched) Hrun)
      with (wr := Sample.restart searched) as (b' & wr' & Hre & Hlog & Hd).
    + vm_compute. reflexivity.
    + vm_compute. reflexivity.
    + vm_compute. repeat (constructor; [split; reflexivity|]). constructor.
    + reflexivity.
    + reflexivity.
    + exists report, b', wr'. rewrite Hrun. auto.
  - pose (report := match fst (sweep false (Sample.start ∅)) with
                    | Ok (r, _) => r
                    | _ => Build_nodes_report 0 "" NegInf
                    end).
    assert (sweep false (Sample.start ∅) = (Ok (report, false), swept))
      as Hrun by (vm_compute; reflexivity).
    destruct (proj2 (replay_of_a_completed_run (collaborators := by_nodes)
                       10 "datasets" node_args None None)
                (Sample.start ∅) report false swept
                (subcommand_log swept) (evaluations_read swept) Hrun)
      with (wr := Sample.restart swept) as (b' & wr' & Hre & Hlog & Hd).
    + vm_compute. reflexivity.
    + vm_compute. reflexivity.
    + vm_compute. repeat (constructor; [split; reflexivity|]). constructor.
    + reflexivity.
    + reflexivity.
    + exists report, b', wr'. rewrite Hrun. auto.
Defined.

End ReplayExamples.

(** ** The ledger and the states on the small instance *)

Section LedgerExamples.

Let by_features : Collaborators Sample.files :=
  Sample.collaborators "average_accuracy"
    [("a", 8 # 10); ("b", 7 # 10); ("a,b", 9 # 10)]%Q [].
Let by_nodes : Collaborators Sample.files :=
  Sample.collaborators "average_accuracy"
    [("3", 9 # 10); ("103", 95 # 100)]%Q [].
Let feature_args : Args := Sample.args "accuracy" 0 None None.
Let node_args : Args := Sample.args "accuracy" 103 None None.
Let fields : list string := ["a"; "b"]%string.
Let search (resume : bool) :=
  best_first_search (collaborators := by_features) 10 "datasets" feature_args
    None None fields resume.
Let sweep (resume : bool) :=
  best_node_threshold (collaborators := by_nodes) 10 "datasets" node_args
    None None resume.
Let searched : world Sample.files := snd (search false (Sample.start ∅)).
Let swept : world Sample.files := snd (sweep false (Sample.start ∅)).

(** The state of a process that resumes on a ledger of one command,
    whose evaluation is in its file. *)
Let last_entry : world Sample.files :=
  World [rebuild_command ["main"; "out3"; "3"]]%string [] [] []
        {[ "out3"%string := Sample.evaluation_with "average_accuracy" (9 # 10) ]}.

Lemma resume_on_empty_ledger_raises_witness :
  create_kfold_evaluations (collaborators := by_features) "datasets"
    feature_args true 1 (Sample.start ∅)
  = (Raise "IndexError", Sample.start ∅).
Proof.
  exact (proj1 (resume_on_empty_ledger_raises (collaborators := by_features)
                  "datasets" feature_args 1%nat 3%Z (Sample.start ∅) eq_refl)).
Defined.

Lemma resumed_command_is_not_run_witness :
  subcommand_list
    (snd (create_node_th_evaluations (collaborators := by_nodes) "datasets"
            node_args true 3 last_entry)) = []
  /\ subcommand_log
       (snd (create_node_th_evaluations (collaborators := by_nodes) "datasets"
               node_args true 3 last_entry)) = []
  /\ dispatched
       (snd (create_node_th_evaluations (collaborators := by_nodes) "datasets"
               node_args true 3 last_entry)) = [catch_up].
Proof.
  destruct (resumed_command_is_not_run (collaborators := by_nodes) "datasets"
              node_args 3%Z last_entry [] eq_refl
              (Sample.evaluation_with "average_accuracy" (9 # 10)) false
              (snd (create_node_th_evaluations (collaborators := by_nodes)
                      "datasets" node_args true 3 last_entry)))
    as (H1 & H2 & _ & H3 & _).
  - vm_compute. reflexivity.
  - auto.
Defined.

Lemma fresh_search_logs_what_it_runs_witness :
  (exists commands,
     subcommand_log searched = List.map rebuild_command commands
     /\ dispatched searched = commands
     /\ length (evaluations_read searched) = length commands)
  /\ (exists commands,
        subcommand_log swept = List.map rebuild_command commands
        /\ dispatched swept = commands
        /\ length (evaluations_read swept) = length commands).
Proof.
  split.
  - pose (report := match fst (search false (Sample.start ∅)) with
                    | Ok (r, _) => r
                    | _ => Build_features_report [] "" NegInf 0 0
                    end).
    destruct (proj1 (fresh_search_logs_what_it_runs
                       (collaborators := by_features) 10 "datasets"
                       feature_args None None) fields
                (Sample.start ∅) report false searched)
      as (_ & _ & commands & reads & Hlog & Hd & Hr & Hn).
    + vm_compute. reflexivity.
    + exists commands. rewrite Hr. auto.
  - pose (report := match fst (sweep false (Sample.start ∅)) with
                    | Ok (r, _) => r
                    | _ => Build_nodes_report 0 "" NegInf
                    end).
    destruct (proj2 (fresh_search_logs_what_it_runs
                       (collaborators := by_nodes) 10 "datasets"
                       node_args None None)
                (Sample.start ∅) report false swept)
      as (_ & _ & commands & reads & Hlog & Hd & Hr & Hn).
    + vm_compute. reflexivity.
    + exists commands. rewrite Hr. auto.
Defined.

Lemma find_max_state_is_a_maximum_witness :
  find_max_state
    [([true; false], Fin (1 # 2), Fin (1 # 2));
     ([false; true], Fin (3 # 4), Fin (3 # 4));
     ([true; true], Fin (3 # 4), Fin (3 # 4))]
  = (Some [false; true], Fin (3 # 4), Fin (3 # 4))
  /\ forall x,
       x ∈ [([true; false], Fin (1 # 2), Fin (1 # 2));
            ([false; true], Fin (3 # 4), Fin (3 # 4));
            ([true; true], Fin (3 # 4), Fin (3 # 4))] ->
       num_le (score_of x) (Fin (3 # 4)).
Proof.
  split; [reflexivity|].
  exact (proj2 (find_max_state_is_a_maximum
                  [([true; false], Fin (1 # 2), Fin (1 # 2));
                   ([false; true], Fin (3 # 4), Fin (3 # 4));
                   ([true; true], Fin (3 # 4), Fin (3 # 4))])).
Defined.

Lemma expand_state_toggles_one_entry_witness :
  expand_state [true; false; false]
  = [[false; false; false]; [true; true; false]; [true; false; true]]
  /\ [true; true; false] <> [true; false; false].
Proof.
  split; [reflexivity|].
  apply (proj1 (proj2 (proj2 (expand_state_toggles_one_entry
                                [true; false; false])))
               [true; true; false]).
  right. left.
Defined.

End LedgerExamples.

(** ** The sweep: the thresholds it visits and the best one *)

Section SweepInvariant.

Context {env : Type} {collaborators : Collaborators env}.

Lemma exceeds_by_mono score best best' :
  num_le best best' ->
  exceeds_by score best' EPSILON -> exceeds_by score best EPSILON.
Proof.
  destruct score as [|s], best as [|b], best' as [|b']; cbn; try tauto.
  intros H1 H2. lra.
Qed.

Lemma not_exceeds_by_itself score : ~ exceeds_by score score EPSILON.
Proof.
  destruct score as [|s]; cbn; [tauto|]. unfold EPSILON. intros H. lra.
Qed.

Variable datasets_file : string.
Variable args : Args.
Variable staleness : Z.
Variable penalty : Q.
Variable bound : Z.
Variable step : Z.

(** An induction principle for the runs of the sweep that succeed. *)
Lemma sweep_loop_ind (P : sweep -> Prop) :
  (forall st resume (w : world env) st' resume' w',
     sweep_continues staleness bound st = true ->
     sweep_step datasets_file args penalty step st resume w
       = (Ok (st', resume'), w') ->
     P st -> P st') ->
  forall fuel st resume (w : world env) st' resume' w',
    sweep_loop datasets_file args staleness penalty bound step fuel st resume w
      = (Ok (st', resume'), w') ->
    P st -> P st' /\ sweep_continues staleness bound st' = false.
Proof.
  intros Hstep. induction fuel as [|fuel IH];
    intros st resume w st' resume' w' H HP.
  - cbn in H. destruct (sweep_continues staleness bound st) eqn:Hc;
      [discriminate H|].
    injection H as <- <- <-. auto.
  - destruct (sweep_continues staleness bound st) eqn:Hc.
    + rewrite sweep_loop_turn in H by exact Hc.
      apply bind_ok_inv in H as ([st1 r1] & w1 & Hrun & H). cbn [fst snd] in H.
      eapply IH; [exact H|]. eapply Hstep; eassumption.
    + rewrite sweep_loop_halted in H by exact Hc.
      injection H as <- <- <-. auto.
Qed.

Lemma sweep_step_keeps_invariant first st resume (w : world env) st' resume' w' :
  sweep_continues staleness bound st = true ->
  sweep_step datasets_file args penalty step st resume w
    = (Ok (st', resume'), w') ->
  sweep_invariant first step bound st ->
  sweep_invariant first step bound st'.
Proof.
  intros Hc Hrun (Hth & Hlc & Hths & Hnums & Hbound & Hscores & Hbest).
  pose proof Hrun as Hrun2.
  apply sweep_step_ok_inv in Hrun as (score & mv & m & _ & Hth' & Hrows' & Hcase).
  unfold sweep_continues in Hc. apply andb_true_iff in Hc as [_ Hc].
  apply Z.ltb_lt in Hc.
  unfold sweep_invariant. cbv zeta. rewrite Hrows', length_app. cbn [length].
  replace (length (nodes_rows st) + 1)%nat with (S (length (nodes_rows st)))
    by lia.
  assert (sweep_loop_counter st' = S (length (nodes_rows st))) as Hlc'.
  { clear - Hrun2 Hlc.
    unfold sweep_step in Hrun2. apply bind_ok_inv in Hrun2
      as ([[[s v] m'] r] & w1 & _ & Hrun2).
    destruct (num_gtb _ _); apply ret_ok_inv in Hrun2 as [[= -> ->] _];
      cbn; now rewrite Hlc. }
  split; [rewrite Hth', Hth; lia|].
  split; [exact Hlc'|].
  split.
  { rewrite map_app, seq_S, map_app, Hths. cbn. now rewrite <- Hth. }
  split.
  { rewrite map_app, seq_S, Hnums. cbn. rewrite Hlc. reflexivity. }
  split.
  { apply Forall_app. split; [exact Hbound|].
    constructor; [exact Hc|constructor]. }
  destruct (num_gtb (num_minus (Fin score) EPSILON) (sweep_best_score st))
    eqn:E.
  - destruct Hcase as (Hbt & Hbs & _). rewrite Hbt, Hbs.
    apply improvement_test in E. split.
    + apply Forall_app. split.
      * eapply Forall_impl; [exact Hscores|].
        intros row Hrow Hex. apply Hrow.
        eapply exceeds_by_mono; [|exact Hex]. now apply exceeds_by_le.
      * constructor; [apply not_exceeds_by_itself|constructor].
    + eexists. split; [apply elem_of_app; right; left|]. auto.
  - destruct Hcase as (Hbt & Hbs & _). rewrite Hbt, Hbs. split.
    + apply Forall_app. split; [exact Hscores|].
      constructor; [|constructor]. cbn [row_score].
      intros Hex. apply improvement_test in Hex. congruence.
    + destruct (best_threshold st) as [t|].
      * destruct Hbest as (row & Hin & Ht & Hs).
        exists row. split; [apply elem_of_app; now left|]. auto.
      * destruct Hbest as [_ Hneg]. rewrite Hneg in E. discriminate E.
Qed.

Lemma sweep_loop_invariant
    fuel first metric resume (w : world env) st' resume' w' :
  sweep_loop datasets_file args staleness penalty bound step fuel
             (Sweep first None NegInf 0 metric 0 []) resume w
    = (Ok (st', resume'), w') ->
  sweep_invariant first step bound st'
  /\ sweep_continues staleness bound st' = false.
Proof.
  intros H.
  eapply (sweep_loop_ind (sweep_invariant first step bound)); [|exact H|].
  - intros. eapply sweep_step_keeps_invariant; eassumption.
  - unfold sweep_invariant. cbn. repeat split; try constructor. lia.
Qed.


End SweepInvariant.

Section SweepReport.

Context {env : Type} {collaborators : Collaborators env}.

(** X10: The threshold that [best_node_threshold] reports is one of
    [min_nodes], [min_nodes + nodes_step], ..., and it is at most
    [max_nodes]. *)
Theorem reported_threshold_is_in_range
    fuel datasets_file args staleness penalty resume (w : world env)
    report resume' w' :
  best_node_threshold fuel datasets_file args staleness penalty resume w
    = (Ok (report, resume'), w') ->
  exists i : nat,
    reported_threshold report
    = (default DEFAULT_MIN_NODES (min_nodes args)
       + Z.of_nat i * default DEFAULT_NODES_STEP (nodes_step args))%Z
    /\ (reported_threshold report <= max_nodes args)%Z.
Proof.
  unfold best_node_threshold. cbv zeta. intros H.
  apply bind_ok_inv in H as ([st r] & w1 & Hloop & H).
  apply sweep_loop_invariant in Hloop
    as [(_ & _ & Hths & _ & Hbound & _ & Hbest) _].
  destruct (best_threshold st) as [t|]; [|discriminate H].
  apply ret_ok_inv in H as [[= -> ->] _]. cbn [reported_threshold].
  destruct Hbest as (row & Hin & Ht & _).
  rewrite Forall_forall in Hbound. specialize (Hbound row Hin).
  cbn [max_nodes] in Hbound.
  apply list_elem_of_lookup in Hin as [i Hi].
  exists i. split; [|lia].
  apply (f_equal (fun l => l !! i)) in Hths.
  rewrite !list_lookup_fmap, Hi in Hths. cbn in Hths.
  destruct (seq 0 (length (nodes_rows st)) !! i) as [j|] eqn:Hj;
    [|discriminate Hths].
  apply lookup_seq in Hj as [-> _]. cbn in Hths. injection Hths as Hths.
  congruence.
Qed.

End SweepReport.

(** ** Best-first search: what it keeps and how long it runs *)

Section SearchInvariant.

Context {env : Type} {collaborators : Collaborators env}.

Lemma all_states_complete n (state : list bool) :
  length state = n -> state ∈ all_states n.
Proof.
  revert state. induction n as [|n IH]; intros [|b state] Hlen;
    try discriminate Hlen.
  - left.
  - cbn [all_states]. injection Hlen as Hlen. apply elem_of_app.
    destruct b; [left|right]; apply list_elem_of_fmap;
      exists state; auto.
Qed.

Lemma all_states_length n : length (all_states n) = 2 ^ n.
Proof.
  induction n as [|n IH]; [reflexivity|].
  cbn [all_states]. rewrite length_app, !length_map, IH.
  rewrite Nat.pow_succ_r'. lia.
Qed.

(** There are at most [2 ^ n] different states over [n] fields. *)
Lemma states_are_bounded n (states : list (list bool)) :
  NoDup states ->
  Forall (fun state => length state = n) states ->
  length states <= 2 ^ n.
Proof.
  intros Hnd Hlen. rewrite <- all_states_length.
  apply submseteq_length, NoDup_submseteq; [exact Hnd|].
  intros state Hin. apply all_states_complete.
  rewrite Forall_forall in Hlen. now apply Hlen.
Qed.

Variable datasets_file : string.
Variable args : Args.
Variable staleness : Z.
Variable penalty : Q.
Variable field_ids : list string.

(** The loop over the children adds to the open list, and only
    children. *)
Lemma expand_children_adds children :
  forall st resume (w : world env) st' resume' w',
    expand_children datasets_file args penalty field_ids children st resume w
      = (Ok (st', resume'), w') ->
    exists added,
      open_list st' = open_list st ++ added
      /\ Forall (fun x => state_of x ∈ children) added.
Proof.
  induction children as [|child children IH]; intros st resume w st' resume' w' H.
  - cbn in H. apply ret_ok_inv in H as [[= <- <-] _].
    exists []. rewrite app_nil_r. auto.
  - cbn [expand_children] in H.
    destruct (negb (state_in child (open_list st))
              && negb (state_in child (closed_list st))).
    + apply bind_ok_inv in H as (names & w1 & _ & H).
      apply bind_ok_inv in H as ([[[score mv] m] r] & w2 & _ & H).
      apply IH in H as (added & Hopen & Hall). cbn [open_list] in Hopen.
      exists ((child, Fin score, Fin mv) :: added).
      split; [now rewrite Hopen, <- app_assoc|].
      constructor; [left|].
      eapply Forall_impl; [exact Hall|]. intros x Hx. now right.
    + apply IH in H as (added & Hopen & Hall).
      exists added. split; [exact Hopen|].
      eapply Forall_impl; [exact Hall|]. intros x Hx. now right.
Qed.

Lemma search_step_keeps_invariant st resume (w : world env) st' resume' w' :
  search_step datasets_file args penalty field_ids st resume w
    = (Ok (st', resume'), w') ->
  search_invariant (length field_ids) st ->
  search_invariant (length field_ids) st'.
Proof.
  intros Hrun (Hlen & Hscores & Hbest).
  apply search_step_ok_inv in Hrun as (state & st1 & Hclose & Hexp).
  apply close_best_ok_inv in Hclose
    as (score & mv & open' & Hmax & Hrem & Ho & Hc & _ & _ & Hcase).
  pose proof (find_max_state_spec (open_list st)) as Hin.
  rewrite Hmax in Hin. destruct Hin as [Hin _].
  apply list_remove_perm in Hrem as (y & Hy & Hperm).
  assert (length state = length field_ids) as Hstate.
  { rewrite Forall_forall in Hlen.
    apply (Hlen (state, score, mv)), elem_of_app. now left. }
  pose proof (expand_children_adds _ _ _ _ _ _ _ Hexp) as (added & Hopen & Hadded).
  apply expand_children_inv in Hexp as (Hc' & Hbs & Hbsc & Hbmv & _ & _).
  unfold search_invariant. rewrite Hc', Hbs, Hbsc, Hbmv, Hopen, Ho, Hc.
  split.
  { rewrite Forall_app, Forall_app. split; [split|].
    - rewrite Hperm in Hlen. apply Forall_app in Hlen as [Hlen _].
      now apply Forall_cons in Hlen as [_ Hlen].
    - eapply Forall_impl; [exact Hadded|]. intros x Hx.
      apply (proj1 (proj2 (proj2 (expand_state_spec state))))
        in Hx as [Hx _]. congruence.
    - apply Forall_app in Hlen as [_ Hlen].
      apply Forall_app. split; [exact Hlen|]. constructor; [exact Hstate|constructor]. }
  destruct (num_gtb (num_minus score EPSILON) (best_score st)) eqn:E.
  - destruct Hcase as (-> & -> & -> & _).
    apply improvement_test in E. split.
    + apply Forall_app. split.
      * eapply Forall_impl; [exact Hscores|].
        intros x Hx Hex. apply Hx.
        eapply exceeds_by_mono; [|exact Hex]. now apply exceeds_by_le.
      * constructor; [apply not_exceeds_by_itself|constructor].
    + left. apply elem_of_app. right. left.
  - destruct Hcase as (-> & -> & -> & _). split.
    + apply Forall_app. split; [exact Hscores|].
      constructor; [|constructor]. cbn [score_of fst snd].
      intros Hex. apply improvement_test in Hex. congruence.
    + left. apply elem_of_app.
      destruct Hbest as [Hbest|[_ Hopen0]]; [now left|right].
      rewrite Hopen0 in Hin. apply list_elem_of_singleton in Hin as <-. left.
Qed.

Lemma search_keeps_its_invariant_lemma
    fuel resume (w : world env) st' resume' w' :
  search_loop datasets_file args staleness penalty field_ids fuel
              (initial_search args field_ids) resume w
    = (Ok (st', resume'), w') ->
  search_invariant (length field_ids) st'
  /\ no_duplicate_states st'
  /\ ((staleness <= best_unchanged_count st')%Z \/ open_list st' = []).
Proof.
  intros H. split; [|split].
  - eapply (search_loop_ind datasets_file args staleness penalty field_ids
              (search_invariant (length field_ids))); [|exact H|].
    + intros. eapply search_step_keeps_invariant; eassumption.
    + unfold search_invariant, initial_search. cbn.
      split; [|split; [constructor|right; auto]].
      constructor; [|constructor]. cbn. apply length_map.
  - eapply (search_loop_ind datasets_file args staleness penalty field_ids
              no_duplicate_states); [|exact H|].
    + intros s r w0 s' r' w0' Hrun Hs.
      apply search_step_ok_inv in Hrun as (state & st1 & Hclose & Hexp).
      apply expand_children_inv in Hexp as (_ & _ & _ & _ & _ & Hexp).
      apply Hexp. eapply close_best_no_duplicates; eassumption.
    + unfold no_duplicate_states. cbn. apply NoDup_singleton.
  - assert (search_continues staleness st' = false) as Hc.
    { clear - H. revert H. generalize (initial_search args field_ids).
      revert resume w. induction fuel as [|fuel IH]; intros resume w st H.
      - cbn in H. destruct (search_continues staleness st) eqn:Hc;
          [discriminate H|]. now injection H as <- <- <-.
      - destruct (search_continues staleness st) eqn:Hc.
        + rewrite search_loop_turn in H by exact Hc.
          apply bind_ok_inv in H as ([st1 r1] & w1 & _ & H).
          eapply IH. exact H.
        + rewrite search_loop_halted in H by exact Hc.
          now injection H as <- <- <-. }
    unfold search_continues in Hc. apply andb_false_iff in Hc as [Hc|Hc].
    + left. now apply Z.ltb_ge.
    + right. now destruct (open_list st').
Qed.


End SearchInvariant.

(** ** Best-first search: how long it runs *)

Section SearchTermination.

Context {env : Type} {collaborators : Collaborators env}.

Variable datasets_file : string.
Variable args : Args.
Variable staleness : Z.
Variable penalty : Q.
Variable field_ids : list string.

Lemma selected_field_names_no_fuel ids state :
  selected_field_names ids state <> OutOfFuel.
Proof.
  revert ids. induction state as [|b state IH]; intros [|id ids];
    cbn [selected_field_names]; try discriminate.
  destruct b; [|apply IH].
  destruct (field_name id); [|discriminate].
  specialize (IH ids).
  destruct (selected_field_names ids state); congruence.
Qed.

Lemma create_kfold_evaluations_no_fuel
    args0 resume counter (w : world env) :
  fst (create_kfold_evaluations datasets_file args0 resume counter w)
  <> OutOfFuel.
Proof.
  unfold create_kfold_evaluations.
  apply bind_no_fuel; [apply issue_command_no_fuel|]. intros r w1 _.
  apply bind_no_fuel; [apply load_evaluation_no_fuel|]. intros e w2 _.
  cbn. discriminate.
Qed.

Lemma kfold_evaluate_no_fuel args0 counter metric resume (w : world env) :
  fst (kfold_evaluate datasets_file args0 counter penalty metric resume w)
  <> OutOfFuel.
Proof.
  destruct (create_kfold_evaluations datasets_file
              (with_output_dir args0 (kfold_dir datasets_file)) resume
              counter w) as [o w1] eqn:Hrun.
  destruct o as [[evaluation resume']| | |].
  - rewrite (kfold_evaluate_scores _ _ _ _ _ _ _ _ _ _ Hrun).
    cbv zeta.
    destruct (resolve_metric _ metric) as [[avg lit]| | |] eqn:Hres;
      cbn; try discriminate.
    + destruct (_ !! avg); cbn; [|discriminate].
      destruct (PyStr.split _ _); cbn; discriminate.
    + now apply resolve_metric_fuel in Hres.
  - unfold kfold_evaluate, bind. rewrite Hrun. cbn. discriminate.
  - unfold kfold_evaluate, bind. rewrite Hrun. cbn. discriminate.
  - pose proof (create_kfold_evaluations_no_fuel
                  (with_output_dir args0 (kfold_dir datasets_file)) resume
                  counter w) as H.
    rewrite Hrun in H. now contradiction H.
Qed.

Lemma expand_children_no_fuel children :
  forall st resume (w : world env),
    fst (expand_children datasets_file args penalty field_ids children
           st resume w) <> OutOfFuel.
Proof.
  induction children as [|child children IH]; intros st resume w.
  - cbn. discriminate.
  - cbn [expand_children].
    destruct (negb _ && negb _); [|apply IH].
    apply bind_no_fuel.
    + unfold fail. cbn. apply selected_field_names_no_fuel.
    + intros names w1 _.
      apply bind_no_fuel; [apply kfold_evaluate_no_fuel|].
      intros [[[score mv] m] r] w2 _. apply IH.
Qed.

Lemma close_best_no_fuel st : close_best field_ids st <> OutOfFuel.
Proof.
  unfold close_best.
  destruct (find_max_state (open_list st)) as [[[state|] score] mv];
    [|discriminate].
  destruct (selected_field_names field_ids state) eqn:E; try discriminate.
  - destruct (list_remove _ _); [|discriminate].
    destruct (num_gtb _ _); discriminate.
  - now apply selected_field_names_no_fuel in E.
Qed.

Lemma search_step_no_fuel st resume (w : world env) :
  fst (search_step datasets_file args penalty field_ids st resume w)
  <> OutOfFuel.
Proof.
  unfold search_step.
  apply bind_no_fuel.
  - unfold fail. cbn. apply close_best_no_fuel.
  - intros [state st1] w1 _. apply expand_children_no_fuel.
Qed.

(** The loop over the children evaluates what it adds, and leaves the
    count of the turns and the rows alone. *)
Lemma expand_children_counts children :
  forall st resume (w : world env) st' resume' w',
    expand_children datasets_file args penalty field_ids children st resume w
      = (Ok (st', resume'), w') ->
    counter st' + length (open_list st) = counter st + length (open_list st')
    /\ loop_counter st' = loop_counter st
    /\ features_rows st' = features_rows st.
Proof.
  induction children as [|child children IH]; intros st resume w st' resume' w' H.
  - cbn in H. apply ret_ok_inv in H as [[= <- <-] _]. auto.
  - cbn [expand_children] in H.
    destruct (negb (state_in child (open_list st))
              && negb (state_in child (closed_list st))).
    + apply bind_ok_inv in H as (names & w1 & _ & H).
      apply bind_ok_inv in H as ([[[score mv] m] r] & w2 & _ & H).
      apply IH in H as (H1 & H2 & H3).
      cbn [counter open_list loop_counter features_rows] in H1, H2, H3.
      rewrite length_app in H1. cbn [length] in H1.
      split; [lia|auto].
    + now apply IH in H.
Qed.

Lemma search_step_keeps_counts st resume (w : world env) st' resume' w' :
  search_step datasets_file args penalty field_ids st resume w
    = (Ok (st', resume'), w') ->
  search_counts st -> search_counts st'.
Proof.
  intros Hrun (Hcount & Hturns & Hrows).
  apply search_step_ok_inv in Hrun as (state & st1 & Hclose & Hexp).
  assert (loop_counter st1 = S (loop_counter st)
          /\ length (features_rows st1) = S (length (features_rows st)))
    as [Hlc1 Hrows1].
  { clear - Hclose. unfold close_best in Hclose.
    destruct (find_max_state (open_list st)) as [[[state0|] score] mv];
      [|discriminate].
    destruct (selected_field_names field_ids state0); try discriminate.
    destruct (list_remove _ _); [|discriminate].
    destruct (num_gtb _ _); injection Hclose as _ <-; cbn;
      rewrite length_app; cbn; split; lia. }
  apply close_best_ok_inv in Hclose
    as (score & mv & open' & _ & Hrem & Ho & Hc & _ & Hcounter & _).
  apply list_remove_perm in Hrem as (y & _ & Hperm).
  pose proof (expand_children_counts _ _ _ _ _ _ _ Hexp) as (H1 & H2 & H3).
  apply expand_children_inv in Hexp as (Hc' & _).
  apply Permutation_length in Hperm. cbn [length] in Hperm.
  unfold search_counts. rewrite H2, H3, Hc', Hc, Hlc1, Hrows1.
  rewrite length_app in Hcount |- *. rewrite length_app. cbn [length].
  rewrite Ho in H1. lia.
Qed.

(** With the states over [n] fields all different, the loop ends
    within the number of states that are not yet closed. *)
Lemma search_loop_no_fuel fuel :
  forall st resume (w : world env),
    search_invariant (length field_ids) st ->
    no_duplicate_states st ->
    2 ^ length field_ids - length (closed_list st) <= fuel ->
    fst (search_loop datasets_file args staleness penalty field_ids fuel
           st resume w) <> OutOfFuel.
Proof.
  assert (forall st,
            search_invariant (length field_ids) st ->
            no_duplicate_states st ->
            length (open_list st ++ closed_list st) <= 2 ^ length field_ids)
    as Hbounded.
  { intros st (Hlen & _) Hnd. rewrite <- (length_map state_of).
    apply states_are_bounded; [exact Hnd|].
    rewrite Forall_forall in Hlen. rewrite Forall_forall. intros state Hin.
    apply list_elem_of_fmap in Hin as (x & -> & Hx). now apply Hlen. }
  induction fuel as [|fuel IH]; intros st resume w Hinv Hnd Hfuel.
  - destruct (search_continues staleness st) eqn:Hc.
    + exfalso. unfold search_continues in Hc.
      apply andb_true_iff in Hc as [_ Hc].
      specialize (Hbounded st Hinv Hnd). rewrite length_app in Hbounded.
      destruct (open_list st); [discriminate Hc|]. cbn [length] in Hbounded.
      lia.
    + rewrite search_loop_halted by exact Hc. cbn. discriminate.
  - destruct (search_continues staleness st) eqn:Hc.
    + rewrite search_loop_turn by exact Hc.
      apply bind_no_fuel; [apply search_step_no_fuel|].
      intros [st1 r1] w1 Hrun. cbn [fst snd].
      apply IH.
      * eapply search_step_keeps_invariant; eassumption.
      * pose proof Hrun as Hrun2.
        apply search_step_ok_inv in Hrun2 as (state & st2 & Hclose & Hexp).
        apply expand_children_inv in Hexp as (_ & _ & _ & _ & _ & Hexp).
        apply Hexp. eapply close_best_no_duplicates; eassumption.
      * apply search_step_ok_inv in Hrun as (state & st2 & Hclose & Hexp).
        apply close_best_ok_inv in Hclose as (? & ? & ? & _ & _ & _ & Hc2 & _).
        apply expand_children_inv in Hexp as (Hc1 & _).
        rewrite Hc1, Hc2, length_app. cbn [length]. lia.
    + rewrite search_loop_halted by exact Hc. cbn. discriminate.
Qed.

Lemma search_loop_counts fuel resume (w : world env) st' resume' w' :
  search_loop datasets_file args staleness penalty field_ids fuel
              (initial_search args field_ids) resume w
    = (Ok (st', resume'), w') ->
  search_counts st'.
Proof.
  intros H.
  eapply (search_loop_ind datasets_file args staleness penalty field_ids
            search_counts); [|exact H|].
  - intros. eapply search_step_keeps_counts; eassumption.
  - unfold search_counts. cbn. auto.
Qed.

End SearchTermination.

Section SearchBounds.

Context {env : Type} {collaborators : Collaborators env}.

(** X12: The best-first search ends: over [n] fields, its loop takes at
    most [2 ^ n] turns, so that with that much fuel it never stops for
    lack of fuel, in any state of the run and resuming or not. *)
Theorem search_ends_within_all_states
    fuel datasets_file args staleness penalty field_ids resume (w : world env) :
  2 ^ length field_ids <= fuel ->
  fst (best_first_search fuel datasets_file args staleness penalty field_ids
         resume w) <> OutOfFuel.
Proof.
  intros Hfuel. unfold best_first_search. cbv zeta.
  apply bind_no_fuel.
  - apply search_loop_no_fuel.
    + unfold search_invariant, initial_search. cbn.
      split; [|split; [constructor|right; auto]].
      constructor; [|constructor]. cbn. apply length_map.
    + unfold no_duplicate_states. cbn. apply NoDup_singleton.
    + cbn. lia.
  - intros [st r] w1 _. apply bind_no_fuel.
    + unfold fail. cbn. apply selected_field_names_no_fuel.
    + intros names w2 _. cbn. discriminate.
Qed.

(** X13: The number of feature subsets that [best_first_search] reports as
    evaluated is not negative and at most the number of subsets it
    reports, [2 ^ n - 1]. *)
Theorem evaluated_subsets_are_bounded
    fuel datasets_file args staleness penalty field_ids resume (w : world env)
    report resume' w' :
  best_first_search fuel datasets_file args staleness penalty field_ids
    resume w = (Ok (report, resume'), w') ->
  (0 <= evaluated_subsets report <= all_subsets report)%Z
  /\ all_subsets report = (2 ^ Z.of_nat (length field_ids) - 1)%Z.
Proof.
  unfold best_first_search. cbv zeta. intros H.
  apply bind_ok_inv in H as ([st r] & w1 & Hloop & H).
  apply bind_ok_inv in H as (names & w2 & _ & H).
  apply ret_ok_inv in H as [[= -> ->] _].
  cbn [evaluated_subsets all_subsets].
  pose proof (search_loop_counts _ _ _ _ _ _ _ _ _ _ _ Hloop) as (Hcount & _).
  pose proof (search_keeps_its_invariant_lemma _ _ _ _ _ _ _ _ _ _ _ Hloop)
    as ((Hlen & _) & Hnd & _).
  assert (length (open_list st ++ closed_list st) <= 2 ^ length field_ids)
    as Hbound.
  { rewrite <- (length_map state_of).
    apply states_are_bounded; [exact Hnd|].
    rewrite Forall_forall in Hlen. rewrite Forall_forall. intros state Hin.
    apply list_elem_of_fmap in Hin as (x & -> & Hx). now apply Hlen. }
  rewrite length_app in Hcount, Hbound.
  split; [|reflexivity].
  assert (Z.of_nat (2 ^ length field_ids) = 2 ^ Z.of_nat (length field_ids))%Z
    as <- by (now rewrite Nat2Z.inj_pow).
  lia.
Qed.

End SearchBounds.

(** ** More on the scorer *)

Section ScorerFacts.

Context {env : Type} {collaborators : Collaborators env}.




(** X15: An evaluation without a ["model"] key has no metric at all: both
    scorers exit, once the evaluation is read. *)
Theorem evaluation_without_model_exits
    datasets_file args penalty metric resume (w : world env)
    evaluation resume' w' :
  model evaluation = None ->
  (forall node_threshold,
     create_node_th_evaluations datasets_file args resume node_threshold w
       = (Ok (evaluation, resume'), w') ->
     node_threshold_evaluate datasets_file args node_threshold penalty
       metric resume w
     = (Exit ("Failed to find " ++ metric ++ " or r-squared in the evaluation")%string,
        w'))
  /\ (forall counter,
        create_kfold_evaluations datasets_file
          (with_output_dir args (kfold_dir datasets_file)) resume counter w
          = (Ok (evaluation, resume'), w') ->
        kfold_evaluate datasets_file args counter penalty metric resume w
        = (Exit ("Failed to find " ++ metric ++ " or r-squared in the evaluation")%string,
           w')).
Proof.
  intros Hmodel.
  assert (forall category,
            extract_evaluation_info evaluation category = ∅) as Hinfo.
  { intros category. unfold extract_evaluation_info. rewrite Hmodel. cbn.
    now destruct category as [[|c cs]|]. }
  split.
  - intros node_threshold Hrun.
    rewrite (node_threshold_evaluate_scores _ _ _ _ _ _ _ _ _ _ Hrun).
    cbv zeta. rewrite Hinfo. unfold resolve_metric.
    rewrite !lookup_empty. reflexivity.
  - intros counter Hrun.
    rewrite (kfold_evaluate_scores _ _ _ _ _ _ _ _ _ _ Hrun).
    cbv zeta. rewrite Hinfo. unfold resolve_metric.
    rewrite !lookup_empty. reflexivity.
Qed.

(** X16: [extract_evaluation_info]: without a category, or with the empty
    one, or without statistics per class, the metrics are those of the
    model; with a category, they are those of the first class of that
    name; and when no class has that name, those of the model again. *)
Theorem category_selects_the_class evaluation m category :
  model evaluation = Some m ->
  extract_evaluation_info evaluation None = metrics m
  /\ extract_evaluation_info evaluation (Some ""%string) = metrics m
  /\ (per_class_statistics m = None ->
      extract_evaluation_info evaluation (Some category) = metrics m)
  /\ (forall classes,
        per_class_statistics m = Some classes ->
        category <> ""%string ->
        (forall before class after,
           classes = before ++ class :: after ->
           class_name class = category ->
           Forall (fun c => class_name c <> category) before ->
           extract_evaluation_info evaluation (Some category)
           = class_metrics class)
        /\ (Forall (fun c => class_name c <> category) classes ->
            extract_evaluation_info evaluation (Some category) = metrics m)).
Proof.
  intros Hmodel. unfold extract_evaluation_info. rewrite Hmodel.
  cbn [default from_option]. unfold id.
  split; [reflexivity|]. split; [reflexivity|]. split.
  - intros ->. now destruct category.
  - intros classes -> Hne.
    destruct category as [|c cs]; [congruence|].
    split.
    + intros before class after -> Hname Hbefore.
      induction before as [|b before IH]; cbn [app List.find].
      * rewrite <- Hname, String.eqb_refl. reflexivity.
      * apply Forall_cons in Hbefore as [Hb Hbefore].
        destruct (String.eqb_spec (String c cs) (class_name b)) as [E|_];
          [congruence|].
        now apply IH.
    + intros Hnone.
      induction classes as [|b classes IH]; cbn [List.find]; [reflexivity|].
      apply Forall_cons in Hnone as [Hb Hnone].
      destruct (String.eqb_spec (String c cs) (class_name b)) as [E|_];
        [congruence|].
      now apply IH.
Qed.

End ScorerFacts.

(** ** Splitting what has been joined *)

Section SplitJoin.

Lemma append_cons x (a b : string) :
  (String x a ++ b)%string = String x (a ++ b)%string.
Proof. reflexivity. Qed.

Lemma append_assoc (a b c : string) :
  ((a ++ b) ++ c)%string = (a ++ (b ++ c))%string.
Proof.
  induction a as [|x a IH]; [reflexivity|].
  rewrite !append_cons. now rewrite IH.
Qed.

Lemma append_nil_r (a : string) : (a ++ "")%string = a.
Proof.
  induction a as [|x a IH]; [reflexivity|].
  rewrite !append_cons. now rewrite IH.
Qed.

Lemma prefix_append (sep tail : string) :
  String.prefix sep (sep ++ tail) = true.
Proof.
  induction sep as [|c sep IH]; [now destruct tail|].
  rewrite append_cons. cbn [String.prefix].
  destruct (ascii_dec c c); [exact IH|congruence].
Qed.

(** Passing over the rest of a separator. *)
Lemma split_go_skip sep acc rest tail :
  PyStr.split_go sep (String.length rest) acc (rest ++ tail)%string
  = PyStr.split_go sep 0 acc tail.
Proof.
  induction rest as [|c rest IH].
  - change (""%string ++ tail)%string with tail. reflexivity.
  - rewrite append_cons. cbn [String.length PyStr.split_go]. exact IH.
Qed.

(** Reading a piece in which the separator cannot start. *)
Lemma split_go_piece c rest piece acc tail :
  PyStr.contains (String c "") piece = false ->
  PyStr.split_go (String c rest) 0 acc (piece ++ tail)%string
  = PyStr.split_go (String c rest) 0 (acc ++ piece)%string tail.
Proof.
  revert acc. induction piece as [|x piece IH]; intros acc Hno.
  - change (""%string ++ tail)%string with tail. now rewrite append_nil_r.
  - cbn [PyStr.contains] in Hno. apply orb_false_iff in Hno as [Hx Hno].
    cbn [String.prefix] in Hx.
    rewrite append_cons. cbn [PyStr.split_go String.prefix].
    destruct (ascii_dec c x) as [->|Hne].
    + destruct piece; discriminate Hx.
    + rewrite IH by exact Hno. now rewrite append_assoc.
Qed.

Lemma split_go_join c rest pieces :
  pieces <> [] ->
  Forall (fun piece => PyStr.contains (String c "") piece = false) pieces ->
  forall acc,
    PyStr.contains (String c "") acc = false ->
    PyStr.split_go (String c rest) 0 acc (PyStr.join (String c rest) pieces)
    = match pieces with
      | [] => []
      | piece :: others => (acc ++ piece)%string :: others
      end.
Proof.
  induction pieces as [|piece pieces IH]; intros Hne Hall acc Hacc;
    [congruence|].
  apply Forall_cons in Hall as [Hpiece Hall].
  destruct pieces as [|next pieces].
  - cbn [PyStr.join].
    rewrite <- (append_nil_r piece) at 1.
    rewrite split_go_piece by exact Hpiece. reflexivity.
  - change (PyStr.join (String c rest) (piece :: next :: pieces))
      with (piece ++ String c rest
            ++ PyStr.join (String c rest) (next :: pieces))%string.
    rewrite split_go_piece by exact Hpiece.
    rewrite append_cons. cbn [PyStr.split_go].
    change (String c (rest ++ PyStr.join (String c rest) (next :: pieces))%string)
      with (String c rest ++ PyStr.join (String c rest) (next :: pieces))%string.
    rewrite prefix_append.
    replace (String.length (String c rest) - 1)
      with (String.length rest) by (cbn [String.length]; lia).
    f_equal.
    rewrite split_go_skip.
    rewrite IH by (try discriminate; try assumption; reflexivity).
    reflexivity.
Qed.

(** X17: Splitting what has been joined gives the pieces back, when the
    first character of the separator is in none of them: the
    complexity of a feature subset is then the number of its fields.
    The empty list is joined into the empty string, which splits into
    one piece. *)
Theorem split_of_join c rest pieces :
  (pieces <> [] ->
   Forall (fun piece => PyStr.contains (String c "") piece = false) pieces ->
   PyStr.split (String c rest) (PyStr.join (String c rest) pieces)
   = Some pieces)
  /\ PyStr.split (String c rest) (PyStr.join (String c rest) [])
     = Some [""%string].
Proof.
  split; [|reflexivity].
  intros Hne Hall. unfold PyStr.split.
  rewrite split_go_join by (try assumption; reflexivity).
  now destruct pieces.
Qed.

End SplitJoin.

(** ** The name of the k-fold field *)

Section FreshNames.

Lemma length_append (a b : string) :
  String.length (a ++ b)%string = String.length a + String.length b.
Proof.
  induction a as [|x a IH]; [reflexivity|].
  change (String x a ++ b)%string with (String x (a ++ b)%string).
  cbn [String.length]. now rewrite IH.
Qed.

Lemma wrapped_length affix k name :
  String.length (wrapped affix k name)
  = String.length name + 2 * k * String.length affix.
Proof.
  revert name. induction k as [|k IH]; intros name; cbn [wrapped]; [lia|].
  rewrite IH, !length_append. lia.
Qed.

Lemma wrapped_inj affix name :
  affix <> ""%string -> Inj eq eq (fun k => wrapped affix k name).
Proof.
  intros Haffix j k Heq. apply (f_equal String.length) in Heq.
  rewrite !wrapped_length in Heq.
  destruct affix as [|c affix]; [congruence|]. cbn [String.length] in Heq. nia.
Qed.

Lemma name_is_taken name fields :
  existsb (fun field => String.eqb field name) (field_names fields) = true
  <-> name ∈ field_names fields.
Proof.
  rewrite existsb_exists. split.
  - intros (x & Hin & Heq). apply String.eqb_eq in Heq as ->.
    now apply list_elem_of_In.
  - intros Hin. exists name. split; [now apply list_elem_of_In|].
    apply String.eqb_refl.
Qed.

(** The recursion stops at the first of the wrapped names that is not
    taken. *)
Lemma avoid_duplicates_first_free affix fields depth :
  forall name k,
    k < depth ->
    wrapped affix k name ∉ field_names fields ->
    exists k',
      k' <= k
      /\ avoid_duplicates depth name fields affix = Ok (wrapped affix k' name)
      /\ (wrapped affix k' name ∉ field_names fields)
      /\ forall j, j < k' -> wrapped affix j name ∈ field_names fields.
Proof.
  induction depth as [|depth IH]; intros name k Hk Hfree; [lia|].
  cbn [avoid_duplicates].
  destruct (existsb _ (field_names fields)) eqn:Htaken.
  - apply name_is_taken in Htaken.
    destruct k as [|k]; [contradiction|].
    destruct (IH (affix ++ name ++ affix)%string k ltac:(lia) Hfree)
      as (k' & Hle & Hrun & Hfree' & Hbefore).
    exists (S k'). split; [lia|]. split; [exact Hrun|]. split; [exact Hfree'|].
    intros [|j] Hj; [exact Htaken|]. apply Hbefore. lia.
  - exists 0. split; [lia|]. split; [reflexivity|]. split.
    + intros Hin. apply name_is_taken in Hin. cbn [wrapped] in Hin. congruence.
    + intros j Hj. lia.
Qed.

(** One of the first wrapped names is free: there are more of them
    than fields. *)
Lemma some_name_is_free affix name fields :
  affix <> ""%string ->
  exists k, k <= size fields /\ wrapped affix k name ∉ field_names fields.
Proof.
  intros Haffix.
  destruct (decide (Forall (fun k => wrapped affix k name ∈ field_names fields)
                           (seq 0 (S (size fields))))) as [Hall|Hsome].
  - exfalso.
    assert (length ((fun k => wrapped affix k name) <$> seq 0 (S (size fields)))
            <= length (field_names fields)) as Hlen.
    { apply submseteq_length, NoDup_submseteq.
      - apply NoDup_fmap_2; [now apply wrapped_inj|apply NoDup_seq].
      - intros x Hx. apply list_elem_of_fmap in Hx as (k & -> & Hk).
        rewrite Forall_forall in Hall. now apply Hall. }
    rewrite length_fmap, length_seq in Hlen.
    unfold field_names in Hlen. rewrite length_map in Hlen.
    rewrite length_map_to_list in Hlen. lia.
  - apply not_Forall_Exists in Hsome; [|intros k; apply _].
    apply Exists_exists in Hsome as (k & Hk & Hfree).
    exists k. split; [|exact Hfree].
    apply elem_of_seq in Hk. lia.
Qed.

(** X18: with an affix that is not empty, [avoid_duplicates] returns,
    within as many recursive calls as there are fields, a name that no
    field has: the first of [field_name], [affix field_name affix],
    ... that is free, every one before it being the name of a field.
    So a name that no field has is returned as it is. *)
Theorem avoid_duplicates_gives_a_fresh_name depth name fields affix :
  affix <> ""%string ->
  size fields < depth ->
  exists k,
    k <= size fields
    /\ avoid_duplicates depth name fields affix = Ok (wrapped affix k name)
    /\ (wrapped affix k name ∉ field_names fields)
    /\ forall j, j < k -> wrapped affix j name ∈ field_names fields.
Proof.
  intros Haffix Hdepth.
  destruct (some_name_is_free affix name fields Haffix) as (k & Hk & Hfree).
  destruct (avoid_duplicates_first_free affix fields depth name k
              ltac:(lia) Hfree) as (k' & Hle & H).
  exists k'. split; [lia|exact H].
Qed.

(** X19: with the empty affix, a name that a field has is tried again
    and again: the recursion does not end, whatever depth is allowed
    (Python stops it at its recursion limit). *)
Theorem avoid_duplicates_needs_an_affix depth name fields :
  name ∈ field_names fields ->
  avoid_duplicates depth name fields "" = OutOfFuel.
Proof.
  intros Hin. induction depth as [|depth IH]; [reflexivity|].
  cbn [avoid_duplicates].
  apply name_is_taken in Hin as Htaken. rewrite Htaken.
  change (""%string ++ name ++ "")%string with (name ++ "")%string.
  replace (name ++ "")%string with name; [exact IH|].
  clear. induction name as [|c name IH]; [reflexivity|].
  change (String c name ++ "")%string with (String c (name ++ "")%string).
  now rewrite <- IH.
Qed.

End FreshNames.

(** ** The options of the models *)

Section ModelOptions.

Variable str_float : Q -> string.

Lemma if_app {A} (c : bool) (l x : list A) :
  (if c then l ++ x else l) = l ++ (if c then x else []).
Proof. destruct c; [reflexivity|now rewrite app_nil_r]. Qed.

Lemma if_app_app {A} (c : bool) (l x y : list A) :
  (if c then (l ++ x) ++ y else l) = l ++ (if c then x ++ y else []).
Proof. destruct c; [now rewrite app_assoc|now rewrite app_nil_r]. Qed.

(** X20: [add_model_options] only appends: the arguments it is given
    come first, unchanged, followed by options that depend on [args]
    alone.  And unless more than one model is asked for, the options of
    the ensembles (sample rate, replacement, randomize, ensemble
    attributes) change nothing. *)
Theorem add_model_options_only_appends command_args args :
  add_model_options str_float command_args args
  = command_args ++ add_model_options str_float [] args
  /\ ((number_of_models args <= 1)%Z ->
      forall rate with_replacement at_random attributes,
        add_model_options str_float command_args
          {| balance := balance args;
             missing_splits := missing_splits args;
             pruning := pruning args;
             weight_field := weight_field args;
             objective_weights := objective_weights args;
             tlp := tlp args;
             model_attributes := model_attributes args;
             number_of_models := number_of_models args;
             sample_rate := rate;
             replacement := with_replacement;
             randomize := at_random;
             ensemble_attributes := attributes |}
        = add_model_options str_float command_args args).
Proof.
  split.
  - unfold add_model_options. cbv zeta.
    rewrite ?if_app_app, ?if_app.
    destruct (1 <? number_of_models args)%Z;
      rewrite <- ?app_assoc; reflexivity.
  - intros Hsingle rate with_replacement at_random attributes.
    unfold add_model_options. cbv zeta.
    cbn [balance missing_splits pruning weight_field objective_weights tlp
         model_attributes number_of_models].
    destruct (1 <? number_of_models args)%Z eqn:Hmany; [|reflexivity].
    apply Z.ltb_lt in Hmany. lia.
Qed.

End ModelOptions.

(** ** The files that select the folds *)

Section SelectingFilesFacts.

Context {fs : Type} {file_system : FileSystem fs}.

Variable output_dir : string.
Variable k : Z.
Variable kfold_field objective_field : string.

Local Abbreviation loop :=
  (create_kfold_json_loop output_dir k kfold_field objective_field).
Local Abbreviation path := (selecting_path output_dir).
Local Abbreviation file :=
  (fun index =>
     (selecting_path output_dir index,
      new_field index k kfold_field objective_field)).

(** Not resuming, every file is written, in order. *)
Lemma create_kfold_json_loop_fresh indexes :
  forall selecting_file_list (disk : fs),
    loop indexes selecting_file_list false disk
    = match written_in_order (List.map file indexes) disk with
      | (true, disk') =>
          (Ok (selecting_file_list ++ List.map path indexes, false), disk')
      | (false, disk') =>
          (Exit "Could not create the necessary files.", disk')
      end.
Proof.
  induction indexes as [|index indexes IH]; intros l disk.
  - cbn. now rewrite app_nil_r.
  - cbn [create_kfold_json_loop List.map written_in_order negb orb].
    destruct (write_file _ _ disk) as [[|] disk1]; [|reflexivity].
    rewrite IH. rewrite <- app_assoc. reflexivity.
Qed.

(** Resuming, the files that are there are passed over. *)
Lemma create_kfold_json_loop_skip present indexes :
  forall selecting_file_list (disk : fs),
    Forall (fun index => isfile (path index) disk = true) present ->
    loop (present ++ indexes) selecting_file_list true disk
    = loop indexes (selecting_file_list ++ List.map path present) true disk.
Proof.
  induction present as [|index present IH]; intros l disk Hall.
  - cbn. now rewrite app_nil_r.
  - apply Forall_cons in Hall as [Hthere Hall].
    cbn [app create_kfold_json_loop List.map negb orb].
    rewrite Hthere. cbn [negb]. rewrite IH by exact Hall.
    now rewrite <- app_assoc.
Qed.

(** Resuming, a file that is missing ends the resuming. *)
Lemma create_kfold_json_loop_missing index indexes selecting_file_list
    (disk : fs) :
  isfile (path index) disk = false ->
  loop (index :: indexes) selecting_file_list true disk
  = loop (index :: indexes) selecting_file_list false disk.
Proof.
  intros Hmissing. cbn [create_kfold_json_loop negb orb].
  rewrite Hmissing. reflexivity.
Qed.

Lemma create_kfold_json_loop_ok indexes :
  forall selecting_file_list resume (disk : fs) l resume' disk',
    loop indexes selecting_file_list resume disk = (Ok (l, resume'), disk') ->
    l = selecting_file_list ++ List.map path indexes
    /\ (resume' = true ->
        resume = true /\ disk' = disk
        /\ Forall (fun index => isfile (path index) disk = true) indexes).
Proof.
  induction indexes as [|index indexes IH];
    intros l0 resume disk l resume' disk' Hrun.
  - cbn in Hrun. injection Hrun as <- <- <-.
    split; [now rewrite app_nil_r|]. auto.
  - cbn [create_kfold_json_loop] in Hrun.
    destruct (negb resume || negb (isfile (path index) disk)) eqn:Hwrite.
    + destruct (write_file _ _ disk) as [[|] disk1]; [|discriminate Hrun].
      apply IH in Hrun as [-> Hkept].
      split; [now rewrite <- app_assoc|].
      intros ->. destruct (Hkept eq_refl) as [[=] _].
    + apply IH in Hrun as [-> Hkept].
      split; [now rewrite <- app_assoc|].
      intros ->. destruct (Hkept eq_refl) as (-> & -> & Hall).
      cbn in Hwrite. apply negb_false_iff in Hwrite.
      split; [reflexivity|]. split; [reflexivity|].
      now constructor.
Qed.

End SelectingFilesFacts.

Section SelectingFilesClaims.

Context {fs : Type} {file_system : FileSystem fs}.

(** X21: [create_kfold_json] returns the paths of the selecting files,
    one for each fold, in order.  [resume] comes back [True] only from a
    resuming call that has found every file and has written nothing;
    and a resuming call that finds every file does return so, leaving
    the file system as it is. *)
Theorem create_kfold_json_keeps_what_is_there
    args k_folds kfold_field objective_field resume (disk : fs) :
  let paths :=
    List.map (selecting_path (output_dir args))
             (seq 0 (Z.to_nat (folds_of k_folds))) in
  (forall l resume' disk',
     create_kfold_json args k_folds kfold_field objective_field resume disk
       = (Ok (l, resume'), disk') ->
     l = paths
     /\ (resume' = true ->
         resume = true /\ disk' = disk
         /\ Forall (fun path => isfile path disk = true) paths))
  /\ (Forall (fun path => isfile path disk = true) paths ->
      create_kfold_json args k_folds kfold_field objective_field true disk
      = (Ok (paths, true), disk)).
Proof.
  cbv zeta. unfold create_kfold_json. split.
  - intros l resume' disk' Hrun.
    apply create_kfold_json_loop_ok in Hrun as [-> Hkept].
    split; [reflexivity|]. intros Hr.
    destruct (Hkept Hr) as (-> & -> & Hall).
    split; [reflexivity|]. split; [reflexivity|].
    now apply Forall_map.
  - intros Hall. apply Forall_map in Hall.
    pose proof (create_kfold_json_loop_skip (output_dir args)
                  (folds_of k_folds) kfold_field objective_field _ [] [] disk
                  Hall) as Hskip.
    rewrite app_nil_r in Hskip. exact Hskip.
Qed.

(** X22: [create_kfold_json] writes every file from the first missing
    one on, also those that are there: resuming, the files before the
    first missing one are left alone and the others are written, in
    order; not resuming, all are written.  The call exits at the first
    write that fails, and otherwise returns [resume] as [False]. *)
Theorem create_kfold_json_writes_from_the_first_missing_file
    args k_folds kfold_field objective_field (resume : bool) (disk : fs)
    (first : nat) :
  let k := folds_of k_folds in
  let files := selecting_files (output_dir args) k kfold_field objective_field in
  (if resume
   then first < Z.to_nat k
        /\ isfile (selecting_path (output_dir args) first) disk = false
        /\ forall index,
             index < first ->
             isfile (selecting_path (output_dir args) index) disk = true
   else first = 0) ->
  create_kfold_json args k_folds kfold_field objective_field resume disk
  = match written_in_order (drop first files) disk with
    | (true, disk') => (Ok (List.map fst files, false), disk')
    | (false, disk') => (Exit "Could not create the necessary files.", disk')
    end.
Proof.
  cbv zeta. unfold create_kfold_json, selecting_files. intros Hfirst.
  set (k := Z.to_nat (folds_of k_folds)) in *.
  assert (forall n,
            List.map fst
              (List.map
                 (fun index =>
                    (selecting_path (output_dir args) index,
                     new_field index (folds_of k_folds) kfold_field
                       objective_field)) n)
            = List.map (selecting_path (output_dir args)) n) as Hfst.
  { intros n. rewrite List.map_map. reflexivity. }
  destruct resume.
  - destruct Hfirst as (Hlt & Hmissing & Hbefore).
    assert (seq 0 k = seq 0 first ++ first :: seq (S first) (k - S first))
      as Hseq.
    { replace k with (first + S (k - S first)) at 1 by lia.
      rewrite seq_app. reflexivity. }
    rewrite Hseq at 1.
    rewrite create_kfold_json_loop_skip
      by (apply Forall_forall; intros index Hin;
          apply elem_of_seq in Hin; apply Hbefore; lia).
    rewrite create_kfold_json_loop_missing by exact Hmissing.
    rewrite create_kfold_json_loop_fresh.
    assert (drop first (seq 0 k) = first :: seq (S first) (k - S first))
      as Hdrop.
    { rewrite Hseq at 1. apply drop_app_length'. now rewrite length_seq. }
    rewrite skipn_map, Hdrop, Hfst.
    rewrite app_nil_l, <- List.map_app, <- Hseq. reflexivity.
  - subst first. cbn [drop]. rewrite create_kfold_json_loop_fresh, Hfst.
    reflexivity.
Qed.


End SelectingFilesClaims.

(** ** The commands that create the datasets *)

Section DatasetsFacts.

Context {env : Type} {collaborators : Collaborators env}
        {dataset_collaborators : DatasetCollaborators}.

Lemma create_selecting_datasets_fresh dataset args files :
  forall w : world env,
    let commands :=
      List.map (fun file => selection_command_args dataset file args) files in
    create_selecting_datasets dataset args files false w
    = (Ok (tt, false),
       World (subcommand_list w)
             (subcommand_log w ++ List.map rebuild_command commands)
             (dispatched w ++ commands) (evaluations_read w)
             (run_in_order commands (outside w))).
Proof.
  cbv zeta. induction files as [|file files IH]; intros w.
  - cbn. rewrite !app_nil_r. now destruct w.
  - cbn [create_selecting_datasets List.map].
    rewrite (bind_ok _ _ _ _ _ (issue_command_fresh _ _ w)).
    rewrite IH. cbn [subcommand_list subcommand_log dispatched
                     evaluations_read outside].
    rewrite <- !app_assoc. reflexivity.
Qed.

Lemma create_selecting_datasets_resumed dataset args files :
  forall done (w : world env),
    let commands :=
      List.map (fun file => selection_command_args dataset file args) files in
    0 < done <= length files ->
    subcommand_list w = rev (List.map rebuild_command (take done commands)) ->
    create_selecting_datasets dataset args files true w
    = (Ok (tt, false),
       World []
             (subcommand_log w
              ++ List.map rebuild_command (drop done commands))
             (dispatched w ++ catch_up :: drop done commands)
             (evaluations_read w)
             (run_in_order (drop done commands)
                (main_dispatcher catch_up (outside w)))).
Proof.
  cbv zeta. induction files as [|file files IH]; intros done w Hdone Hlist.
  - cbn in Hdone. lia.
  - destruct done as [|done]; [lia|].
    cbn [length] in Hdone.
    cbn [List.map take firstn rev] in Hlist.
    cbn [create_selecting_datasets].
    pose proof (issue_command_replay _
                  (selection_command_args dataset file args) w _ Hlist) as Hi.
    cbn [List.map drop skipn].
    destruct done as [|done].
    + cbn [take firstn List.map rev] in Hi.
      rewrite (bind_ok _ _ _ _ _ Hi).
      cbn [take firstn List.map rev drop skipn].
      rewrite create_selecting_datasets_fresh.
      cbn [subcommand_list subcommand_log dispatched evaluations_read outside].
      rewrite <- app_assoc. reflexivity.
    + destruct (rev _) as [|x rest] eqn:Hrev in Hi.
      { apply (f_equal (@length _)) in Hrev.
        rewrite length_rev, length_map, length_take, length_map in Hrev.
        cbn [length] in Hrev. lia. }
      rewrite (bind_ok _ _ _ _ _ Hi).
      rewrite (IH (S done)); [reflexivity|lia|].
      cbn [subcommand_list]. now rewrite Hrev.
Qed.

(** The ledger around one command. *)
Lemma replays_issue_only command command_args :
  replays (fun resume =>
             let* resume := issue_command command command_args resume in
             ret (env := env) (tt, resume)).
Proof.
  intros w [] b w' Hrun.
  apply bind_ok_inv in Hrun as (b1 & w1 & Hissue & Hrun).
  apply ret_ok_inv in Hrun as [[= <-] ->].
  rewrite issue_command_fresh in Hissue. injection Hissue as <- <-.
  split; [reflexivity|]. exists [command], [].
  split; [reflexivity|]. split; [cbn; now rewrite app_nil_r|].
  split; [discriminate|].
  intros _ later wr Hlist _.
  cbn [rev app] in Hlist.
  pose proof (issue_command_replay command command_args wr _ Hlist) as Hi.
  cbv beta.
  destruct later as [|l later].
  - cbn [rev] in Hi. rewrite (bind_ok _ _ _ _ _ Hi).
    eexists. split; [reflexivity|]. repeat split.
  - destruct (rev (l :: later)) as [|x rest] eqn:Hrev.
    { apply (f_equal (@length _)) in Hrev. rewrite length_rev in Hrev.
      discriminate Hrev. }
    rewrite (bind_ok _ _ _ _ _ Hi).
    eexists. split; [reflexivity|]. repeat split.
    cbn [subcommand_list]. now rewrite Hrev.
Qed.

Lemma replays_create_selecting_datasets dataset args files :
  replays (create_selecting_datasets dataset args files).
Proof.
  induction files as [|file files IH].
  - apply replays_ret.
  - eapply replays_ext;
      [|apply (replays_thread
                 (fun resume =>
                    let* resume :=
                      issue_command
                        (rebuild_command
                           (selection_command_args dataset file args))
                        (selection_command_args dataset file args) resume in
                    ret (tt, resume))
                 (fun _ => create_selecting_datasets dataset args files));
       [apply replays_issue_only|intros _; exact IH]].
    intros b w. cbn [create_selecting_datasets]. unfold thread, bind.
    destruct (issue_command _ _ b w) as [[r| | |] w1]; reflexivity.
Qed.

Lemma replays_create_kfold_datasets dataset args files :
  replays (create_kfold_datasets dataset args files).
Proof.
  eapply replays_ext;
    [|apply (replays_thread
               (create_selecting_datasets dataset
                  (with_output_dir args (test_dir (output_dir args))) files)
               (fun _ resume =>
                  ret (dataset_gen (test_dir (output_dir args)),
                       with_output_dir args (test_dir (output_dir args)),
                       resume)));
     [apply replays_create_selecting_datasets
     |intros _; apply replays_ret]].
  intros b w. unfold create_kfold_datasets, thread, bind. cbv zeta.
  destruct (create_selecting_datasets _ _ _ b w) as [[[[] r]| | |] w1];
    reflexivity.
Qed.

(** X23: not resuming, [create_kfold_datasets] logs one command for
    each selecting file, in order, and runs each of them; it does not
    fail, reads no evaluation, and returns the datasets file below the
    [test] directory, which it has set as the output directory, with
    [resume] still [False]. *)
Theorem fresh_datasets_are_logged_and_run dataset args files (w : world env) :
  let commands := selection_commands dataset args files in
  create_kfold_datasets dataset args files false w
  = (Ok (dataset_gen (test_dir (output_dir args)),
         with_output_dir args (test_dir (output_dir args)), false),
     World (subcommand_list w)
           (subcommand_log w ++ List.map rebuild_command commands)
           (dispatched w ++ commands) (evaluations_read w)
           (run_in_order commands (outside w))).
Proof.
  cbv zeta. unfold create_kfold_datasets, selection_commands. cbv zeta.
  rewrite (bind_ok _ _ _ _ _ (create_selecting_datasets_fresh _ _ _ w)).
  reflexivity.
Qed.

(** X24: resuming the creation of the datasets on a ledger that holds
    the first [done] of its commands: these are not run again;
    [main --resume] is run once, when the ledger is exhausted; and
    the commands that are left are logged and run, in order.  [resume]
    comes back [False]. *)
Theorem interrupted_dataset_creation_resumes
    dataset args files done (w : world env) :
  let commands := selection_commands dataset args files in
  0 < done <= length files ->
  subcommand_list w = rev (List.map rebuild_command (take done commands)) ->
  create_kfold_datasets dataset args files true w
  = (Ok (dataset_gen (test_dir (output_dir args)),
         with_output_dir args (test_dir (output_dir args)), false),
     World []
           (subcommand_log w ++ List.map rebuild_command (drop done commands))
           (dispatched w ++ catch_up :: drop done commands)
           (evaluations_read w)
           (run_in_order (drop done commands)
              (main_dispatcher catch_up (outside w)))).
Proof.
  cbv zeta. unfold create_kfold_datasets, selection_commands. cbv zeta.
  intros Hdone Hlist.
  rewrite (bind_ok _ _ _ _ _
             (create_selecting_datasets_resumed _ _ _ done w Hdone Hlist)).
  reflexivity.
Qed.

(** X25: the creation of the datasets can be run again on its ledger,
    alone, or followed by the feature search or by the threshold sweep
    as in [create_features_analysis] and [create_nodes_analysis]: a
    resuming run on the ledger of a completed one returns the same
    result, logs nothing, and calls the dispatcher at most once, with
    [main --resume]. *)
Theorem dataset_creation_replays
    dataset args files objective_name fuel staleness penalty field_ids :
  replay_reproduces (create_kfold_datasets dataset args files)
  /\ replay_reproduces
       (thread (create_kfold_datasets dataset args files)
          (fun r =>
             best_first_search fuel (fst r)
               (with_objective_field (snd r) objective_name)
               staleness penalty field_ids))
  /\ replay_reproduces
       (thread (create_kfold_datasets dataset args files)
          (fun r =>
             best_node_threshold fuel (fst r)
               (with_objective_field (snd r) objective_name)
               staleness penalty)).
Proof.
  split; [|split]; apply replays_reproduces.
  - apply replays_create_kfold_datasets.
  - apply replays_thread; [apply replays_create_kfold_datasets|].
    intros r. apply replays_best_first_search.
  - apply replays_thread; [apply replays_create_kfold_datasets|].
    intros r. apply replays_best_node_threshold.
Qed.

End DatasetsFacts.

(** ** The searches and the preparation on the small instances *)

Section SearchExamples.

Let by_features : Collaborators Sample.files :=
  Sample.collaborators "average_accuracy"
    [("a", 8 # 10); ("b", 7 # 10); ("a,b", 9 # 10)]%Q [].
Let by_nodes : Collaborators Sample.files :=
  Sample.collaborators "average_accuracy"
    [("3", 9 # 10); ("103", 95 # 100)]%Q [].
Let feature_args : Args := Sample.args "accuracy" 0 None None.
Let node_args : Args := Sample.args "accuracy" 103 None None.
Let fields : list string := ["a"; "b"]%string.

Let search (resume : bool) :=
  best_first_search (collaborators := by_features) 10 "datasets" feature_args
    None None fields resume.
Let sweep (resume : bool) :=
  best_node_threshold (collaborators := by_nodes) 10 "datasets" node_args
    None None resume.


Lemma reported_threshold_is_in_range_witness :
  exists report,
    fst (sweep false (Sample.start ∅)) = Ok (report, false)
    /\ exists i : nat,
         reported_threshold report = (3 + Z.of_nat i * 100)%Z
         /\ (reported_threshold report <= 103)%Z.
Proof.
  pose (report := match fst (sweep false (Sample.start ∅)) with
                  | Ok (r, _) => r
                  | _ => Build_nodes_report 0 "" NegInf
                  end).
  exists report. split; [vm_compute; reflexivity|].
  apply (reported_threshold_is_in_range (collaborators := by_nodes)
           10 "datasets" node_args None None false (Sample.start ∅)
           report false (snd (sweep false (Sample.start ∅)))).
  vm_compute. reflexivity.
Defined.


Lemma search_ends_within_all_states_witness :
  2 ^ length fields <= 4
  /\ fst (best_first_search (collaborators := by_features) 4 "datasets"
           feature_args None None fields false (Sample.start ∅)) <> OutOfFuel.
Proof.
  assert (2 ^ length fields <= 4) as Hfuel by (vm_compute; lia).
  split; [exact Hfuel|].
  exact (search_ends_within_all_states (collaborators := by_features)
           4 "datasets" feature_args None None fields false (Sample.start ∅)
           Hfuel).
Defined.

Lemma evaluated_subsets_are_bounded_witness :
  exists report,
    fst (search false (Sample.start ∅)) = Ok (report, false)
    /\ (0 <= evaluated_subsets report <= all_subsets report)%Z
    /\ all_subsets report = 3%Z.
Proof.
  pose (report := match fst (search false (Sample.start ∅)) with
                  | Ok (r, _) => r
                  | _ => Build_features_report [] "" NegInf 0 0
                  end).
  exists report. split; [vm_compute; reflexivity|].
  apply (evaluated_subsets_are_bounded (collaborators := by_features)
           10 "datasets" feature_args None None fields false (Sample.start ∅)
           report false (snd (search false (Sample.start ∅)))).
  vm_compute. reflexivity.
Defined.


(** The state of a run in which the file of the evaluation for the
    threshold 3 holds no ["model"]. *)
Let without_model : world Sample.files :=
  Sample.start {[ "out3"%string := {| model := None |} ]}.
Let nothing_known : Collaborators Sample.files :=
  Sample.collaborators "average_accuracy" [] [].

Lemma evaluation_without_model_exits_witness :
  fst (node_threshold_evaluate (collaborators := nothing_known) "datasets"
         node_args 3 0 "accuracy" false without_model)
  = Exit "Failed to find accuracy or r-squared in the evaluation".
Proof.
  rewrite (proj1 (evaluation_without_model_exits
                    (collaborators := nothing_known) "datasets" node_args 0
                    "accuracy" false without_model {| model := None |} false
                    (snd (create_node_th_evaluations
                            (collaborators := nothing_known) "datasets"
                            node_args false 3 without_model))
                    eq_refl) 3%Z).
  - reflexivity.
  - vm_compute. reflexivity.
Defined.

Let no_class : class_evaluation :=
  {| class_name := "no";
     class_metrics := {[ "average_recall"%string := (1 # 4)%Q ]} |}.
Let yes_class : class_evaluation :=
  {| class_name := "yes";
     class_metrics := {[ "average_recall"%string := (3 # 4)%Q ]} |}.
Let per_class : model_evaluation :=
  {| metrics := {[ "average_recall"%string := (1 # 2)%Q ]};
     per_class_statistics := Some [no_class; yes_class] |}.

Lemma category_selects_the_class_witness :
  extract_evaluation_info {| model := Some per_class |} (Some "yes"%string)
  = class_metrics yes_class.
Proof.
  destruct (category_selects_the_class {| model := Some per_class |} per_class
              "yes" eq_refl) as (_ & _ & _ & Hclasses).
  destruct (Hclasses _ eq_refl ltac:(discriminate)) as [Hfound _].
  apply (Hfound [no_class] yes_class []).
  - reflexivity.
  - reflexivity.
  - repeat constructor. discriminate.
Defined.

Lemma split_of_join_witness :
  PyStr.split "," (PyStr.join "," ["a"; "b"; "c"]%string)
  = Some ["a"; "b"; "c"]%string.
Proof.
  apply (proj1 (split_of_join ","%char "" ["a"; "b"; "c"]%string)).
  - discriminate.
  - repeat constructor.
Defined.

End SearchExamples.

Section PreparationExamples.

Let taken : gmap string string :=
  {[ "000000"%string := "__kfold__"%string;
     "000001"%string := "___kfold___"%string;
     "000002"%string := "species"%string ]}.

Lemma avoid_duplicates_gives_a_fresh_name_witness :
  exists k,
    k <= 3
    /\ avoid_duplicates 4 "__kfold__" taken "_"
       = Ok (wrapped "_" k "__kfold__")
    /\ (wrapped "_" k "__kfold__" ∉ field_names taken).
Proof.
  destruct (avoid_duplicates_gives_a_fresh_name 4 "__kfold__" taken "_")
    as (k & Hk & Hrun & Hfree & _).
  - discriminate.
  - vm_compute. lia.
  - exists k. split; [exact Hk|]. split; [exact Hrun|exact Hfree].
Defined.

Lemma avoid_duplicates_needs_an_affix_witness :
  avoid_duplicates 1000 "species" taken "" = OutOfFuel.
Proof.
  apply (avoid_duplicates_needs_an_affix 1000 "species" taken).
  vm_compute. do 2 constructor.
Defined.

Let one_model : ModelArgs :=
  {| balance := true; missing_splits := false; pruning := "smart";
     weight_field := ""; objective_weights := ""; tlp := 0;
     model_attributes := ""; number_of_models := 1; sample_rate := 1;
     replacement := false; randomize := false; ensemble_attributes := "" |}.
Let str_float (q : Q) : string := "0.5".

Lemma add_model_options_only_appends_witness :
  add_model_options str_float ["main"]%string
    {| balance := true; missing_splits := false; pruning := "smart";
       weight_field := ""; objective_weights := ""; tlp := 0;
       model_attributes := ""; number_of_models := 1; sample_rate := 1 # 2;
       replacement := true; randomize := true;
       ensemble_attributes := "e.json" |}
  = add_model_options str_float ["main"]%string one_model.
Proof.
  apply (proj2 (add_model_options_only_appends str_float ["main"]%string
                  one_model)).
  vm_compute. discriminate.
Defined.

Let files : FileSystem SamplePreparation.disk := SamplePreparation.file_system.
Let some_args : Args := Sample.args "accuracy" 0 None None.
Let first_there : SamplePreparation.disk :=
  {[ "out/test0"%string := "old"%string ]}.
Let both_there : SamplePreparation.disk :=
  {[ "out/test0"%string := "old"%string; "out/test1"%string := "old"%string ]}.

Lemma create_kfold_json_keeps_what_is_there_witness :
  create_kfold_json (file_system := files) some_args (Some 2%Z) "__kfold__"
    "000004" true both_there
  = (Ok (["out/test0"; "out/test1"]%string, true), both_there).
Proof.
  apply (proj2 (create_kfold_json_keeps_what_is_there (file_system := files)
                  some_args (Some 2%Z) "__kfold__" "000004" true both_there)).
  vm_compute. repeat constructor.
Defined.

Lemma create_kfold_json_writes_from_the_first_missing_file_witness :
  create_kfold_json (file_system := files) some_args (Some 2%Z) "__kfold__"
    "000004" true first_there
  = (Ok (["out/test0"; "out/test1"]%string, false),
     <[ "out/test1"%string := "__kfold__1"%string ]> first_there).
Proof.
  rewrite (create_kfold_json_writes_from_the_first_missing_file
             (file_system := files) some_args (Some 2%Z) "__kfold__" "000004"
             true first_there 1).
  - reflexivity.
  - split; [vm_compute; lia|]. split; [reflexivity|].
    intros index Hindex. assert (index = 0) as -> by lia. reflexivity.
Defined.

Let nothing_known : Collaborators Sample.files :=
  Sample.collaborators "average_accuracy" [] [].
Let selections : DatasetCollaborators := SamplePreparation.dataset_collaborators.
Let two_files : list string := ["out/test0"; "out/test1"]%string.

(** The state of a process that resumes on a ledger that holds the
    first of the two commands. *)
Let interrupted : world Sample.files :=
  World [rebuild_command ["main"; "out/test"; "out/test0"]]%string
        [rebuild_command ["main"; "out/test"; "out/test0"]]%string [] [] ∅.

Lemma interrupted_dataset_creation_resumes_witness :
  create_kfold_datasets (collaborators := nothing_known)
    (dataset_collaborators := selections) "dataset/1" some_args two_files true
    interrupted
  = (Ok ("out/test/dataset_gen"%string,
         with_output_dir some_args "out/test", false),
     World []
           [rebuild_command ["main"; "out/test"; "out/test0"];
            rebuild_command ["main"; "out/test"; "out/test1"]]%string
           [catch_up; ["main"; "out/test"; "out/test1"]%string] [] ∅).
Proof.
  rewrite (interrupted_dataset_creation_resumes (collaborators := nothing_known)
             (dataset_collaborators := selections) "dataset/1" some_args
             two_files 1 interrupted).
  - reflexivity.
  - cbn. lia.
  - reflexivity.
Defined.

Lemma dataset_creation_replays_witness :
  exists b' wr',
    create_kfold_datasets (collaborators := nothing_known)
      (dataset_collaborators := selections) "dataset/1" some_args two_files
      true
      (World (rev [rebuild_command ["main"; "out/test"; "out/test0"];
                   rebuild_command ["main"; "out/test"; "out/test1"]]%string)
             [] [] [] ∅)
    = (Ok ("out/test/dataset_gen"%string,
           with_output_dir some_args "out/test", b'), wr')
    /\ subcommand_log wr' = [].
Proof.
  destruct (proj1 (dataset_creation_replays (collaborators := nothing_known)
                     (dataset_collaborators := selections) "dataset/1"
                     some_args two_files "y" 10 None None [])
              (Sample.start ∅)
              ("out/test/dataset_gen"%string,
               with_output_dir some_args "out/test")
              false
              (snd (create_kfold_datasets (collaborators := nothing_known)
                      (dataset_collaborators := selections) "dataset/1"
                      some_args two_files false (Sample.start ∅)))
              [rebuild_command ["main"; "out/test"; "out/test0"];
               rebuild_command ["main"; "out/test"; "out/test1"]]%string
              [])
    with (wr := World
                  (rev [rebuild_command ["main"; "out/test"; "out/test0"];
                        rebuild_command ["main"; "out/test"; "out/test1"]]%string)
                  [] [] [] (∅ : Sample.files))
    as (b' & wr' & Hre & Hlog & _).
  - vm_compute. reflexivity.
  - vm_compute. reflexivity.
  - vm_compute. reflexivity.
  - constructor.
  - reflexivity.
  - vm_compute. reflexivity.
  - exists b', wr'. split; [exact Hre|exact Hlog].
Defined.

End PreparationExamples.

(** ** Starting again on the ledger file *)

Section Restart.

Context {env : Type} {collaborators : Collaborators env}.



End Restart.

Section RestartExamples.

Let by_nodes : Collaborators Sample.files :=
  Sample.collaborators "average_accuracy"
    [("3", 9 # 10); ("103", 95 # 100)]%Q [].
Let node_args : Args := Sample.args "accuracy" 103 None None.
Let sweep (resume : bool) :=
  best_node_threshold (collaborators := by_nodes) 10 "datasets" node_args
    None None resume.
Let swept : world Sample.files := snd (sweep false (Sample.start ∅)).


End RestartExamples.

(** ** What a run never does *)

Section AppendsLaws.

Context {env : Type} {collaborators : Collaborators env}.

Lemma list_pop_inv {A} (l : list A) x rest :
  list_pop l = Some (x, rest) -> l = rest ++ [x].
Proof.
  revert rest. induction l as [|y l IH]; intros rest H; [discriminate H|].
  cbn [list_pop] in H. destruct l as [|z l].
  - injection H as <- <-. reflexivity.
  - destruct (list_pop (z :: l)) as [[x' rest']|]; [|discriminate H].
    injection H as <- <-. cbn [app]. f_equal. now apply IH.
Qed.

Lemma only_appends_here (w : world env) :
  exists commands logged reads popped,
    dispatched w = dispatched w ++ commands
    /\ subcommand_log w = subcommand_log w ++ List.map rebuild_command logged
    /\ sublist logged commands
    /\ evaluations_read w = evaluations_read w ++ reads
    /\ subcommand_list w = subcommand_list w ++ popped
    /\ outside w = run_in_order commands (outside w).
Proof.
  exists [], [], [], []. cbn. rewrite !app_nil_r. repeat split. constructor.
Qed.

Lemma only_appends_trans (w w1 w2 : world env) :
  (exists commands logged reads popped,
     dispatched w1 = dispatched w ++ commands
     /\ subcommand_log w1 = subcommand_log w ++ List.map rebuild_command logged
     /\ sublist logged commands
     /\ evaluations_read w1 = evaluations_read w ++ reads
     /\ subcommand_list w = subcommand_list w1 ++ popped
     /\ outside w1 = run_in_order commands (outside w)) ->
  (exists commands logged reads popped,
     dispatched w2 = dispatched w1 ++ commands
     /\ subcommand_log w2 = subcommand_log w1 ++ List.map rebuild_command logged
     /\ sublist logged commands
     /\ evaluations_read w2 = evaluations_read w1 ++ reads
     /\ subcommand_list w1 = subcommand_list w2 ++ popped
     /\ outside w2 = run_in_order commands (outside w1)) ->
  exists commands logged reads popped,
    dispatched w2 = dispatched w ++ commands
    /\ subcommand_log w2 = subcommand_log w ++ List.map rebuild_command logged
    /\ sublist logged commands
    /\ evaluations_read w2 = evaluations_read w ++ reads
    /\ subcommand_list w = subcommand_list w2 ++ popped
    /\ outside w2 = run_in_order commands (outside w).
Proof.
  intros (c1 & l1 & r1 & p1 & Hd1 & Hl1 & Hs1 & Hr1 & Hp1 & Ho1)
         (c2 & l2 & r2 & p2 & Hd2 & Hl2 & Hs2 & Hr2 & Hp2 & Ho2).
  exists (c1 ++ c2), (l1 ++ l2), (r1 ++ r2), (p2 ++ p1).
  rewrite Hd2, Hd1, Hl2, Hl1, Hr2, Hr1, Hp1, Hp2, Ho2, Ho1.
  rewrite List.map_app, !app_assoc. unfold run_in_order.
  rewrite fold_left_app. repeat split. now apply sublist_app.
Qed.

Lemma issue_command_only_appends command_args resume (w : world env) :
  let w' := snd (issue_command (rebuild_command command_args) command_args
                   resume w) in
  exists commands logged reads popped,
    dispatched w' = dispatched w ++ commands
    /\ subcommand_log w' = subcommand_log w ++ List.map rebuild_command logged
    /\ sublist logged commands
    /\ evaluations_read w' = evaluations_read w ++ reads
    /\ subcommand_list w = subcommand_list w' ++ popped
    /\ outside w' = run_in_order commands (outside w).
Proof.
  cbv zeta.
  unfold issue_command, bind, pop_subcommand, sys_log_message,
    call_main_dispatcher, subcommand_list_is_empty, ret.
  destruct resume.
  - destruct (list_pop (subcommand_list w)) as [[next rest]|] eqn:Hpop;
      [|apply only_appends_here].
    apply list_pop_inv in Hpop.
    destruct (different_command next (rebuild_command command_args)).
    + exists [command_args], [command_args], [], [next]. cbn.
      rewrite app_nil_r. repeat split; [reflexivity|exact Hpop].
    + cbn [subcommand_list]. destruct rest as [|x rest].
      * exists [["main"; "--resume"]], [], [], [next]. cbn.
        rewrite !app_nil_r. repeat split; [|exact Hpop].
        apply sublist_nil_l.
      * exists [], [], [], [next]. cbn.
        rewrite !app_nil_r. repeat split; [constructor|exact Hpop].
  - exists [command_args], [command_args], [], []. cbn.
    rewrite !app_nil_r. repeat split. reflexivity.
Qed.

Lemma only_appends_kept : kept_by_the_steps (@only_appends env _).
Proof.
  split.
  - intros A f f' Heq Hf resume w. rewrite <- Heq. apply Hf.
  - intros A a resume w. apply only_appends_here.
  - intros A o Ho resume w. apply only_appends_here.
  - intros A B f g Hf Hg resume w. cbv zeta. unfold thread, bind.
    pose proof (Hf resume w) as H1. cbv zeta in H1.
    destruct (f resume w) as [[[a r1]| | |] w1]; cbn [snd] in H1 |- *;
      try exact H1.
    eapply only_appends_trans; [exact H1|]. apply Hg.
  - intros command_args evaluation_file resume w. cbv zeta. unfold bind.
    pose proof (issue_command_only_appends command_args resume w) as H1.
    cbv zeta in H1.
    destruct (issue_command _ _ resume w) as [[r1| | |] w1];
      cbn [snd] in H1 |- *; try exact H1.
    eapply only_appends_trans; [exact H1|].
    unfold load_evaluation, ret.
    destruct (read_json _ _) as [evaluation|]; cbn [snd];
      [|apply only_appends_here].
    exists [], [], [(evaluation_file, evaluation)], []. cbn.
    rewrite !app_nil_r. repeat split. constructor.
Qed.

(** X27: whatever they end in (a report, an exit, an exception), and
    resuming or not, the feature search and the threshold sweep only
    add to the ledger file, to the commands run and to the evaluations
    read, and only pop from the commands to resume on.  The commands
    they log are commands they run, in the same order: a command is
    never logged without being run.  And the outside world is changed
    by the commands run only. *)
Theorem searches_only_append fuel datasets_file args staleness penalty :
  (forall field_ids,
     only_appends _
       (best_first_search fuel datasets_file args staleness penalty field_ids))
  /\ only_appends _
       (best_node_threshold fuel datasets_file args staleness penalty).
Proof.
  split.
  - intros field_ids. apply step_best_first_search, only_appends_kept.
  - apply step_best_node_threshold, only_appends_kept.
Qed.

End AppendsLaws.
